(** * poly_pkt_fwd: a functional model of the LoRa packet forwarder

    The development follows [poly_pkt_fwd.c]: the two CRC routines, the
    beacon frame built by the downstream thread, the CRC filter and the
    serialisation of received packets in the upstream thread, the PUSH_ACK
    and PULL_ACK handshakes, the parsing of a PULL_RESP into a TX packet,
    the auto-quit counter, the validation thread that ages the GPS time
    reference, the GPS thread, a turn of the upstream loop, and from the
    configuration the servers and the bandwidth of the FSK channel.

    Threads are modelled as step functions: what a thread reads from the
    outside world during one turn of its loop (a datagram, the answer of
    the radio HAL, the value of the globals written by the other threads) is
    gathered in an event record, and what it does is returned as a new
    state and a list of output events. Code that the forwarder calls and
    does not contain (the HAL and its constants, the JSON parser, the
    base64 codec, the C library) is taken as a parameter.

    The file has four parts: the model, the vocabulary of the properties,
    stand-ins for the parameters with the scenarios of the specification,
    and the properties with their proofs. *)

From Stdlib Require Import ZArith List String Bool Lia Floats Uint63.
From stdpp Require Import base list.
Import ListNotations.

Set Default Proof Using "Type".
Set Warnings "-register-all,-inexact-float".
Local Open Scope Z_scope.

(** ** Machine integers

    Fixed-width C integers are carried by [Z]; every assignment to a narrower
    type is written out as a reduction. *)

Definition u8 (z : Z) : Z := z mod 2 ^ 8.
Definition u16 (z : Z) : Z := z mod 2 ^ 16.
Definition u32 (z : Z) : Z := z mod 2 ^ 32.

(** Two's complement reading of the low [n] bits. *)
Definition sint (n : Z) (z : Z) : Z :=
  let r := z mod 2 ^ n in
  if r <? 2 ^ (n - 1) then r else r - 2 ^ n.

Definition i8 (z : Z) : Z := sint 8 z.
Definition i32 (z : Z) : Z := sint 32 z.

(** C truth value of an integer. *)
Definition c_bool (z : Z) : bool := negb (z =? 0).

(** ** Doubles

    The C [double] is the binary64 float of the kernel. A conversion to an
    integer type truncates toward zero; the value is then reduced to the
    width of the target (C leaves a conversion out of range undefined, NaN
    and infinities are read as 0 here). *)

Definition double := float.

Definition double_trunc (f : double) : Z :=
  match Prim2SF f with
  | S754_finite s m e =>
      let mag := if 0 <=? e then Z.shiftl (Z.pos m) e
                 else Z.shiftr (Z.pos m) (- e) in
      if s then - mag else mag
  | _ => 0
  end.

Definition double_of_Z (z : Z) : double :=
  if 0 <=? z then PrimFloat.of_uint63 (Uint63.of_Z z)
  else PrimFloat.opp (PrimFloat.of_uint63 (Uint63.of_Z (- z))).

Definition double_to_u8 (f : double) : Z := u8 (double_trunc f).
Definition double_to_u16 (f : double) : Z := u16 (double_trunc f).
Definition double_to_u32 (f : double) : Z := u32 (double_trunc f).
Definition double_to_i8 (f : double) : Z := i8 (double_trunc f).
Definition double_to_i32 (f : double) : Z := i32 (double_trunc f).

(** ** The two CRC routines *)

Definition crc16_shift (x : Z) : Z :=
  if negb (Z.land x 0x8000 =? 0)
  then u16 (Z.lxor (Z.shiftl x 1) 0x1021)
  else u16 (Z.shiftl x 1).

Definition crc16_byte (x d : Z) : Z :=
  Nat.iter 8 crc16_shift (Z.lxor x (u16 (Z.shiftl d 8))).

(** [data] is [None] for the NULL pointer; [size] bytes are read. *)
Definition crc_ccit (data : option (list Z)) (size : nat) : Z :=
  match data with
  | None => 0
  | Some bytes => fold_left crc16_byte (take size bytes) 0xFFFF
  end.

Definition crc8_shift (x : Z) : Z :=
  if negb (Z.land x 0x80 =? 0)
  then u8 (Z.lxor (Z.shiftl x 1) 0x87)
  else u8 (Z.shiftl x 1).

Definition crc8_byte (x d : Z) : Z :=
  Nat.iter 8 crc8_shift (Z.lxor x d).

Definition crc8_ccit (data : option (list Z)) (size : nat) : Z :=
  match data with
  | None => 0
  | Some bytes => fold_left crc8_byte (take size bytes) 0xFF
  end.

(** ** Constants of the radio HAL

    [loragw_hal.h] and [loragw_gps.h] are not among the sources: the
    constants the forwarder compares against are parameters. The labels of
    one [switch] are pairwise distinct (the program would not compile
    otherwise), and so are the two modulations and the three TX modes. *)

Class HalConsts := {
  MOD_LORA : Z; MOD_FSK : Z;
  STAT_CRC_OK : Z; STAT_CRC_BAD : Z; STAT_NO_CRC : Z;
  BW_125KHZ : Z; BW_250KHZ : Z; BW_500KHZ : Z;
  DR_LORA_SF7 : Z; DR_LORA_SF8 : Z; DR_LORA_SF9 : Z;
  DR_LORA_SF10 : Z; DR_LORA_SF11 : Z; DR_LORA_SF12 : Z;
  CR_LORA_4_5 : Z; CR_LORA_4_6 : Z; CR_LORA_4_7 : Z; CR_LORA_4_8 : Z;
  IMMEDIATE : Z; TIMESTAMPED : Z; ON_GPS : Z;
  TX_STATUS_UNKNOWN : Z; TX_FREE : Z;
  LGW_HAL_ERROR : Z;
  hal_stat_labels : NoDup [STAT_CRC_OK; STAT_CRC_BAD; STAT_NO_CRC];
  hal_mod_distinct : MOD_LORA <> MOD_FSK;
  hal_tx_modes : NoDup [IMMEDIATE; TIMESTAMPED; ON_GPS]
}.

(** ** Packets exchanged with the radio *)

(** [struct lgw_pkt_tx_s]; [payload] is the 256-byte array of the struct. *)
Record lgw_pkt_tx_s := {
  tx_freq_hz : Z;
  tx_mode : Z;
  tx_count_us : Z;
  tx_rf_chain : Z;
  tx_rf_power : Z;
  tx_modulation : Z;
  tx_bandwidth : Z;
  tx_datarate : Z;
  tx_coderate : Z;
  tx_invert_pol : bool;
  tx_f_dev : Z;
  tx_preamble : Z;
  tx_no_crc : bool;
  tx_no_header : bool;
  tx_size : Z;
  tx_payload : list Z
}.

(** [memset(&txpkt, 0, sizeof txpkt)] *)
Definition txpkt_zero : lgw_pkt_tx_s :=
  {| tx_freq_hz := 0; tx_mode := 0; tx_count_us := 0; tx_rf_chain := 0;
     tx_rf_power := 0; tx_modulation := 0; tx_bandwidth := 0;
     tx_datarate := 0; tx_coderate := 0; tx_invert_pol := false;
     tx_f_dev := 0; tx_preamble := 0; tx_no_crc := false;
     tx_no_header := false; tx_size := 0; tx_payload := replicate 256 0 |}.

(** [struct lgw_pkt_rx_s], the fields the forwarder reads. *)
Record lgw_pkt_rx_s := {
  rx_freq_hz : Z;
  rx_if_chain : Z;
  rx_status : Z;
  rx_count_us : Z;
  rx_rf_chain : Z;
  rx_modulation : Z;
  rx_bandwidth : Z;
  rx_datarate : Z;
  rx_coderate : Z;
  rx_rssi : double;
  rx_snr : double;
  rx_size : Z;
  rx_payload : list Z
}.

(** [struct coord_s] *)
Record coord_s := { lat : double; lon : double; alt : Z }.

(** [struct tref], the fields the forwarder reads. *)
Record tref := {
  systime : Z;
  utc_tv_sec : Z;
  utc_tv_nsec : Z;
  xtal_err : double
}.

(** ** The beacon frame *)

Section Beacon.
Context `{HalConsts}.

Definition field_netid : Z := 0xC0FFEE.
Definition field_info : Z := 0.

Definition set_payload (i : nat) (b : Z) (p : lgw_pkt_tx_s) : lgw_pkt_tx_s :=
  {| tx_freq_hz := tx_freq_hz p; tx_mode := tx_mode p;
     tx_count_us := tx_count_us p; tx_rf_chain := tx_rf_chain p;
     tx_rf_power := tx_rf_power p; tx_modulation := tx_modulation p;
     tx_bandwidth := tx_bandwidth p; tx_datarate := tx_datarate p;
     tx_coderate := tx_coderate p; tx_invert_pol := tx_invert_pol p;
     tx_f_dev := tx_f_dev p; tx_preamble := tx_preamble p;
     tx_no_crc := tx_no_crc p; tx_no_header := tx_no_header p;
     tx_size := tx_size p; tx_payload := <[i:=b]> (tx_payload p) |}.

Definition set_freq_hz (f : Z) (p : lgw_pkt_tx_s) : lgw_pkt_tx_s :=
  {| tx_freq_hz := f; tx_mode := tx_mode p;
     tx_count_us := tx_count_us p; tx_rf_chain := tx_rf_chain p;
     tx_rf_power := tx_rf_power p; tx_modulation := tx_modulation p;
     tx_bandwidth := tx_bandwidth p; tx_datarate := tx_datarate p;
     tx_coderate := tx_coderate p; tx_invert_pol := tx_invert_pol p;
     tx_f_dev := tx_f_dev p; tx_preamble := tx_preamble p;
     tx_no_crc := tx_no_crc p; tx_no_header := tx_no_header p;
     tx_size := tx_size p; tx_payload := tx_payload p |}.

(** The latitude and longitude fields derived from [reference_coord]. *)
Definition beacon_field_latitude (reference_coord : coord_s) : Z :=
  let field_latitude :=
    double_to_i32
      ((lat reference_coord / 90.0) * double_of_Z (Z.shiftl 1 23))%float in
  if field_latitude >? i32 0x007FFFFF then i32 0x007FFFFF
  else if field_latitude <? i32 0xFF800000 then i32 0xFF800000
  else field_latitude.

Definition beacon_field_longitude (reference_coord : coord_s) : Z :=
  Z.land 0x00FFFFFF
    (double_to_i32
       ((lon reference_coord / 180.0) * double_of_Z (Z.shiftl 1 23))%float).

(** The part of [thread_down] that runs once before the loop. [stack] is
    the automatic variable [beacon_pkt] as the thread finds it: the fields
    and payload bytes the code does not assign keep what [stack] holds. *)
Definition beacon_init (reference_coord : coord_s) (stack : lgw_pkt_tx_s)
  : lgw_pkt_tx_s :=
  let field_latitude := beacon_field_latitude reference_coord in
  let field_longitude := beacon_field_longitude reference_coord in
  let p :=
    {| tx_freq_hz := tx_freq_hz stack;
       tx_mode := ON_GPS;
       tx_count_us := tx_count_us stack;
       tx_rf_chain := 0;
       tx_rf_power := 14;
       tx_modulation := MOD_LORA;
       tx_bandwidth := BW_125KHZ;
       tx_datarate := DR_LORA_SF9;
       tx_coderate := CR_LORA_4_5;
       tx_invert_pol := true;
       tx_f_dev := tx_f_dev stack;
       tx_preamble := 6;
       tx_no_crc := true;
       tx_no_header := true;
       tx_size := 17;
       tx_payload := tx_payload stack |} in
  let p := set_payload 0 (Z.land 0xFF field_netid) p in
  let p := set_payload 1 (Z.land 0xFF (Z.shiftr field_netid 8)) p in
  let p := set_payload 2 (Z.land 0xFF (Z.shiftr field_netid 16)) p in
  let p := set_payload 8 field_info p in
  let p := set_payload 9 (Z.land 0xFF field_latitude) p in
  let p := set_payload 10 (Z.land 0xFF (Z.shiftr field_latitude 8)) p in
  let p := set_payload 11 (Z.land 0xFF (Z.shiftr field_latitude 16)) p in
  let p := set_payload 12 (Z.land 0xFF field_longitude) p in
  let p := set_payload 13 (Z.land 0xFF (Z.shiftr field_longitude 8)) p in
  let p := set_payload 14 (Z.land 0xFF (Z.shiftr field_longitude 16)) p in
  let field_crc2 := crc_ccit (Some (drop 8 (tx_payload p))) 7 in
  let p := set_payload 15 (Z.land 0xFF field_crc2) p in
  set_payload 16 (Z.land 0xFF (Z.shiftr field_crc2 8)) p.

(** The part of the loop that completes the beacon once the GPS thread has
    armed it and both the time reference and the XTAL correction are
    valid. The result is the packet given to [lgw_send]. *)
Definition beacon_load (time_reference_gps : tref) (xtal_correct : double)
    (beacon_freq_hz : Z) (beacon_pkt : lgw_pkt_tx_s) : lgw_pkt_tx_s :=
  let field_time := u32 (utc_tv_sec time_reference_gps + 1) in
  let p := set_payload 9 (Z.land 0xFF field_time) beacon_pkt in
  let p := set_payload 10 (Z.land 0xFF (Z.shiftr field_time 8)) p in
  let p := set_payload 11 (Z.land 0xFF (Z.shiftr field_time 16)) p in
  let p := set_payload 12 (Z.land 0xFF (Z.shiftr field_time 24)) p in
  let field_crc1 := crc8_ccit (Some (tx_payload p)) 7 in
  let p := set_payload 7 field_crc1 p in
  set_freq_hz (double_to_u32 (xtal_correct * double_of_Z beacon_freq_hz)%float) p.

End Beacon.

(** ** Collaborators

    The JSON parser (parson), the base64 codec, the C library and the GPS
    conversion routines of the HAL are used by the forwarder and are not
    part of it: their functions are parameters. A NULL result is [None]. *)

Class Parson := {
  JSON_Value : Type;
  JSON_Object : Type;
  json_parse_string_with_comments : list Z -> option JSON_Value;
  json_value_get_object : JSON_Value -> option JSON_Object;
  json_object_get_value : JSON_Object -> string -> option JSON_Value;
  json_object_get_string : JSON_Object -> string -> option string;
  (** 1 if true, 0 if false, -1 if not a JSON boolean *)
  json_object_get_boolean : JSON_Object -> string -> Z;
  json_value_get_number : JSON_Value -> double;
  json_value_get_boolean : JSON_Value -> Z
}.

(** [json_object_get_object(json_value_get_object(root), name)] *)
Definition json_object_get_object `{Parson}
    (o : option JSON_Object) (name : string) : option JSON_Object :=
  match o with
  | None => None
  | Some obj =>
      match json_object_get_value obj name with
      | None => None
      | Some v => json_value_get_object v
      end
  end.

(** [struct timespec] *)
Record timespec := { tv_sec : Z; tv_nsec : Z }.

(** The fields of [struct tm] that the forwarder assigns. *)
Record tm := {
  tm_year : Z; tm_mon : Z; tm_mday : Z; tm_hour : Z; tm_min : Z; tm_sec : Z
}.

Class Extern := {
  (** [b64_to_bin(in, strlen(in), out, max)]: the value returned and the
      bytes stored at the start of [out]. *)
  b64_to_bin : string -> nat -> Z * list Z;
  b64_to_bin_fits : forall s max, (length (b64_to_bin s max).2 <= max)%nat;
  (** [bin_to_b64(in, size, out, max)]: the text written, [None] when the
      call returns a negative value. *)
  bin_to_b64 : list Z -> Z -> nat -> option string;
  (** [sscanf] with the datarate format: the two shorts when it returns 2. *)
  sscanf_datr : string -> option (Z * Z);
  (** [sscanf] with the ISO 8601 format: the six values when it returns 6. *)
  sscanf_time : string -> option (Z * Z * Z * Z * Z * double);
  (** [modf]: fractional part and integral part. *)
  modf : double -> double * double;
  mktime : tm -> Z;
  timezone : Z;
  (** The converted value when the call returns LGW_GPS_SUCCESS. *)
  lgw_utc2cnt : tref -> timespec -> option Z;
  lgw_cnt2utc : tref -> Z -> option timespec
}.

(** ** Protocol constants *)

Definition PROTOCOL_VERSION : Z := 1.
Definition PKT_PUSH_DATA : Z := 0.
Definition PKT_PUSH_ACK : Z := 1.
Definition PKT_PULL_DATA : Z := 2.
Definition PKT_PULL_RESP : Z := 3.
Definition PKT_PULL_ACK : Z := 4.

Definition GPS_REF_MAX_AGE : Z := 30.
Definition BEACON_POLL_MS : Z := 50.
Definition XERR_INIT_AVG : Z := 128.
Definition XERR_FILT_COEF : Z := 256.
Definition MIN_LORA_PREAMB : Z := 6.
Definition STD_LORA_PREAMB : Z := 8.
Definition MIN_FSK_PREAMB : Z := 3.
Definition STD_FSK_PREAMB : Z := 4.

(** ** What a thread prints and does

    A line printed with [MSG] is kept as its level and its text, without the
    formatted arguments and the quotes around the names of JSON members;
    the lines that name the server are shortened. *)

Inductive level := INFO | NOTE | WARNING | ERROR.

Inductive out_event :=
| Msg (l : level) (text : string)
| Udp_send (datagram : list Z)
| Lgw_send (pkt : lgw_pkt_tx_s)
| Wait_ms (ms : Z).

(** Byte [i] of a buffer; the forwarder only reads below the length that
    [recv] returned. *)
Definition byte_at (buf : list Z) (i : nat) : Z := nth i buf 0.

(** The C string that starts a buffer: the bytes before the first zero. *)
Fixpoint c_string (buf : list Z) : list Z :=
  match buf with
  | [] => []
  | b :: rest => if b =? 0 then [] else b :: c_string rest
  end.

(** ** Parsing a PULL_RESP

    Every step of the parser may print, and may abandon the frame (the
    [continue] of the C loop). *)

Definition log_line : Type := level * string.

Definition print (line : log_line) : out_event := Msg line.1 line.2.

Inductive result (A : Type) :=
| Ok (printed : list log_line) (a : A)
| Abort (printed : list log_line).
Arguments Ok {A} printed a.
Arguments Abort {A} printed.

#[global] Instance result_bind : MBind result := fun A B k r =>
  match r with
  | Abort l => Abort l
  | Ok l a =>
      match k a with
      | Ok l' b => Ok (l ++ l') b
      | Abort l' => Abort (l ++ l')
      end
  end.

#[global] Instance result_ret : MRet result := fun A a => Ok [] a.

Definition abort {A} (text : string) : result A := Abort [(WARNING, text)].
Definition say (l : level) (text : string) : result unit := Ok [(l, text)] tt.

(** A mandatory member: the frame is abandoned when it is missing. *)
Definition mandatory {A} (o : option A) (text : string) : result A :=
  match o with
  | Some a => mret a
  | None => abort text
  end.

(** The globals that [thread_down] reads and that other threads write. *)
Record down_globals := {
  gps_active : bool;
  gps_ref_valid : bool;
  time_reference_gps : tref;
  xtal_correct_ok : bool;
  xtal_correct : double;
  armed_next_pps : bool;
  beacon_freq_hz : Z
}.

Section PullResp.
Context `{HalConsts} `{Parson} `{Extern}.

(** The UTC time to convert, from the six values read in [txpk.time]. *)
Definition utc_tx_of (x0 x1 x2 x3 x4 : Z) (x5 : double) : timespec :=
  let '(x5, x6) := modf x5 in
  let utc_vector :=
    {| tm_year := x0 - 1900; tm_mon := x1 - 1; tm_mday := x2;
       tm_hour := x3; tm_min := x4;
       tm_sec := double_to_i32 x6 |} in
  {| tv_sec := mktime utc_vector - timezone;
     tv_nsec := sint 64 (double_trunc (1e9 * x5)%float) |}.

(** The "immediate" tag, or the target timestamp, or the UTC time to be
    converted through the GPS time reference: [sent_immediate] and the
    value left in [txpkt.count_us]. *)
Definition parse_timing (g : down_globals) (txpk_obj : JSON_Object)
  : result (bool * Z) :=
  if json_object_get_boolean txpk_obj "imme" =? 1 then
    (_ ← say INFO "[down] a packet will be sent in immediate mode";
     mret (true, 0))
  else
    match json_object_get_value txpk_obj "tmst" with
    | Some val =>
        let count_us := double_to_u32 (json_value_get_number val) in
        _ ← say INFO "[down] a packet will be sent on timestamp value";
        mret (false, count_us)
    | None =>
        str ← mandatory (json_object_get_string txpk_obj "time")
          "[down] no mandatory txpk.tmst or txpk.time objects in JSON, TX aborted";
        local_ref ←
          (if gps_active g then
             if gps_ref_valid g then mret (time_reference_gps g)
             else abort "[down] no valid GPS time reference yet, impossible to send packet on specific UTC time, TX aborted"
           else abort "[down] GPS disabled, impossible to send packet on specific UTC time, TX aborted");
        '(x0, x1, x2, x3, x4, x5) ← mandatory (sscanf_time str)
          "[down] txpk.time must follow ISO 8601 format, TX aborted";
        count_us ← mandatory (lgw_utc2cnt local_ref (utc_tx_of x0 x1 x2 x3 x4 x5))
          "[down] could not convert UTC time to timestamp, TX aborted";
        _ ← say INFO "[down] a packet will be sent on timestamp value (calculated from UTC time)";
        mret (false, count_us)
    end.

(** An optional boolean member: left as it is when missing. *)
Definition optional_bool (txpk_obj : JSON_Object) (name : string)
    (dflt : bool) : bool :=
  match json_object_get_value txpk_obj name with
  | Some val => c_bool (json_value_get_boolean val)
  | None => dflt
  end.

(** The preamble length, with the minimum enforced. *)
Definition parse_prea (txpk_obj : JSON_Object) (min std : Z) : Z :=
  match json_object_get_value txpk_obj "prea" with
  | Some val =>
      let i := double_to_i32 (json_value_get_number val) in
      if i >=? min then u16 i else u16 min
  | None => u16 std
  end.

(** The members that depend on the modulation: modulation, datarate,
    bandwidth, coderate, polarity inversion, frequency deviation and
    preamble. *)
Record modu_fields := {
  m_modulation : Z; m_datarate : Z; m_bandwidth : Z; m_coderate : Z;
  m_invert_pol : bool; m_f_dev : Z; m_preamble : Z
}.

(** The three tables of the LoRa branch. *)
Definition lora_datarate (x0 : Z) : result Z :=
  if x0 =? 7 then mret DR_LORA_SF7
  else if x0 =? 8 then mret DR_LORA_SF8
  else if x0 =? 9 then mret DR_LORA_SF9
  else if x0 =? 10 then mret DR_LORA_SF10
  else if x0 =? 11 then mret DR_LORA_SF11
  else if x0 =? 12 then mret DR_LORA_SF12
  else abort "[down] format error in txpk.datr, invalid SF, TX aborted".

Definition lora_bandwidth (x1 : Z) : result Z :=
  if x1 =? 125 then mret BW_125KHZ
  else if x1 =? 250 then mret BW_250KHZ
  else if x1 =? 500 then mret BW_500KHZ
  else abort "[down] format error in txpk.datr, invalid BW, TX aborted".

Definition lora_coderate (str : string) : result Z :=
  if String.eqb str "4/5" then mret CR_LORA_4_5
  else if String.eqb str "4/6" then mret CR_LORA_4_6
  else if String.eqb str "2/3" then mret CR_LORA_4_6
  else if String.eqb str "4/7" then mret CR_LORA_4_7
  else if String.eqb str "4/8" then mret CR_LORA_4_8
  else if String.eqb str "1/2" then mret CR_LORA_4_8
  else abort "[down] format error in txpk.codr, TX aborted".

Definition parse_lora (txpk_obj : JSON_Object) : result modu_fields :=
  str ← mandatory (json_object_get_string txpk_obj "datr")
    "[down] no mandatory txpk.datr object in JSON, TX aborted";
  x ← mandatory (sscanf_datr str)
    "[down] format error in txpk.datr, TX aborted";
  datarate ← lora_datarate x.1;
  bandwidth ← lora_bandwidth x.2;
  str ← mandatory (json_object_get_string txpk_obj "codr")
    "[down] no mandatory txpk.codr object in json, TX aborted";
  coderate ← lora_coderate str;
  mret {| m_modulation := MOD_LORA; m_datarate := datarate;
         m_bandwidth := bandwidth; m_coderate := coderate;
         m_invert_pol := optional_bool txpk_obj "ipol" false;
         m_f_dev := 0;
         m_preamble := parse_prea txpk_obj MIN_LORA_PREAMB STD_LORA_PREAMB |}.

Definition parse_fsk (txpk_obj : JSON_Object) : result modu_fields :=
  val ← mandatory (json_object_get_value txpk_obj "datr")
    "[down] no mandatory txpk.datr object in JSON, TX aborted";
  let datarate := double_to_u32 (json_value_get_number val) in
  val ← mandatory (json_object_get_value txpk_obj "fdev")
    "[down] no mandatory txpk.fdev object in JSON, TX aborted";
  let f_dev := double_to_u8 (json_value_get_number val / 1000.0)%float in
  mret {| m_modulation := MOD_FSK; m_datarate := datarate;
         m_bandwidth := 0; m_coderate := 0; m_invert_pol := false;
         m_f_dev := f_dev;
         m_preamble := parse_prea txpk_obj MIN_FSK_PREAMB STD_FSK_PREAMB |}.

Definition parse_modu (txpk_obj : JSON_Object) : result modu_fields :=
  str ← mandatory (json_object_get_string txpk_obj "modu")
    "[down] no mandatory txpk.modu object in JSON, TX aborted";
  if String.eqb str "LORA" then parse_lora txpk_obj
  else if String.eqb str "FSK" then parse_fsk txpk_obj
  else abort "[down] invalid modulation in txpk.modu, TX aborted".

(** The payload: the decoded bytes overwrite the start of the zeroed
    array; a length that differs from [size] only prints a warning. *)
Definition parse_data (txpk_obj : JSON_Object) (size : Z)
  : result (list Z) :=
  str ← mandatory (json_object_get_string txpk_obj "data")
    "[down] no mandatory txpk.data object in JSON, TX aborted";
  let '(i, out) := b64_to_bin str 256 in
  let payload := out ++ drop (length out) (tx_payload txpkt_zero) in
  _ ← (if negb (i =? size)
        then say WARNING "[down] mismatch between .size and .data size once converter to binary"
        else mret tt);
  mret payload.

(** From the [txpk] object to the packet given to [lgw_send]. *)
Definition parse_txpk (g : down_globals) (txpk_obj : JSON_Object)
  : result lgw_pkt_tx_s :=
  '(sent_immediate, count_us) ← parse_timing g txpk_obj;
  let no_crc := optional_bool txpk_obj "ncrc" false in
  val ← mandatory (json_object_get_value txpk_obj "freq")
    "[down] no mandatory txpk.freq object in JSON, TX aborted";
  let freq_hz := double_to_u32 (1.0e6 * json_value_get_number val)%float in
  val ← mandatory (json_object_get_value txpk_obj "rfch")
    "[down] no mandatory txpk.rfch object in JSON, TX aborted";
  let rf_chain := double_to_u8 (json_value_get_number val) in
  let rf_power :=
    match json_object_get_value txpk_obj "powe" with
    | Some val => double_to_i8 (json_value_get_number val)
    | None => 0
    end in
  m ← parse_modu txpk_obj;
  val ← mandatory (json_object_get_value txpk_obj "size")
    "[down] no mandatory txpk.size object in JSON, TX aborted";
  let size := double_to_u16 (json_value_get_number val) in
  payload ← parse_data txpk_obj size;
  mret {| tx_freq_hz := freq_hz;
         tx_mode := if sent_immediate : bool then IMMEDIATE else TIMESTAMPED;
         tx_count_us := count_us;
         tx_rf_chain := rf_chain;
         tx_rf_power := rf_power;
         tx_modulation := m_modulation m;
         tx_bandwidth := m_bandwidth m;
         tx_datarate := m_datarate m;
         tx_coderate := m_coderate m;
         tx_invert_pol := m_invert_pol m;
         tx_f_dev := m_f_dev m;
         tx_preamble := m_preamble m;
         tx_no_crc := no_crc;
         tx_no_header := false;
         tx_size := size;
         tx_payload := payload |}.

(** The JSON body of a PULL_RESP: the text after the 4-byte header. *)
Definition parse_pull_resp (g : down_globals) (buff_down : list Z)
  : result lgw_pkt_tx_s :=
  root_val ← mandatory (json_parse_string_with_comments (c_string (drop 4 buff_down)))
    "[down] invalid JSON, TX aborted";
  txpk_obj ← mandatory (json_object_get_object (json_value_get_object root_val) "txpk")
    "[down] no txpk object in JSON, TX aborted";
  parse_txpk g txpk_obj.

End PullResp.

(** ** Well-formed [txpk] objects

    What the specification asks of a [txpk] object, written on its own to
    be compared with what the parser accepts: one timing mode that can be
    honoured; the members freq, rfch, modu, size and data; for LORA a
    datarate SF7..SF12 with BW 125, 250 or 500 and a coding rate among
    4/5, 4/6, 2/3, 4/7, 4/8, 1/2; for FSK a datarate and a frequency
    deviation. *)

Section WellFormed.
Context `{Parson} `{Extern}.

Definition timing_ok (g : down_globals) (o : JSON_Object) : bool :=
  (json_object_get_boolean o "imme" =? 1)
  || bool_decide (is_Some (json_object_get_value o "tmst"))
  || match json_object_get_string o "time" with
     | Some str =>
         gps_active g && gps_ref_valid g
         && match sscanf_time str with
            | Some (x0, x1, x2, x3, x4, x5) =>
                bool_decide (is_Some (lgw_utc2cnt (time_reference_gps g)
                                        (utc_tx_of x0 x1 x2 x3 x4 x5)))
            | None => false
            end
     | None => false
     end.

Definition lora_ok (o : JSON_Object) : bool :=
  match json_object_get_string o "datr" with
  | Some datr =>
      match sscanf_datr datr with
      | Some (sf, bw) =>
          existsb (Z.eqb sf) [7; 8; 9; 10; 11; 12]
          && existsb (Z.eqb bw) [125; 250; 500]
      | None => false
      end
  | None => false
  end
  && match json_object_get_string o "codr" with
     | Some codr =>
         existsb (String.eqb codr) ["4/5"; "4/6"; "2/3"; "4/7"; "4/8"; "1/2"]%string
     | None => false
     end.

Definition fsk_ok (o : JSON_Object) : bool :=
  bool_decide (is_Some (json_object_get_value o "datr"))
  && bool_decide (is_Some (json_object_get_value o "fdev")).

Definition modu_ok (o : JSON_Object) : bool :=
  match json_object_get_string o "modu" with
  | Some modu =>
      if String.eqb modu "LORA" then lora_ok o
      else if String.eqb modu "FSK" then fsk_ok o
      else false
  | None => false
  end.

Definition txpk_fields_ok (o : JSON_Object) : bool :=
  bool_decide (is_Some (json_object_get_value o "freq"))
  && bool_decide (is_Some (json_object_get_value o "rfch"))
  && modu_ok o
  && bool_decide (is_Some (json_object_get_value o "size"))
  && bool_decide (is_Some (json_object_get_string o "data")).

Definition txpk_wellformed (g : down_globals) (o : JSON_Object) : bool :=
  timing_ok g o && txpk_fields_ok o.

End WellFormed.

(** ** The downstream thread *)

(** The downstream measurements, guarded by [mx_meas_dw]. *)
Record meas_dw := {
  meas_dw_pull_sent : Z;
  meas_dw_ack_rcv : Z;
  meas_dw_dgram_rcv : Z;
  meas_dw_network_byte : Z;
  meas_dw_payload_byte : Z;
  meas_nb_tx_ok : Z;
  meas_nb_tx_fail : Z
}.

(** The variables of [thread_down] that tell whether the last PULL_DATA was
    acknowledged. *)
Record ack_state := {
  token_h : Z;
  token_l : Z;
  req_ack : bool;
  autoquit_cnt : Z
}.

Record down_state := {
  ack : ack_state;
  beacon_pkt : lgw_pkt_tx_s;
  beacon_next_pps : bool;
  exit_sig : bool;
  meas : meas_dw;
  trace : list out_event
}.

(** What one turn of the listening loop gets from outside the thread. *)
Record down_event := {
  (** the datagram, [None] when [recv] returns -1 *)
  ev_recv : option (list Z);
  (** [(int)difftimespec(recv_time, send_time)] once [recv] has returned *)
  ev_elapsed : Z;
  ev_globals : down_globals;
  (** what [lgw_send(beacon_pkt)] returns *)
  ev_beacon_send : Z;
  (** what the i-th [lgw_status] stores *)
  ev_tx_status : nat -> Z;
  (** what [lgw_send(txpkt)] returns *)
  ev_lgw_send : Z
}.

(** One turn of the outer loop, as the outside world shapes it. *)
Record session := {
  (** [exit_sig || quit_sig] as another thread or a signal left it *)
  ses_signal : bool;
  (** the two values drawn from [rand] *)
  ses_token : Z * Z;
  ses_events : list down_event
}.

Record down_config := {
  autoquit_threshold : Z;
  keepalive_time : Z;
  (** [net_mac_h] and [net_mac_l] as they lie in memory *)
  net_mac : list Z
}.

Section ThreadDown.
Context `{HalConsts} `{Parson} `{Extern}.

(** Polling of the TX status after the beacon was given to the radio. *)
Fixpoint beacon_poll (n i : nat) (tx_status_var : Z) (status : nat -> Z)
  : Z * list out_event :=
  match n with
  | O => (tx_status_var, [])
  | S n' =>
      if tx_status_var =? TX_FREE then (tx_status_var, [])
      else
        let '(s, l) := beacon_poll n' (S i) (u8 (status i)) status in
        (s, Wait_ms BEACON_POLL_MS :: l)
  end.

(** The beacon part of a turn: the packet variable, the flag left in
    [beacon_next_pps] and what is done. The dump of the payload that the
    thread prints before the send is left out. *)
Definition beacon_step (ev : down_event) (beacon_pkt : lgw_pkt_tx_s)
  : lgw_pkt_tx_s * bool * list out_event :=
  let g := ev_globals ev in
  if armed_next_pps g && gps_active g then
    if gps_ref_valid g && xtal_correct_ok g then
      let pkt := beacon_load (time_reference_gps g) (xtal_correct g)
                   (beacon_freq_hz g) beacon_pkt in
      let head :=
        [Msg NOTE "[down] beacon ready to send"; Lgw_send pkt] in
      if ev_beacon_send ev =? LGW_HAL_ERROR then
        (pkt, false, head ++ [Msg WARNING "[down] failed to send beacon packet"])
      else
        let '(tx_status_var, waits) :=
          beacon_poll (Z.to_nat (1500 / BEACON_POLL_MS)) 0
            TX_STATUS_UNKNOWN (ev_tx_status ev) in
        (pkt, false,
         head ++ waits ++
         [if tx_status_var =? TX_FREE
          then Msg NOTE "[down] beacon sent successfully"
          else Msg WARNING "[down] beacon was scheduled but failed to TX"])
    else (beacon_pkt, false, [])
  else (beacon_pkt, armed_next_pps g, []).

(** A datagram that passed the protocol check and is a PULL_ACK. *)
Definition pull_ack_step (buff_down : list Z) (a : ack_state) (m : meas_dw)
  : ack_state * meas_dw * list out_event :=
  if (byte_at buff_down 1 =? token_h a) && (byte_at buff_down 2 =? token_l a) then
    if req_ack a then
      (a, m, [Msg INFO "[down] duplicate ACK received"])
    else
      ({| token_h := token_h a; token_l := token_l a;
          req_ack := true; autoquit_cnt := 0 |},
       {| meas_dw_pull_sent := meas_dw_pull_sent m;
          meas_dw_ack_rcv := u32 (meas_dw_ack_rcv m + 1);
          meas_dw_dgram_rcv := meas_dw_dgram_rcv m;
          meas_dw_network_byte := meas_dw_network_byte m;
          meas_dw_payload_byte := meas_dw_payload_byte m;
          meas_nb_tx_ok := meas_nb_tx_ok m;
          meas_nb_tx_fail := meas_nb_tx_fail m |},
       [Msg INFO "[down] PULL_ACK received"])
  else (a, m, [Msg INFO "[down] received out-of-sync ACK"]).

(** A datagram that passed the protocol check and is a PULL_RESP. *)
Definition pull_resp_step (ev : down_event) (buff_down : list Z) (m : meas_dw)
  : meas_dw * list out_event :=
  let msg_len := Z.of_nat (length buff_down) in
  let head := [Msg INFO "[down] PULL_RESP received"] in
  match parse_pull_resp (ev_globals ev) buff_down with
  | Abort printed => (m, head ++ map print printed)
  | Ok printed txpkt =>
      let failed := ev_lgw_send ev =? LGW_HAL_ERROR in
      ({| meas_dw_pull_sent := meas_dw_pull_sent m;
          meas_dw_ack_rcv := meas_dw_ack_rcv m;
          meas_dw_dgram_rcv := u32 (meas_dw_dgram_rcv m + 1);
          meas_dw_network_byte := u32 (meas_dw_network_byte m + msg_len);
          meas_dw_payload_byte := u32 (meas_dw_payload_byte m + tx_size txpkt);
          meas_nb_tx_ok :=
            if failed then meas_nb_tx_ok m else u32 (meas_nb_tx_ok m + 1);
          meas_nb_tx_fail :=
            if failed then u32 (meas_nb_tx_fail m + 1) else meas_nb_tx_fail m |},
       head ++ map print printed ++ [Lgw_send txpkt] ++
       (if failed then [Msg WARNING "[down] lgw_send failed"] else []))
  end.

(** What is done with the datagram once the beacon part is over. *)
Definition datagram_step (ev : down_event) (a : ack_state) (m : meas_dw)
  : ack_state * meas_dw * list out_event :=
  match ev_recv ev with
  | None => (a, m, [])
  | Some buff_down =>
      if (Z.of_nat (length buff_down) <? 4)
         || negb (byte_at buff_down 0 =? PROTOCOL_VERSION)
         || (negb (byte_at buff_down 3 =? PKT_PULL_RESP)
             && negb (byte_at buff_down 3 =? PKT_PULL_ACK))
      then (a, m, [])
      else if byte_at buff_down 3 =? PKT_PULL_ACK then
        pull_ack_step buff_down a m
      else
        let '(m', out) := pull_resp_step ev buff_down m in
        (a, m', out)
  end.

(** One turn of the listening loop. *)
Definition down_iter (st : down_state) (ev : down_event) : down_state :=
  let '(pkt, armed, out1) := beacon_step ev (beacon_pkt st) in
  let '(a, m, out2) := datagram_step ev (ack st) (meas st) in
  {| ack := a; beacon_pkt := pkt; beacon_next_pps := armed;
     exit_sig := exit_sig st; meas := m;
     trace := trace st ++ out1 ++ out2 |}.

(** The turns that the listening loop makes: it goes on as long as the
    time elapsed since the PULL_DATA is below [keepalive_time]. *)
Fixpoint down_heard (keepalive elapsed : Z) (evs : list down_event)
  : list down_event :=
  match evs with
  | [] => []
  | ev :: evs' =>
      if elapsed <? keepalive
      then ev :: down_heard keepalive (ev_elapsed ev) evs'
      else []
  end.

(** The PULL_DATA request: the 12 bytes of [buff_req]. *)
Definition pull_data (cfg : down_config) (th tl : Z) : list Z :=
  [PROTOCOL_VERSION; th; tl; PKT_PULL_DATA] ++ net_mac cfg.

(** One turn of the outer loop after the auto-quit test: PULL_DATA, then
    the listening loop. *)
Definition down_session (cfg : down_config) (s : session) (st : down_state)
  : down_state :=
  let th := u8 (ses_token s).1 in
  let tl := u8 (ses_token s).2 in
  let m := meas st in
  let st1 :=
    {| ack := {| token_h := th; token_l := tl; req_ack := false;
                 autoquit_cnt := u32 (autoquit_cnt (ack st) + 1) |};
       beacon_pkt := beacon_pkt st;
       beacon_next_pps := beacon_next_pps st;
       exit_sig := exit_sig st;
       meas := {| meas_dw_pull_sent := u32 (meas_dw_pull_sent m + 1);
                  meas_dw_ack_rcv := meas_dw_ack_rcv m;
                  meas_dw_dgram_rcv := meas_dw_dgram_rcv m;
                  meas_dw_network_byte := meas_dw_network_byte m;
                  meas_dw_payload_byte := meas_dw_payload_byte m;
                  meas_nb_tx_ok := meas_nb_tx_ok m;
                  meas_nb_tx_fail := meas_nb_tx_fail m |};
       trace := trace st ++ [Udp_send (pull_data cfg th tl)] |} in
  fold_left down_iter (down_heard (keepalive_time cfg) 0 (ses_events s)) st1.

(** The auto-quit test at the head of the outer loop. *)
Definition autoquit_due (cfg : down_config) (st : down_state) : bool :=
  (autoquit_threshold cfg >? 0)
  && (autoquit_cnt (ack st) >=? autoquit_threshold cfg).

Definition request_exit (st : down_state) : down_state :=
  {| ack := ack st; beacon_pkt := beacon_pkt st;
     beacon_next_pps := beacon_next_pps st;
     exit_sig := true; meas := meas st;
     trace := trace st ++
       [Msg INFO "[down] the last PULL_DATA were not ACKed, exiting application"] |}.

(** The outer loop of [thread_down], over the turns that the outside
    world lets it make. *)
Fixpoint thread_down_loop (cfg : down_config) (ss : list session)
    (st : down_state) : down_state :=
  match ss with
  | [] => st
  | s :: ss' =>
      if ses_signal s || exit_sig st then st
      else if autoquit_due cfg st then request_exit st
      else thread_down_loop cfg ss' (down_session cfg s st)
  end.

(** The state in which the thread enters its loop. *)
Definition down_start (reference_coord : coord_s) (stack : lgw_pkt_tx_s)
    (m : meas_dw) : down_state :=
  {| ack := {| token_h := 0; token_l := 0; req_ack := false;
               autoquit_cnt := 0 |};
     beacon_pkt := beacon_init reference_coord stack;
     beacon_next_pps := false;
     exit_sig := false;
     meas := m;
     trace := [] |}.

End ThreadDown.

(** ** The upstream thread *)

(** The upstream measurements, guarded by [mx_meas_up]. *)
Record meas_up := {
  meas_nb_rx_rcv : Z;
  meas_nb_rx_ok : Z;
  meas_nb_rx_bad : Z;
  meas_nb_rx_nocrc : Z;
  meas_up_pkt_fwd : Z;
  meas_up_network_byte : Z;
  meas_up_payload_byte : Z;
  meas_up_dgram_sent : Z;
  meas_up_ack_rcv : Z
}.

(** The packet filtering configuration. *)
Record up_config := {
  fwd_valid_pkt : bool;
  fwd_error_pkt : bool;
  fwd_nocrc_pkt : bool
}.

(** The counters named in the filter, to state which one a packet moves. *)
Inductive rx_counter := Rx_rcv | Rx_ok | Rx_bad | Rx_nocrc | Up_pkt_fwd.

Definition bump (c : rx_counter) (n : Z) (m : meas_up) : meas_up :=
  {| meas_nb_rx_rcv :=
       match c with Rx_rcv => u32 (meas_nb_rx_rcv m + n) | _ => meas_nb_rx_rcv m end;
     meas_nb_rx_ok :=
       match c with Rx_ok => u32 (meas_nb_rx_ok m + n) | _ => meas_nb_rx_ok m end;
     meas_nb_rx_bad :=
       match c with Rx_bad => u32 (meas_nb_rx_bad m + n) | _ => meas_nb_rx_bad m end;
     meas_nb_rx_nocrc :=
       match c with Rx_nocrc => u32 (meas_nb_rx_nocrc m + n) | _ => meas_nb_rx_nocrc m end;
     meas_up_pkt_fwd :=
       match c with Up_pkt_fwd => u32 (meas_up_pkt_fwd m + n) | _ => meas_up_pkt_fwd m end;
     meas_up_network_byte := meas_up_network_byte m;
     meas_up_payload_byte := meas_up_payload_byte m;
     meas_up_dgram_sent := meas_up_dgram_sent m;
     meas_up_ack_rcv := meas_up_ack_rcv m |}.

Definition add_payload_byte (n : Z) (m : meas_up) : meas_up :=
  {| meas_nb_rx_rcv := meas_nb_rx_rcv m; meas_nb_rx_ok := meas_nb_rx_ok m;
     meas_nb_rx_bad := meas_nb_rx_bad m; meas_nb_rx_nocrc := meas_nb_rx_nocrc m;
     meas_up_pkt_fwd := meas_up_pkt_fwd m;
     meas_up_network_byte := meas_up_network_byte m;
     meas_up_payload_byte := u32 (meas_up_payload_byte m + n);
     meas_up_dgram_sent := meas_up_dgram_sent m;
     meas_up_ack_rcv := meas_up_ack_rcv m |}.

Definition count_dgram (buff_index : Z) (m : meas_up) : meas_up :=
  {| meas_nb_rx_rcv := meas_nb_rx_rcv m; meas_nb_rx_ok := meas_nb_rx_ok m;
     meas_nb_rx_bad := meas_nb_rx_bad m; meas_nb_rx_nocrc := meas_nb_rx_nocrc m;
     meas_up_pkt_fwd := meas_up_pkt_fwd m;
     meas_up_network_byte := u32 (meas_up_network_byte m + buff_index);
     meas_up_payload_byte := meas_up_payload_byte m;
     meas_up_dgram_sent := u32 (meas_up_dgram_sent m + 1);
     meas_up_ack_rcv := meas_up_ack_rcv m |}.

Definition count_ack (m : meas_up) : meas_up :=
  {| meas_nb_rx_rcv := meas_nb_rx_rcv m; meas_nb_rx_ok := meas_nb_rx_ok m;
     meas_nb_rx_bad := meas_nb_rx_bad m; meas_nb_rx_nocrc := meas_nb_rx_nocrc m;
     meas_up_pkt_fwd := meas_up_pkt_fwd m;
     meas_up_network_byte := meas_up_network_byte m;
     meas_up_payload_byte := meas_up_payload_byte m;
     meas_up_dgram_sent := meas_up_dgram_sent m;
     meas_up_ack_rcv := u32 (meas_up_ack_rcv m + 1) |}.

(** A value of the JSON text that the thread writes: an unsigned or signed
    integer, a quoted text, a double printed with a number of decimals, a
    UTC time printed in the ISO 8601 format. *)
Inductive jval :=
| J_uint (z : Z)
| J_int (z : Z)
| J_text (s : string)
| J_fixed (decimals : nat) (d : double)
| J_utc (t : timespec).

(** One object of the [rxpk] array: its members in the order written. *)
Definition rx_object := list (string * jval).

(** A step of the upstream thread either goes on or ends the process with
    [exit(EXIT_FAILURE)]. *)
Inductive run (A : Type) :=
| Done (a : A)
| Exit (printed : list out_event).
Arguments Done {A} a.
Arguments Exit {A} printed.

#[global] Instance run_bind : MBind run := fun A B k r =>
  match r with
  | Exit l => Exit l
  | Done a => k a
  end.

#[global] Instance run_ret : MRet run := fun A a => Done a.

(** What the packet loop reads besides the packets. *)
Record up_context := {
  up_gps_active : bool;
  ref_ok : bool;
  local_ref : tref;
  fetch_timestamp : string
}.

Section ThreadUp.
Context `{HalConsts} `{Extern}.

(** The basic packet filtering: the measurements, whether the packet goes
    on to be serialised, and what is printed. *)
Definition up_filter (cfg : up_config) (p : lgw_pkt_rx_s) (m : meas_up)
  : meas_up * bool * list out_event :=
  let m := bump Rx_rcv 1 m in
  let forward m := add_payload_byte (rx_size p) (bump Up_pkt_fwd 1 m) in
  if rx_status p =? STAT_CRC_OK then
    let m := bump Rx_ok 1 m in
    if negb (fwd_valid_pkt cfg) then (m, false, []) else (forward m, true, [])
  else if rx_status p =? STAT_CRC_BAD then
    let m := bump Rx_bad 1 m in
    if negb (fwd_error_pkt cfg) then (m, false, []) else (forward m, true, [])
  else if rx_status p =? STAT_NO_CRC then
    let m := bump Rx_nocrc 1 m in
    if negb (fwd_nocrc_pkt cfg) then (m, false, []) else (forward m, true, [])
  else
    (m, false, [Msg WARNING "[up] received packet with unknown status"]).

Definition exit_failure {A} (text : string) : run A := Exit [Msg ERROR text].

Definition text (s : string) : run string := mret s.
Definition member (name : string) (v : jval) : string * jval := (name, v).

(** The members that depend on the modulation. *)
Definition serialize_modu (p : lgw_pkt_rx_s) : run rx_object :=
  if rx_modulation p =? MOD_LORA then
    sf ←
      (if rx_datarate p =? DR_LORA_SF7 then text "SF7"
       else if rx_datarate p =? DR_LORA_SF8 then text "SF8"
       else if rx_datarate p =? DR_LORA_SF9 then text "SF9"
       else if rx_datarate p =? DR_LORA_SF10 then text "SF10"
       else if rx_datarate p =? DR_LORA_SF11 then text "SF11"
       else if rx_datarate p =? DR_LORA_SF12 then text "SF12"
       else exit_failure "[up] lora packet with unknown datarate");
    bw ←
      (if rx_bandwidth p =? BW_125KHZ then text "BW125"
       else if rx_bandwidth p =? BW_250KHZ then text "BW250"
       else if rx_bandwidth p =? BW_500KHZ then text "BW500"
       else exit_failure "[up] lora packet with unknown bandwidth");
    codr ←
      (if rx_coderate p =? CR_LORA_4_5 then text "4/5"
       else if rx_coderate p =? CR_LORA_4_6 then text "4/6"
       else if rx_coderate p =? CR_LORA_4_7 then text "4/7"
       else if rx_coderate p =? CR_LORA_4_8 then text "4/8"
       else if rx_coderate p =? 0 then text "OFF"
       else exit_failure "[up] lora packet with unknown coderate");
    mret [member "modu" (J_text "LORA"); member "datr" (J_text (String.append sf bw));
          member "codr" (J_text codr); member "lsnr" (J_fixed 1 (rx_snr p))]
  else if rx_modulation p =? MOD_FSK then
    mret [member "modu" (J_text "FSK"); member "datr" (J_uint (rx_datarate p))]
  else exit_failure "[up] received packet with unknown modulation".

(** The serialisation of a packet that passed the filter. *)
Definition serialize_rxpk (ctx : up_context) (p : lgw_pkt_rx_s)
  : run rx_object :=
  let tmst := [member "tmst" (J_uint (rx_count_us p))] in
  let time :=
    if up_gps_active ctx then
      if ref_ok ctx then
        match lgw_cnt2utc (local_ref ctx) (rx_count_us p) with
        | Some pkt_utc_time => [member "time" (J_utc pkt_utc_time)]
        | None => []
        end
      else []
    else [member "time" (J_text (fetch_timestamp ctx))] in
  let chan :=
    [member "chan" (J_uint (rx_if_chain p)); member "rfch" (J_uint (rx_rf_chain p));
     member "freq" (J_fixed 6 (double_of_Z (rx_freq_hz p) / 1e6)%float)] in
  stat ←
    (if rx_status p =? STAT_CRC_OK then mret [member "stat" (J_int 1)]
     else if rx_status p =? STAT_CRC_BAD then mret [member "stat" (J_int (-1))]
     else if rx_status p =? STAT_NO_CRC then mret [member "stat" (J_int 0)]
     else exit_failure "[up] received packet with unknown status");
  modu ← serialize_modu p;
  let rssi :=
    [member "rssi" (J_fixed 0 (rx_rssi p)); member "size" (J_uint (rx_size p))] in
  data ←
    match bin_to_b64 (rx_payload p) (rx_size p) 341 with
    | Some text => mret [member "data" (J_text text)]
    | None => exit_failure "[up] bin_to_b64 failed"
    end;
  mret (tmst ++ time ++ chan ++ stat ++ modu ++ rssi ++ data).

(** The loop over the fetched packets: the measurements and the objects
    written in the datagram so far; everything printed comes first. *)
Fixpoint up_packets (cfg : up_config) (ctx : up_context)
    (rxpkt : list lgw_pkt_rx_s) (m : meas_up) (objs : list rx_object)
  : list out_event * meas_up * run (list rx_object) :=
  match rxpkt with
  | [] => ([], m, Done objs)
  | p :: rest =>
      let '(m1, pass, printed) := up_filter cfg p m in
      if pass then
        match serialize_rxpk ctx p with
        | Exit l => (printed ++ l, m1, Exit l)
        | Done o =>
            let '(printed', m2, r) := up_packets cfg ctx rest m1 (objs ++ [o]) in
            (printed ++ printed', m2, r)
        end
      else
        let '(printed', m2, r) := up_packets cfg ctx rest m1 objs in
        (printed ++ printed', m2, r)
  end.

(** What a [recv] on the upstream socket gives. *)
Inductive recv_result :=
| Recv_timeout              (* -1 with errno EAGAIN *)
| Recv_error                (* -1 with another errno *)
| Recv_data (buff_ack : list Z).

(** A reply that the acknowledge loop takes for the awaited PUSH_ACK. *)
Definition push_ack_ok (th tl : Z) (buff_ack : list Z) : bool :=
  negb ((Z.of_nat (length buff_ack) <? 4)
        || negb (byte_at buff_ack 0 =? PROTOCOL_VERSION)
        || negb (byte_at buff_ack 3 =? PKT_PUSH_ACK))
  && negb (negb (byte_at buff_ack 1 =? th) || negb (byte_at buff_ack 2 =? tl)).

(** The wait for the acknowledge: [n] turns are left, [i] is the loop
    variable, [answers i] is what the i-th [recv] gives. The result holds
    the measurements and the number of [recv] calls made. *)
Fixpoint push_ack_wait (n i : nat) (answers : nat -> recv_result)
    (th tl : Z) (m : meas_up) : meas_up * nat * list out_event :=
  match n with
  | O => (m, O, [])
  | S n' =>
      let again :=
        let '(m', k, l) := push_ack_wait n' (S i) answers th tl m in
        (m', S k, l) in
      match answers i with
      | Recv_timeout => again
      | Recv_error => (m, 1%nat, [])
      | Recv_data buff_ack =>
          if (Z.of_nat (length buff_ack) <? 4)
             || negb (byte_at buff_ack 0 =? PROTOCOL_VERSION)
             || negb (byte_at buff_ack 3 =? PKT_PUSH_ACK)
          then again
          else if negb (byte_at buff_ack 1 =? th) || negb (byte_at buff_ack 2 =? tl)
          then again
          else (count_ack m, 1%nat, [Msg INFO "[up] PUSH_ACK received"])
      end
  end.

(** What is done for one live server once the datagram of [buff_index]
    bytes is ready: send, count, wait for the acknowledge in 2 times. *)
Definition push_to_server (datagram : list Z) (buff_index : Z)
    (answers : nat -> recv_result) (th tl : Z) (m : meas_up)
  : meas_up * nat * list out_event :=
  let '(m', k, l) := push_ack_wait 2 0 answers th tl (count_dgram buff_index m) in
  (m', k, Udp_send datagram :: l).

End ThreadUp.

(** ** The validation thread *)

Module Valid.

(** The globals that [thread_valid] writes and its own variables. *)
Record state := {
  gps_ref_valid : bool;
  xtal_correct_ok : bool;
  xtal_correct : double;
  init_cpt : Z;
  init_acc : double
}.

(** The state at the start of the program. *)
Definition start : state :=
  {| gps_ref_valid := false; xtal_correct_ok := false;
     xtal_correct := 1.0%float; init_cpt := 0; init_acc := 0.0%float |}.

(** One turn of the loop, made at time [now] (in seconds) with the time
    reference as the GPS thread left it. *)
Definition step (now : Z) (time_reference_gps : tref) (st : state) : state :=
  let gps_ref_age := now - systime time_reference_gps in
  if (gps_ref_age >=? 0) && (gps_ref_age <=? GPS_REF_MAX_AGE) then
    let xtal_err_cpy := xtal_err time_reference_gps in
    if init_cpt st <? XERR_INIT_AVG then
      {| gps_ref_valid := true;
         xtal_correct_ok := xtal_correct_ok st;
         xtal_correct := xtal_correct st;
         init_cpt := u32 (init_cpt st + 1);
         init_acc := (init_acc st + xtal_err_cpy)%float |}
    else if init_cpt st =? XERR_INIT_AVG then
      {| gps_ref_valid := true;
         xtal_correct_ok := true;
         xtal_correct := (double_of_Z XERR_INIT_AVG / init_acc st)%float;
         init_cpt := u32 (init_cpt st + 1);
         init_acc := init_acc st |}
    else
      let x := (1 / xtal_err_cpy)%float in
      {| gps_ref_valid := true;
         xtal_correct_ok := xtal_correct_ok st;
         xtal_correct :=
           (xtal_correct st - xtal_correct st / double_of_Z XERR_FILT_COEF
            + x / double_of_Z XERR_FILT_COEF)%float;
         init_cpt := init_cpt st;
         init_acc := init_acc st |}
  else
    {| gps_ref_valid := false; xtal_correct_ok := false;
       xtal_correct := 1.0%float; init_cpt := 0; init_acc := 0.0%float |}.

(** The states that the thread goes through. *)
Inductive reachable : state -> Prop :=
| reach_start : reachable start
| reach_step now time_reference_gps st :
    reachable st -> reachable (step now time_reference_gps st).

(** The loop run over the turns that the outside world lets it make. *)
Definition run (turns : list (Z * tref)) (st : state) : state :=
  fold_left (fun st t => step t.1 t.2 st) turns st.

(** The turn in its two critical sections, as the other threads can see
    it. [mid] is the state when [mx_timeref] is released: [gps_ref_valid]
    is written and nothing else. [finish] is the rest of the turn, made
    from the local copies [ref_valid_local], which holds what was just
    written in [gps_ref_valid], and [xtal_err_cpy]; the variables
    [init_cpt] and [init_acc] are local to the thread. *)
Definition mid (now : Z) (time_reference_gps : tref) (st : state) : state :=
  let gps_ref_age := now - systime time_reference_gps in
  {| gps_ref_valid := (gps_ref_age >=? 0) && (gps_ref_age <=? GPS_REF_MAX_AGE);
     xtal_correct_ok := xtal_correct_ok st;
     xtal_correct := xtal_correct st;
     init_cpt := init_cpt st;
     init_acc := init_acc st |}.

Definition finish (xtal_err_cpy : double) (st : state) : state :=
  let ref_valid_local := gps_ref_valid st in
  if negb ref_valid_local then
    {| gps_ref_valid := gps_ref_valid st; xtal_correct_ok := false;
       xtal_correct := 1.0%float; init_cpt := 0; init_acc := 0.0%float |}
  else if init_cpt st <? XERR_INIT_AVG then
    {| gps_ref_valid := gps_ref_valid st;
       xtal_correct_ok := xtal_correct_ok st;
       xtal_correct := xtal_correct st;
       init_cpt := u32 (init_cpt st + 1);
       init_acc := (init_acc st + xtal_err_cpy)%float |}
  else if init_cpt st =? XERR_INIT_AVG then
    {| gps_ref_valid := gps_ref_valid st;
       xtal_correct_ok := true;
       xtal_correct := (double_of_Z XERR_INIT_AVG / init_acc st)%float;
       init_cpt := u32 (init_cpt st + 1);
       init_acc := init_acc st |}
  else
    let x := (1 / xtal_err_cpy)%float in
    {| gps_ref_valid := gps_ref_valid st;
       xtal_correct_ok := xtal_correct_ok st;
       xtal_correct :=
         (xtal_correct st - xtal_correct st / double_of_Z XERR_FILT_COEF
          + x / double_of_Z XERR_FILT_COEF)%float;
       init_cpt := init_cpt st;
       init_acc := init_acc st |}.

(** The states that another thread can find: at the end of a turn, or
    between the two critical sections of a turn. *)
Inductive observable : state -> Prop :=
| obs_turn st : reachable st -> observable st
| obs_mid now time_reference_gps st :
    reachable st -> observable (mid now time_reference_gps st).

End Valid.

(** ** The GPS thread *)

Module Gps.

(** The beacon parameters that the thread reads. *)
Record config := {
  beacon_period : Z;
  beacon_offset : Z
}.

(** The globals that [thread_gps] writes. *)
Record state := {
  beacon_next_pps : bool;
  time_reference_gps : tref;
  gps_coord_valid : bool;
  meas_gps_coord : coord_s;
  meas_gps_err : coord_s
}.

(** What one turn of the loop gets from outside the thread. *)
Record event := {
  (** what [read] returns *)
  nb_char : Z;
  (** whether [lgw_parse_nmea] returns NMEA_RMC *)
  is_rmc : bool;
  (** the UTC time of [lgw_gps_get], [None] when it fails *)
  utc_time : option timespec;
  (** the counter of [lgw_get_trigcnt], [None] when it fails *)
  trig_tstamp : option Z;
  (** the reference that [lgw_gps_sync] stores, [None] when it fails and
      keeps the previous one *)
  synced : option tref;
  (** the coordinates and their error of the second [lgw_gps_get] *)
  coord : option (coord_s * coord_s)
}.

(** Whether the beacon must be sent at the next PPS; [time_t] is a signed
    integer, so the remainder has the sign of the time. *)
Definition arm (cfg : config) (utc : timespec) (armed : bool) : bool :=
  if beacon_period cfg >? 0 then
    let sec_of_cycle := u32 (Z.rem (tv_sec utc + 1) (beacon_period cfg)) in
    sec_of_cycle =? beacon_offset cfg
  else armed.

(** One turn of the loop. *)
Definition step (cfg : config) (ev : event) (st : state)
  : state * list out_event :=
  if nb_char ev <=? 0 then
    (st, [Msg WARNING "[gps] read() returned value <= 0"])
  else if negb (is_rmc ev) then (st, [])
  else
    match utc_time ev with
    | None => (st, [Msg WARNING "[gps] could not get UTC time from GPS"])
    | Some utc =>
        let armed := arm cfg utc (beacon_next_pps st) in
        match trig_tstamp ev with
        | None =>
            ({| beacon_next_pps := armed;
                time_reference_gps := time_reference_gps st;
                gps_coord_valid := gps_coord_valid st;
                meas_gps_coord := meas_gps_coord st;
                meas_gps_err := meas_gps_err st |},
             [Msg WARNING "[gps] failed to read concentrator timestamp"])
        | Some _ =>
            match synced ev with
            | None =>
                ({| beacon_next_pps := armed;
                    time_reference_gps := time_reference_gps st;
                    gps_coord_valid := gps_coord_valid st;
                    meas_gps_coord := meas_gps_coord st;
                    meas_gps_err := meas_gps_err st |},
                 [Msg WARNING "[gps] GPS out of sync, keeping previous time reference"])
            | Some ref =>
                match coord ev with
                | Some (c, gpserr) =>
                    ({| beacon_next_pps := armed;
                        time_reference_gps := ref;
                        gps_coord_valid := true;
                        meas_gps_coord := c;
                        meas_gps_err := gpserr |}, [])
                | None =>
                    ({| beacon_next_pps := armed;
                        time_reference_gps := ref;
                        gps_coord_valid := false;
                        meas_gps_coord := meas_gps_coord st;
                        meas_gps_err := meas_gps_err st |}, [])
                end
            end
        end
    end.

End Gps.

(** ** The upstream thread: the datagram sent to every live server *)

Section Broadcast.
Context `{HalConsts} `{Extern}.

(** The loop over the servers: [servers] gives, for each configured
    server, [serv_live] and what the [recv] calls on its socket give. *)
Fixpoint push_to_servers (servers : list (bool * (nat -> recv_result)))
    (datagram : list Z) (buff_index : Z) (th tl : Z) (m : meas_up)
  : meas_up * list out_event :=
  match servers with
  | [] => (m, [])
  | (serv_live, answers) :: rest =>
      if serv_live then
        let '(m1, _, l1) := push_to_server datagram buff_index answers th tl m in
        let '(m2, l2) := push_to_servers rest datagram buff_index th tl m1 in
        (m2, l1 ++ l2)
      else push_to_servers rest datagram buff_index th tl m
  end.

(** The same loop with the index [ic] of the server written beside what is
    done in its turn: the datagram is sent on [sock_up[ic]] and the
    acknowledge is awaited on the same socket. *)
Fixpoint push_to_servers_on (ic : nat)
    (servers : list (bool * (nat -> recv_result)))
    (datagram : list Z) (buff_index : Z) (th tl : Z) (m : meas_up)
  : meas_up * list (nat * out_event) :=
  match servers with
  | [] => (m, [])
  | (serv_live, answers) :: rest =>
      if serv_live then
        let '(m1, _, l1) := push_to_server datagram buff_index answers th tl m in
        let '(m2, l2) :=
          push_to_servers_on (S ic) rest datagram buff_index th tl m1 in
        (m2, map (pair ic) l1 ++ l2)
      else push_to_servers_on (S ic) rest datagram buff_index th tl m
  end.

End Broadcast.

(** ** The servers of the gateway configuration *)

Definition MAX_SERVERS : nat := 4.

(** The [serv_enabled] member of a server: missing, of another type than
    boolean, or a boolean. *)
Inductive enabled_field :=
| Enabled_missing
| Enabled_not_boolean
| Enabled_boolean (b : bool).

(** What the parser reads in one element of the [servers] array: the
    string of [server_address], [serv_enabled], and the numbers that
    [json_value_get_number] gives for the two ports, [None] for a member
    that is missing. *)
Record server_entry := {
  entry_address : option string;
  entry_enabled : enabled_field;
  entry_port_up : option double;
  entry_port_down : option double
}.

(** A row of the tables [serv_addr], [serv_port_up], [serv_port_down] and
    [serv_live]: the 64 bytes of the address, and the numbers printed in
    the two port strings. *)
Record server_slot := {
  serv_addr : list Z;
  serv_port_up : Z;
  serv_port_down : Z;
  serv_live : bool
}.

Record server_table := {
  serv_count : Z;
  serv_slots : list server_slot
}.

(** The codes of the characters of a string. *)
Fixpoint chars (s : string) : list Z :=
  match s with
  | EmptyString => []
  | String c rest => Z.of_nat (Ascii.nat_of_ascii c) :: chars rest
  end.

(** [strncpy(dst, src, n)] on an array [dst] of at least [n] bytes: the
    characters of [src], cut at [n], then zeros up to [n]. *)
Definition strncpy (dst : list Z) (src : string) (n : nat) : list Z :=
  take n (chars src ++ replicate n 0) ++ drop n dst.

Definition set_addr (a : list Z) (s : server_slot) : server_slot :=
  {| serv_addr := a; serv_port_up := serv_port_up s;
     serv_port_down := serv_port_down s; serv_live := serv_live s |}.

Definition set_port_up (p : Z) (s : server_slot) : server_slot :=
  {| serv_addr := serv_addr s; serv_port_up := p;
     serv_port_down := serv_port_down s; serv_live := serv_live s |}.

Definition set_port_down (p : Z) (s : server_slot) : server_slot :=
  {| serv_addr := serv_addr s; serv_port_up := serv_port_up s;
     serv_port_down := p; serv_live := serv_live s |}.

Definition set_live (b : bool) (s : server_slot) : server_slot :=
  {| serv_addr := serv_addr s; serv_port_up := serv_port_up s;
     serv_port_down := serv_port_down s; serv_live := b |}.

(** The fields of an element that are there are stored in row [ic] before
    the element is judged. *)
Definition store_entry (e : server_entry) (s : server_slot) : server_slot :=
  let s :=
    match entry_address e with
    | Some str => set_addr (strncpy (serv_addr s) str 64) s
    | None => s
    end in
  let s :=
    match entry_port_up e with
    | Some n => set_port_up (double_to_u16 n) s
    | None => s
    end in
  match entry_port_down e with
  | Some n => set_port_down (double_to_u16 n) s
  | None => s
  end.

(** The loop over the elements of the array, [ic] being the number of
    servers kept so far. *)
Fixpoint read_servers (entries : list server_entry) (ic : nat)
    (slots : list server_slot) : nat * list server_slot * list out_event :=
  match entries with
  | [] => (ic, slots, [])
  | e :: rest =>
      if bool_decide (ic < MAX_SERVERS)%nat then
        let slots := alter (store_entry e) ic slots in
        match entry_address e with
        | None => read_servers rest ic slots
        | Some _ =>
            match entry_port_up e, entry_port_down e with
            | Some _, Some _ =>
                match entry_enabled e with
                | Enabled_boolean false =>
                    let '(n, t, l) := read_servers rest ic slots in
                    (n, t, Msg INFO "Skipping disabled server" :: l)
                | _ =>
                    let '(n, t, l) :=
                      read_servers rest (S ic) (alter (set_live false) ic slots) in
                    (n, t, Msg INFO "Server configured" :: l)
                end
            | _, _ =>
                let '(n, t, l) := read_servers rest ic slots in
                (n, t, Msg INFO "Skipping server with at least one invalid port number" :: l)
            end
        end
      else (ic, slots, [])
  end.

(** The part of [parse_gateway_configuration] that sets the servers:
    [servers] is the array of the configuration, [None] when there is none,
    and [legacy] holds the three members of the old single definition. *)
Definition parse_servers (servers : option (list server_entry))
    (legacy : server_entry) (t : server_table)
  : server_table * list out_event :=
  let '(t1, l1) :=
    match servers with
    | Some entries =>
        let count := u8 (Z.of_nat (length entries)) in
        let '(ic, slots, l) :=
          read_servers (take (Z.to_nat count) entries) 0%nat (serv_slots t) in
        ({| serv_count := Z.of_nat ic; serv_slots := slots |},
         Msg INFO "Found servers in array" :: l)
    | None =>
        match entry_address legacy, entry_port_up legacy, entry_port_down legacy with
        | Some str, Some up, Some down =>
            ({| serv_count := 1;
                serv_slots :=
                  alter (fun s =>
                           set_port_down (double_to_u16 down)
                             (set_port_up (double_to_u16 up)
                                (set_addr (strncpy (serv_addr s) str 64)
                                   (set_live false s))))
                    0%nat (serv_slots t) |},
             [Msg INFO "Server configured"])
        | _, _, _ => (t, [])
        end
    end in
  if serv_count t1 =? 0 then
    ({| serv_count := 1;
        serv_slots :=
          alter (fun s =>
                   set_live false
                     (set_port_down 1782
                        (set_port_up 1780
                           (set_addr (strncpy (serv_addr s) "127.0.0.1" 10) s))))
            0%nat (serv_slots t1) |},
     l1 ++ [Msg INFO "Using defaults for server and ports"])
  else (t1, l1).

(** ** The FSK channel of the concentrator configuration *)

(** The bandwidth constants of the HAL that the downstream and upstream
    threads do not use. *)
Class HalBandwidths := {
  BW_UNDEFINED : Z;
  BW_7K8HZ : Z; BW_15K6HZ : Z; BW_31K2HZ : Z; BW_62K5HZ : Z
}.

(** [struct lgw_conf_rxif_s], the fields set for the FSK channel;
    [rf_chain] is a [uint8_t]. *)
Record lgw_conf_rxif_s := {
  if_enable : bool;
  if_rf_chain : Z;
  if_freq_hz : Z;
  if_bandwidth : Z;
  if_datarate : Z
}.

Section ChannelConf.
Context `{HalConsts} `{HalBandwidths}.

(** The bandwidth in Hz that the selection works on: [chan_FSK.bandwidth]
    when it is set, else twice the frequency deviation plus the datarate,
    in 32-bit arithmetic. *)
Definition fsk_requested_bw (bw fdev datarate : Z) : Z :=
  if (bw =? 0) && negb (fdev =? 0) then u32 (2 * fdev + datarate) else bw.

Definition fsk_select_bw (bw : Z) : Z :=
  if bw =? 0 then BW_UNDEFINED
  else if bw <=? 7800 then BW_7K8HZ
  else if bw <=? 15600 then BW_15K6HZ
  else if bw <=? 31200 then BW_31K2HZ
  else if bw <=? 62500 then BW_62K5HZ
  else if bw <=? 125000 then BW_125KHZ
  else if bw <=? 250000 then BW_250KHZ
  else if bw <=? 500000 then BW_500KHZ
  else BW_UNDEFINED.

(** The configuration given to [lgw_rxif_setconf(9, ...)] for an enabled
    FSK channel, from the five numbers that [json_object_dotget_number]
    returns (0 for a missing member). *)
Definition fsk_ifconf (radio if_ bandwidth freq_deviation datarate : double)
  : lgw_conf_rxif_s :=
  let bw := double_to_u32 bandwidth in
  let fdev := double_to_u32 freq_deviation in
  let dr := double_to_u32 datarate in
  {| if_enable := true;
     if_rf_chain := u8 (double_to_u32 radio);
     if_freq_hz := double_to_i32 if_;
     if_bandwidth := fsk_select_bw (fsk_requested_bw bw fdev dr);
     if_datarate := dr |}.

End ChannelConf.

(** ** The upstream thread: one turn of its loop *)

Definition FETCH_SLEEP_MS : Z := 10.

(** What one turn of the loop of [thread_up] gets from outside. *)
Record up_event := {
  (** [nb_pkt] after the fetches, and the array [rxpkt] *)
  turn_nb_pkt : Z;
  turn_rxpkt : list lgw_pkt_rx_s;
  (** [report_ready] and [status_report] as the main thread left them *)
  turn_report_ready : bool;
  turn_status_report : string;
  (** [gps_active], [gps_ref_valid] and [time_reference_gps] *)
  turn_gps_active : bool;
  turn_gps_ref_valid : bool;
  turn_time_reference : tref;
  (** the text printed from [clock_gettime(CLOCK_REALTIME)] *)
  turn_fetch_timestamp : string;
  (** the two values drawn from [rand] *)
  turn_token : Z * Z;
  (** for each configured server, [serv_live] and what the [recv] calls
      on its socket give *)
  turn_servers : list (bool * (nat -> recv_result))
}.

(** What a turn leaves: the measurements, [report_ready], what was done,
    and whether the process was ended with [exit(EXIT_FAILURE)]. *)
Record up_result := {
  turn_meas : meas_up;
  turn_report_left : bool;
  turn_out : list out_event;
  turn_exit : bool
}.

Section UpTurn.
Context `{HalConsts} `{Extern}.

(** The JSON text of a datagram, as the thread prints it from the objects
    of the [rxpk] array and from the status report when one is sent. *)
Variable json_text : list rx_object -> option string -> list Z.

(** The copy of the GPS time reference taken for the batch; [local_ref] is
    read only when [ref_ok] is set. *)
Definition turn_context (ev : up_event) : up_context :=
  {| up_gps_active := turn_gps_active ev;
     ref_ok :=
       if (turn_nb_pkt ev >? 0) && turn_gps_active ev
       then turn_gps_ref_valid ev else false;
     local_ref := turn_time_reference ev;
     fetch_timestamp := turn_fetch_timestamp ev |}.

(** The 12-byte header of a PUSH_DATA and the JSON text. *)
Definition push_data (net_mac : list Z) (th tl : Z) (text : list Z) : list Z :=
  [PROTOCOL_VERSION; th; tl; PKT_PUSH_DATA] ++ net_mac ++ text.

Definition up_turn (net_mac : list Z) (cfg : up_config) (ev : up_event)
    (m : meas_up) : up_result :=
  let send_report := turn_report_ready ev in
  if turn_nb_pkt ev =? LGW_HAL_ERROR then
    {| turn_meas := m; turn_report_left := send_report;
       turn_out := [Msg ERROR "[up] failed packet fetch, exiting"];
       turn_exit := true |}
  else if (turn_nb_pkt ev =? 0) && negb send_report then
    {| turn_meas := m; turn_report_left := send_report;
       turn_out := [Wait_ms FETCH_SLEEP_MS]; turn_exit := false |}
  else
    let th := u8 (turn_token ev).1 in
    let tl := u8 (turn_token ev).2 in
    let batch := take (Z.to_nat (turn_nb_pkt ev)) (turn_rxpkt ev) in
    let '(printed, m1, r) := up_packets cfg (turn_context ev) batch m [] in
    match r with
    | Exit _ =>
        {| turn_meas := m1; turn_report_left := send_report;
           turn_out := printed; turn_exit := true |}
    | Done objs =>
        if (Nat.eqb (length objs) 0) && negb send_report then
          {| turn_meas := m1; turn_report_left := send_report;
             turn_out := printed; turn_exit := false |}
        else if send_report && String.eqb (turn_status_report ev) EmptyString then
          {| turn_meas := m1; turn_report_left := false;
             turn_out := printed ++ [Msg ERROR "[up] snprintf failed"];
             turn_exit := true |}
        else
          let datagram :=
            push_data net_mac th tl
              (json_text objs
                 (if send_report then Some (turn_status_report ev) else None)) in
          let '(m2, l) :=
            push_to_servers (turn_servers ev) datagram
              (Z.of_nat (length datagram)) th tl m1 in
          {| turn_meas := m2;
             turn_report_left := if send_report then false else send_report;
             turn_out := printed ++ l; turn_exit := false |}
    end.

End UpTurn.

(** * Vocabulary of the properties

    The notions in which the properties below are stated. *)

Section Vocabulary.
Context `{HalConsts} `{Parson} `{Extern}.

(** The packet that the beacon part of a turn gives to [lgw_send]. *)
Definition beacon_sent (ev : down_event) (beacon_pkt : lgw_pkt_tx_s)
  : option lgw_pkt_tx_s :=
  match (beacon_step ev beacon_pkt).2 with
  | _ :: Lgw_send pkt :: _ => Some pkt
  | _ => None
  end.

(** The status of a packet as the filter reads it. *)
Inductive rx_class := Crc_ok | Crc_bad | No_crc | Unknown_status.

#[global] Instance rx_class_eq_dec : EqDecision rx_class.
Proof. solve_decision. Defined.

Definition classify (p : lgw_pkt_rx_s) : rx_class :=
  if rx_status p =? STAT_CRC_OK then Crc_ok
  else if rx_status p =? STAT_CRC_BAD then Crc_bad
  else if rx_status p =? STAT_NO_CRC then No_crc
  else Unknown_status.

(** The forwarding flag that goes with a status; none for another status. *)
Definition forwarding_flag (cfg : up_config) (c : rx_class) : bool :=
  match c with
  | Crc_ok => fwd_valid_pkt cfg
  | Crc_bad => fwd_error_pkt cfg
  | No_crc => fwd_nocrc_pkt cfg
  | Unknown_status => false
  end.

(** A reply that the acknowledge loop passes over: a timeout, or a datagram
    that is not the awaited PUSH_ACK. *)
Definition passed_over (th tl : Z) (r : recv_result) : bool :=
  match r with
  | Recv_timeout => true
  | Recv_error => false
  | Recv_data buff_ack => negb (push_ack_ok th tl buff_ack)
  end.

(** A reply that is the awaited PUSH_ACK. *)
Definition acknowledges (th tl : Z) (r : recv_result) : bool :=
  match r with
  | Recv_data buff_ack => push_ack_ok th tl buff_ack
  | _ => false
  end.

(** A datagram that acknowledges the PULL_DATA of token [(th, tl)]. *)
Definition matching_pull_ack (th tl : Z) (ev : down_event) : bool :=
  match ev_recv ev with
  | None => false
  | Some buff_down =>
      (4 <=? Z.of_nat (length buff_down))
      && (byte_at buff_down 0 =? PROTOCOL_VERSION)
      && (byte_at buff_down 3 =? PKT_PULL_ACK)
      && (byte_at buff_down 1 =? th)
      && (byte_at buff_down 2 =? tl)
  end.

(** A turn of the outer loop in which a matching PULL_ACK is received. *)
Definition session_acked (cfg : down_config) (s : session) : bool :=
  existsb (matching_pull_ack (u8 (ses_token s).1) (u8 (ses_token s).2))
    (down_heard (keepalive_time cfg) 0 (ses_events s)).

(** The turns of the outer loop made one after the other, without the
    tests at its head. *)
Definition sessions_run (cfg : down_config) (ss : list session)
    (st : down_state) : down_state :=
  fold_left (fun st s => down_session cfg s st) ss st.

(** The number of PULL_DATA sent since the last one that was acknowledged,
    starting from [c]. *)
Definition quiet_after (cfg : down_config) (c : Z) (ss : list session) : Z :=
  fold_left (fun c s => if session_acked cfg s then 0 else c + 1) ss c.

(** What is printed and stored for the payload. *)
Definition mismatch_warning : log_line :=
  (WARNING, "[down] mismatch between .size and .data size once converter to binary"%string).

Definition decoded_payload (str : string) : list Z :=
  (b64_to_bin str 256).2
  ++ drop (length (b64_to_bin str 256).2) (tx_payload txpkt_zero).

(** The body of the datagram is a JSON text with the [txpk] object [o]. *)
Definition pull_resp_body (buff_down : list Z) (o : JSON_Object) : Prop :=
  exists root_val,
    json_parse_string_with_comments (c_string (drop 4 buff_down)) = Some root_val
    /\ json_object_get_object (json_value_get_object root_val) "txpk" = Some o.


End Vocabulary.

(** What the turns of the loop keep true: the counter of the initial
    averaging stays within 0..129, the correction is marked valid once the
    counter has gone past the averaging, and a correction that is not
    marked valid is 1.0. *)
Definition valid_inv (st : Valid.state) : Prop :=
  0 <= Valid.init_cpt st <= XERR_INIT_AVG + 1
  /\ (Valid.init_cpt st = XERR_INIT_AVG + 1 -> Valid.xtal_correct_ok st = true)
  /\ (Valid.xtal_correct_ok st = false -> Valid.xtal_correct st = 1.0%float).

(** ** More vocabulary *)

Section MoreVocabulary.
Context `{HalConsts} `{Parson} `{Extern}.

(** The packets given to [lgw_send] among what a thread does. *)
Definition radio_sends (out : list out_event) : list lgw_pkt_tx_s :=
  omap (fun e => match e with Lgw_send pkt => Some pkt | _ => None end) out.

(** The two conditions of the beacon part of a turn. *)
Definition beacon_due (g : down_globals) : bool :=
  armed_next_pps g && gps_active g.

Definition beacon_ready (g : down_globals) : bool :=
  beacon_due g && gps_ref_valid g && xtal_correct_ok g.

(** The radio parameters of the beacon. *)
Definition beacon_radio (pkt : lgw_pkt_tx_s) : Prop :=
  tx_mode pkt = ON_GPS /\ tx_rf_chain pkt = 0 /\ tx_rf_power pkt = 14
  /\ tx_modulation pkt = MOD_LORA /\ tx_bandwidth pkt = BW_125KHZ
  /\ tx_datarate pkt = DR_LORA_SF9 /\ tx_coderate pkt = CR_LORA_4_5
  /\ tx_invert_pol pkt = true /\ tx_preamble pkt = 6
  /\ tx_no_crc pkt = true /\ tx_no_header pkt = true /\ tx_size pkt = 17.

(** The payload [p] differs from [p0] at most in byte 7 and bytes 9..12. *)
Definition beacon_fixed_bytes (p0 p : list Z) : Prop :=
  length p = length p0
  /\ forall i : nat,
       i <> 7%nat -> ~ (9 <= i <= 12)%nat -> byte_at p i = byte_at p0 i.

(** What the loop of [thread_down] keeps true of its beacon variable and
    of the packets it gave to the radio, [p0] being the payload that the
    preparation of the beacon left. *)
Definition beacon_packet (p0 : list Z) (pkt : lgw_pkt_tx_s) : Prop :=
  beacon_radio pkt
  /\ beacon_fixed_bytes p0 (tx_payload pkt)
  /\ crc8_ccit (Some (tx_payload pkt)) 8 = 0.

Definition radio_inv (p0 : list Z) (st : down_state) : Prop :=
  beacon_radio (beacon_pkt st)
  /\ beacon_fixed_bytes p0 (tx_payload (beacon_pkt st))
  /\ forall pkt, In (Lgw_send pkt) (trace st) ->
       beacon_packet p0 pkt
       \/ (tx_no_header pkt = false
           /\ (tx_mode pkt = IMMEDIATE \/ tx_mode pkt = TIMESTAMPED)).

(** Whether the body of a PULL_RESP is a JSON text with a well-formed
    [txpk] object. *)
Definition pull_resp_accepted (g : down_globals) (buff_down : list Z) : bool :=
  match json_parse_string_with_comments (c_string (drop 4 buff_down)) with
  | Some root_val =>
      match json_object_get_object (json_value_get_object root_val) "txpk" with
      | Some o => txpk_wellformed g o
      | None => false
      end
  | None => false
  end.

(** The packets of a batch that the filter lets through, those of a
    status, and the payload bytes of a list of packets. *)
Definition forwarded (cfg : up_config) (rxpkt : list lgw_pkt_rx_s)
  : list lgw_pkt_rx_s :=
  List.filter (fun p => forwarding_flag cfg (classify p)) rxpkt.

Definition with_status (c : rx_class) (rxpkt : list lgw_pkt_rx_s)
  : list lgw_pkt_rx_s :=
  List.filter (fun p => bool_decide (classify p = c)) rxpkt.

Definition payload_bytes (rxpkt : list lgw_pkt_rx_s) : Z :=
  fold_right (fun p acc => rx_size p + acc) 0 rxpkt.

End MoreVocabulary.

(** A turn of the validation thread made while the time reference is at
    most GPS_REF_MAX_AGE seconds old. *)
Definition fresh_turn (t : Z * tref) : Prop :=
  0 <= t.1 - systime t.2 <= GPS_REF_MAX_AGE.

(** The sum of the XTAL errors read in a list of turns, as the thread
    accumulates it. *)
Definition xtal_err_sum (acc : double) (turns : list (Z * tref)) : double :=
  fold_left (fun acc t => (acc + xtal_err t.2)%float) turns acc.

(** What the turns of the validation loop keep true beyond [valid_inv]. *)
Definition warm_inv (st : Valid.state) : Prop :=
  0 <= Valid.init_cpt st <= XERR_INIT_AVG + 1
  /\ (Valid.xtal_correct_ok st = true <-> Valid.init_cpt st = XERR_INIT_AVG + 1)
  /\ (Valid.xtal_correct_ok st = true -> Valid.gps_ref_valid st = true)
  /\ (Valid.gps_ref_valid st = false -> Valid.init_cpt st = 0).

(** ** The [rxpk] object of a received packet *)

Section RxpkVocabulary.
Context `{HalConsts} `{Extern}.

(** The members that depend on the modulation can be written. *)
Definition modu_known (p : lgw_pkt_rx_s) : bool :=
  if rx_modulation p =? MOD_LORA then
    existsb (Z.eqb (rx_datarate p))
      [DR_LORA_SF7; DR_LORA_SF8; DR_LORA_SF9; DR_LORA_SF10; DR_LORA_SF11;
       DR_LORA_SF12]
    && existsb (Z.eqb (rx_bandwidth p)) [BW_125KHZ; BW_250KHZ; BW_500KHZ]
    && existsb (Z.eqb (rx_coderate p))
         [CR_LORA_4_5; CR_LORA_4_6; CR_LORA_4_7; CR_LORA_4_8; 0]
  else rx_modulation p =? MOD_FSK.

(** Everything that the serialisation asks of a packet. *)
Definition rx_serialisable (p : lgw_pkt_rx_s) : bool :=
  negb (bool_decide (classify p = Unknown_status))
  && modu_known p
  && bool_decide (is_Some (bin_to_b64 (rx_payload p) (rx_size p) 341)).

(** Whether the object gets a [time] member. *)
Definition time_written (ctx : up_context) (p : lgw_pkt_rx_s) : bool :=
  if up_gps_active ctx then
    ref_ok ctx
    && bool_decide (is_Some (lgw_cnt2utc (local_ref ctx) (rx_count_us p)))
  else true.

(** The names of the members, in the order written. *)
Definition rxpk_keys (ctx : up_context) (p : lgw_pkt_rx_s) : list string :=
  ["tmst"]%string
  ++ (if time_written ctx p then ["time"]%string else [])
  ++ ["chan"; "rfch"; "freq"; "stat"]%string
  ++ (if rx_modulation p =? MOD_LORA
      then ["modu"; "datr"; "codr"; "lsnr"]%string
      else ["modu"; "datr"]%string)
  ++ ["rssi"; "size"; "data"]%string.

End RxpkVocabulary.

(** The datagrams sent among what a thread does. *)
Definition udp_sends (out : list out_event) : list (list Z) :=
  omap (fun e => match e with Udp_send d => Some d | _ => None end) out.

(** The datagrams sent, each with the index of the socket it went to. *)
Definition udp_sends_on (out : list (nat * out_event)) : list (nat * list Z) :=
  omap (fun e => match e.2 with Udp_send d => Some (e.1, d) | _ => None end)
    out.

(** The indices of the servers marked live, counted from [ic]. *)
Fixpoint live_sockets (ic : nat) (servers : list (bool * (nat -> recv_result)))
  : list nat :=
  match servers with
  | [] => []
  | s :: rest =>
      if s.1 then ic :: live_sockets (S ic) rest
      else live_sockets (S ic) rest
  end.

(** The awaited PUSH_ACK comes at the first receive, or at the second one
    after a first reply that the loop passes over. *)
Definition acked_in_two (th tl : Z) (answers : nat -> recv_result) : bool :=
  acknowledges th tl (answers 0%nat)
  || (passed_over th tl (answers 0%nat) && acknowledges th tl (answers 1%nat)).

(** ** The servers of the configuration *)

(** An element of the [servers] array that defines a server: an address,
    the two ports, and not disabled by a boolean [serv_enabled]. *)
Definition entry_valid (e : server_entry) : bool :=
  bool_decide (is_Some (entry_address e))
  && bool_decide (is_Some (entry_port_up e))
  && bool_decide (is_Some (entry_port_down e))
  && match entry_enabled e with
     | Enabled_boolean false => false
     | _ => true
     end.

(** The row [s] holds the server of the element [e]: the characters of the
    address cut at 64 bytes and padded with zeros, the two ports on 16
    bits, and the server is not live yet. *)
Definition slot_holds (e : server_entry) (s : server_slot) : Prop :=
  (exists str up down,
      entry_address e = Some str /\ entry_port_up e = Some up
      /\ entry_port_down e = Some down
      /\ take 64 (serv_addr s) = take 64 (chars str ++ replicate 64 0)
      /\ serv_port_up s = double_to_u16 up
      /\ serv_port_down s = double_to_u16 down)
  /\ serv_live s = false.

(** The elements of the array that the loop can reach: their number is
    stored in the 8 bits of [serv_count]. *)
Definition entries_read (entries : list server_entry) : list server_entry :=
  take (Z.to_nat (u8 (Z.of_nat (length entries)))) entries.

(** The bandwidths that the FSK channel can be given, with their width
    in Hz. *)
Definition fsk_bandwidths `{HalConsts} `{HalBandwidths} : list (Z * Z) :=
  [(BW_7K8HZ, 7800); (BW_15K6HZ, 15600); (BW_31K2HZ, 31200);
   (BW_62K5HZ, 62500); (BW_125KHZ, 125000); (BW_250KHZ, 250000);
   (BW_500KHZ, 500000)].

(** A PULL_DATA datagram of the gateway [cfg]: the protocol version, a
    token of two bytes, the type and the gateway address. *)
Definition is_pull_data (cfg : down_config) (d : list Z) : Prop :=
  exists th tl,
    0 <= th < 256 /\ 0 <= tl < 256
    /\ d = [PROTOCOL_VERSION; th; tl; PKT_PULL_DATA] ++ net_mac cfg.

(** What the downstream loop keeps true of the datagrams it sent, [n0]
    being the value of [dw_pull_sent] when the thread started. *)
Definition pull_inv (cfg : down_config) (n0 : Z) (st : down_state) : Prop :=
  Forall (is_pull_data cfg) (udp_sends (trace st))
  /\ meas_dw_pull_sent (meas st)
     = u32 (n0 + Z.of_nat (length (udp_sends (trace st)))).

(** Every datagram counted in [dw_dgram_rcv] is counted in [nb_tx_ok] or
    in [nb_tx_fail] (the counters are 32-bit). *)
Definition tx_balance (m : meas_dw) : Prop :=
  u32 (meas_nb_tx_ok m + meas_nb_tx_fail m) = u32 (meas_dw_dgram_rcv m).

(** The LoRa datarate texts that the upstream thread writes, with the two
    numbers that the format of the downstream thread reads in them. *)
Definition datr_texts : list (string * (Z * Z)) :=
  [("SF7BW125", (7, 125)); ("SF7BW250", (7, 250)); ("SF7BW500", (7, 500));
   ("SF8BW125", (8, 125)); ("SF8BW250", (8, 250)); ("SF8BW500", (8, 500));
   ("SF9BW125", (9, 125)); ("SF9BW250", (9, 250)); ("SF9BW500", (9, 500));
   ("SF10BW125", (10, 125)); ("SF10BW250", (10, 250));
   ("SF10BW500", (10, 500));
   ("SF11BW125", (11, 125)); ("SF11BW250", (11, 250));
   ("SF11BW500", (11, 500));
   ("SF12BW125", (12, 125)); ("SF12BW250", (12, 250));
   ("SF12BW500", (12, 500))]%string.

(** [sscanf] reads these texts as the C library does. *)
Definition sscanf_reads_datr `{Extern} : Prop :=
  Forall (fun e => sscanf_datr e.1 = Some e.2) datr_texts.

(** The upstream counters hold 32-bit values. *)
Definition meas_up_fits (m : meas_up) : Prop :=
  0 <= meas_nb_rx_rcv m < 2 ^ 32 /\ 0 <= meas_nb_rx_ok m < 2 ^ 32
  /\ 0 <= meas_nb_rx_bad m < 2 ^ 32 /\ 0 <= meas_nb_rx_nocrc m < 2 ^ 32
  /\ 0 <= meas_up_pkt_fwd m < 2 ^ 32 /\ 0 <= meas_up_payload_byte m < 2 ^ 32
  /\ 0 <= meas_up_network_byte m < 2 ^ 32
  /\ 0 <= meas_up_dgram_sent m < 2 ^ 32 /\ 0 <= meas_up_ack_rcv m < 2 ^ 32.

(** ** Stand-ins for the collaborators

    To run the model on the scenarios of the specification: a HAL header
    with the values of the Semtech HAL, a JSON library over a tree with a
    parser that knows the documents it is given, and tables for the
    base64 codec and the C library. They are passed by hand where a
    scenario is run; no statement below depends on them otherwise. *)

Definition semtech_hal : HalConsts.
Proof.
  refine {| MOD_LORA := 0x10; MOD_FSK := 0x20;
     STAT_CRC_OK := 0x10; STAT_CRC_BAD := 0x11; STAT_NO_CRC := 0x01;
     BW_125KHZ := 3; BW_250KHZ := 2; BW_500KHZ := 1;
     DR_LORA_SF7 := 0x02; DR_LORA_SF8 := 0x04; DR_LORA_SF9 := 0x08;
     DR_LORA_SF10 := 0x10; DR_LORA_SF11 := 0x20; DR_LORA_SF12 := 0x40;
     CR_LORA_4_5 := 1; CR_LORA_4_6 := 2; CR_LORA_4_7 := 3; CR_LORA_4_8 := 4;
     IMMEDIATE := 0; TIMESTAMPED := 1; ON_GPS := 2;
     TX_STATUS_UNKNOWN := 0; TX_FREE := 2;
     LGW_HAL_ERROR := -1 |}.
  - apply NoDup_ListNoDup; repeat (constructor; [simpl; intuition lia|]); constructor.
  - discriminate.
  - apply NoDup_ListNoDup; repeat (constructor; [simpl; intuition lia|]); constructor.
Defined.

Inductive json :=
| Json_null
| Json_string (s : string)
| Json_number (d : double)
| Json_boolean (b : bool)
| Json_object (members : list (string * json))
| Json_array (items : list json).

Fixpoint assoc {A B} (eqb : A -> A -> bool) (k : A) (l : list (A * B))
  : option B :=
  match l with
  | [] => None
  | (k', v) :: rest => if eqb k k' then Some v else assoc eqb k rest
  end.

Definition json_boolean_code (v : option json) : Z :=
  match v with
  | Some (Json_boolean true) => 1
  | Some (Json_boolean false) => 0
  | _ => -1
  end.

Definition list_Z_eqb (a b : list Z) : bool := bool_decide (a = b).

Definition tree_parson (documents : list (list Z * json)) : Parson :=
  {| JSON_Value := json;
     JSON_Object := list (string * json);
     json_parse_string_with_comments := fun text => assoc list_Z_eqb text documents;
     json_value_get_object := fun v =>
       match v with Json_object ms => Some ms | _ => None end;
     json_object_get_value := fun o name => assoc String.eqb name o;
     json_object_get_string := fun o name =>
       match assoc String.eqb name o with
       | Some (Json_string s) => Some s
       | _ => None
       end;
     json_object_get_boolean := fun o name =>
       json_boolean_code (assoc String.eqb name o);
     json_value_get_number := fun v =>
       match v with Json_number d => d | _ => 0%float end;
     json_value_get_boolean := fun v => json_boolean_code (Some v) |}.

Definition table_extern
    (base64 : list (string * list Z))
    (datr : list (string * (Z * Z)))
    (time : list (string * (Z * Z * Z * Z * Z * double))) : Extern.
Proof.
  refine
  {| b64_to_bin := fun s max =>
       match assoc String.eqb s base64 with
       | Some bytes =>
           if bool_decide (length bytes <= max)%nat
           then (Z.of_nat (length bytes), bytes) else (-1, [])
       | None => (-1, [])
       end;
     bin_to_b64 := fun bytes size max =>
       assoc list_Z_eqb (take (Z.to_nat size) bytes) (map (fun e => (e.2, e.1)) base64);
     sscanf_datr := fun s => assoc String.eqb s datr;
     sscanf_time := fun s => assoc String.eqb s time;
     modf := fun x => ((x - double_of_Z (double_trunc x))%float, double_of_Z (double_trunc x));
     mktime := fun t =>
       tm_sec t + 60 * (tm_min t + 60 * (tm_hour t + 24 * (tm_mday t - 1)));
     timezone := 0;
     lgw_utc2cnt := fun ref utc =>
       Some (u32 ((tv_sec utc - utc_tv_sec ref) * 1000000 + tv_nsec utc / 1000));
     lgw_cnt2utc := fun ref cnt =>
       Some {| tv_sec := utc_tv_sec ref + cnt / 1000000;
               tv_nsec := (cnt mod 1000000) * 1000 |} |}.
  intros s max. destruct (assoc String.eqb s base64) as [bytes|]; simpl.
  - case_bool_decide; simpl; lia.
  - lia.
Defined.

(** ** The scenarios of the specification *)

(** The scenario of the specification: the reference coordinates, the time
    reference one second before a beacon of period 128, a zeroed stack. *)
Definition scenario_coord : coord_s :=
  {| lat := 48.858%float; lon := 2.295%float; alt := 35 |}.

Definition scenario_tref : tref :=
  {| systime := 0; utc_tv_sec := 127; utc_tv_nsec := 0; xtal_err := 1%float |}.

Definition scenario_globals : down_globals :=
  {| gps_active := true; gps_ref_valid := true;
     time_reference_gps := scenario_tref;
     xtal_correct_ok := true; xtal_correct := 1%float;
     armed_next_pps := true; beacon_freq_hz := 869525000 |}.

Definition scenario_beacon_event : down_event :=
  {| ev_recv := None; ev_elapsed := 0; ev_globals := scenario_globals;
     ev_beacon_send := 0; ev_tx_status := fun _ => 2; ev_lgw_send := 0 |}.

(** The bodies of three PULL_RESP datagrams: the immediate frame of the
    specification (size 5, data aGVsbG8=, the text hello), the same frame
    with size 4, and an FSK frame to be sent at a UTC time. *)
Definition immediate_body : list Z :=
  [123; 34; 116; 120; 112; 107; 34; 58; 123; 34; 105; 109; 109; 101; 34;
   58; 116; 114; 117; 101; 44; 34; 102; 114; 101; 113; 34; 58; 56; 54; 57;
   46; 53; 50; 53; 44; 34; 114; 102; 99; 104; 34; 58; 48; 44; 34; 112; 111;
   119; 101; 34; 58; 49; 52; 44; 34; 109; 111; 100; 117; 34; 58; 34; 76;
   79; 82; 65; 34; 44; 34; 100; 97; 116; 114; 34; 58; 34; 83; 70; 57; 66;
   87; 49; 50; 53; 34; 44; 34; 99; 111; 100; 114; 34; 58; 34; 52; 47; 53;
   34; 44; 34; 115; 105; 122; 101; 34; 58; 53; 44; 34; 100; 97; 116; 97;
   34; 58; 34; 97; 71; 86; 115; 98; 71; 56; 61; 34; 125; 125].

Definition mismatch_body : list Z :=
  [123; 34; 116; 120; 112; 107; 34; 58; 123; 34; 105; 109; 109; 101; 34;
   58; 116; 114; 117; 101; 44; 34; 102; 114; 101; 113; 34; 58; 56; 54; 57;
   46; 53; 50; 53; 44; 34; 114; 102; 99; 104; 34; 58; 48; 44; 34; 112; 111;
   119; 101; 34; 58; 49; 52; 44; 34; 109; 111; 100; 117; 34; 58; 34; 76;
   79; 82; 65; 34; 44; 34; 100; 97; 116; 114; 34; 58; 34; 83; 70; 57; 66;
   87; 49; 50; 53; 34; 44; 34; 99; 111; 100; 114; 34; 58; 34; 52; 47; 53;
   34; 44; 34; 115; 105; 122; 101; 34; 58; 52; 44; 34; 100; 97; 116; 97;
   34; 58; 34; 97; 71; 86; 115; 98; 71; 56; 61; 34; 125; 125].

Definition utc_body : list Z :=
  [123; 34; 116; 120; 112; 107; 34; 58; 123; 34; 116; 105; 109; 101; 34;
   58; 34; 50; 48; 50; 51; 45; 48; 52; 45; 49; 55; 84; 49; 48; 58; 50; 50;
   58; 49; 53; 46; 53; 90; 34; 44; 34; 102; 114; 101; 113; 34; 58; 56; 54;
   57; 46; 53; 50; 53; 44; 34; 114; 102; 99; 104; 34; 58; 48; 44; 34; 109;
   111; 100; 117; 34; 58; 34; 70; 83; 75; 34; 44; 34; 100; 97; 116; 114;
   34; 58; 53; 48; 48; 48; 48; 44; 34; 102; 100; 101; 118; 34; 58; 50; 53;
   48; 48; 48; 44; 34; 115; 105; 122; 101; 34; 58; 53; 44; 34; 100; 97;
   116; 97; 34; 58; 34; 97; 71; 86; 115; 98; 71; 56; 61; 34; 125; 125].

Definition hello : list Z := [104; 101; 108; 108; 111].

Definition lora_members (size : Z) : list (string * json) :=
  [("imme", Json_boolean true); ("freq", Json_number 869.525%float);
   ("rfch", Json_number 0%float); ("powe", Json_number 14%float);
   ("modu", Json_string "LORA"); ("datr", Json_string "SF9BW125");
   ("codr", Json_string "4/5"); ("size", Json_number (double_of_Z size));
   ("data", Json_string "aGVsbG8=")]%string.

Definition utc_members : list (string * json) :=
  [("time", Json_string "2023-04-17T10:22:15.5Z");
   ("freq", Json_number 869.525%float); ("rfch", Json_number 0%float);
   ("modu", Json_string "FSK"); ("datr", Json_number 50000%float);
   ("fdev", Json_number 25000%float); ("size", Json_number 5%float);
   ("data", Json_string "aGVsbG8=")]%string.

Definition txpk_document (members : list (string * json)) : json :=
  Json_object [("txpk", Json_object members)]%string.

Definition scenario_parson : Parson :=
  tree_parson
    [(immediate_body, txpk_document (lora_members 5));
     (mismatch_body, txpk_document (lora_members 4));
     (utc_body, txpk_document utc_members)].

Definition scenario_extern : Extern :=
  table_extern
    [("aGVsbG8=", hello); ("3q2+7w==", [0xDE; 0xAD; 0xBE; 0xEF])]%string
    [("SF9BW125", (9, 125))]%string
    [("2023-04-17T10:22:15.5Z", (2023, 4, 17, 10, 22, 15.5%float))]%string.

(** A PULL_RESP datagram: the 4-byte header, then the body. *)
Definition pull_resp_datagram (body : list Z) : list Z :=
  [PROTOCOL_VERSION; 0xAB; 0xCD; PKT_PULL_RESP] ++ body.

Definition quiet_globals : down_globals :=
  {| gps_active := false; gps_ref_valid := false;
     time_reference_gps := scenario_tref;
     xtal_correct_ok := false; xtal_correct := 1%float;
     armed_next_pps := false; beacon_freq_hz := 869525000 |}.

Definition datagram_event (body : list Z) : down_event :=
  {| ev_recv := Some (pull_resp_datagram body); ev_elapsed := 0;
     ev_globals := quiet_globals; ev_beacon_send := 0;
     ev_tx_status := fun _ => 2; ev_lgw_send := 0 |}.

Definition meas_dw_zero : meas_dw :=
  {| meas_dw_pull_sent := 0; meas_dw_ack_rcv := 0; meas_dw_dgram_rcv := 0;
     meas_dw_network_byte := 0; meas_dw_payload_byte := 0;
     meas_nb_tx_ok := 0; meas_nb_tx_fail := 0 |}.

Definition meas_up_zero : meas_up :=
  {| meas_nb_rx_rcv := 0; meas_nb_rx_ok := 0; meas_nb_rx_bad := 0;
     meas_nb_rx_nocrc := 0; meas_up_pkt_fwd := 0; meas_up_network_byte := 0;
     meas_up_payload_byte := 0; meas_up_dgram_sent := 0;
     meas_up_ack_rcv := 0 |}.

Definition down_state_zero : down_state :=
  @down_start semtech_hal scenario_coord txpkt_zero meas_dw_zero.

(** The received packet of the specification (CRC OK, LoRa SF7, 4 bytes),
    and the same packet with a modulation that the HAL does not define. *)
Definition rx_packet (modulation : Z) : lgw_pkt_rx_s :=
  {| rx_freq_hz := 868300000; rx_if_chain := 2; rx_status := 0x10;
     rx_count_us := 0xD1578C43; rx_rf_chain := 0;
     rx_modulation := modulation; rx_bandwidth := 3; rx_datarate := 0x02;
     rx_coderate := 1; rx_rssi := (-74)%float; rx_snr := 9.5%float;
     rx_size := 4; rx_payload := [0xDE; 0xAD; 0xBE; 0xEF] |}.

Definition default_filter : up_config :=
  {| fwd_valid_pkt := true; fwd_error_pkt := false; fwd_nocrc_pkt := false |}.

Definition no_gps_context : up_context :=
  {| up_gps_active := false; ref_ok := false; local_ref := scenario_tref;
     fetch_timestamp := "2023-04-17T10:22:15.123456Z" |}.

(** Three turns of the outer loop in which nothing is received. *)
Definition silent_session : session :=
  {| ses_signal := false; ses_token := (0xAB, 0xCD); ses_events := [] |}.

Definition autoquit_config : down_config :=
  {| autoquit_threshold := 2; keepalive_time := 5;
     net_mac := [0xAA; 0x55; 0x5A; 0x00; 0x00; 0x00; 0x00; 0x01] |}.

(** A turn of the outer loop in which a beacon is due, then the immediate
    frame of the specification arrives. *)
Definition beacon_session : session :=
  {| ses_signal := false; ses_token := (0xAB, 0xCD);
     ses_events := [scenario_beacon_event; datagram_event immediate_body] |}.

(** The RMC frame of 3:25:20 UTC on a day at second 127 of the beacon
    cycle, with beacons every 128 s at offset 0, and the state in which the
    GPS thread starts. *)
Definition gps_config : Gps.config :=
  {| Gps.beacon_period := 128; Gps.beacon_offset := 0 |}.

Definition gps_state_zero : Gps.state :=
  {| Gps.beacon_next_pps := false;
     Gps.time_reference_gps :=
       {| systime := 0; utc_tv_sec := 0; utc_tv_nsec := 0;
          xtal_err := 1%float |};
     Gps.gps_coord_valid := false;
     Gps.meas_gps_coord := scenario_coord;
     Gps.meas_gps_err := scenario_coord |}.

Definition rmc_event : Gps.event :=
  {| Gps.nb_char := 70; Gps.is_rmc := true;
     Gps.utc_time := Some {| tv_sec := 127; tv_nsec := 0 |};
     Gps.trig_tstamp := Some 1000000;
     Gps.synced := Some scenario_tref;
     Gps.coord := Some (scenario_coord, scenario_coord) |}.

(** A turn of the outer loop in which the server acknowledges the
    PULL_DATA twice, after a reply with another token. *)
Definition pull_ack_event (th tl : Z) : down_event :=
  {| ev_recv := Some [PROTOCOL_VERSION; th; tl; PKT_PULL_ACK];
     ev_elapsed := 0; ev_globals := quiet_globals; ev_beacon_send := 0;
     ev_tx_status := fun _ => 2; ev_lgw_send := 0 |}.

Definition acked_session : session :=
  {| ses_signal := false; ses_token := (0xAB, 0xCD);
     ses_events := [pull_ack_event 0x12 0x34; pull_ack_event 0xAB 0xCD;
                    pull_ack_event 0xAB 0xCD] |}.

(** A configuration that leaves no time to listen. *)
Definition hasty_config : down_config :=
  {| autoquit_threshold := 2; keepalive_time := 0;
     net_mac := [0xAA; 0x55; 0x5A; 0x00; 0x00; 0x00; 0x00; 0x01] |}.

(** The [txpk] object of the immediate frame with a preamble of 2. *)
Definition short_preamble_members : list (string * json) :=
  ("prea", Json_number 2%float)%string :: lora_members 5.

(** A received packet with a bad CRC. *)
Definition bad_crc_packet : lgw_pkt_rx_s :=
  {| rx_freq_hz := 868300000; rx_if_chain := 2; rx_status := 0x11;
     rx_count_us := 0xD1578C43; rx_rf_chain := 0;
     rx_modulation := 0x10; rx_bandwidth := 3; rx_datarate := 0x02;
     rx_coderate := 1; rx_rssi := (-74)%float; rx_snr := 9.5%float;
     rx_size := 4; rx_payload := [0xDE; 0xAD; 0xBE; 0xEF] |}.

(** The tables of the servers at the start of the program, and a
    [servers] array with a disabled server, a server without port and two
    servers that are kept. *)
Definition server_table_zero : server_table :=
  {| serv_count := 0;
     serv_slots :=
       replicate 4 {| serv_addr := replicate 64 0; serv_port_up := 0;
                      serv_port_down := 0; serv_live := false |} |}.

Definition server_entries : list server_entry :=
  [ {| entry_address := Some "a.example"%string;
       entry_enabled := Enabled_boolean false;
       entry_port_up := Some 1700%float;
       entry_port_down := Some 1700%float |};
    {| entry_address := Some "b.example"%string;
       entry_enabled := Enabled_missing;
       entry_port_up := Some 1700%float;
       entry_port_down := None |};
    {| entry_address := Some "c.example"%string;
       entry_enabled := Enabled_boolean true;
       entry_port_up := Some 1700%float;
       entry_port_down := Some 1701%float |};
    {| entry_address := Some "d.example"%string;
       entry_enabled := Enabled_missing;
       entry_port_up := Some 1680%float;
       entry_port_down := Some 1680%float |} ].

(** A stand-in for the JSON text of a datagram, which only tells the
    number of objects and whether a status report is there; and a turn of
    the upstream loop with two packets fetched and one live server. *)
Definition tally_text (objs : list rx_object) (report : option string)
  : list Z :=
  [Z.of_nat (length objs); match report with Some _ => 1 | None => 0 end].

Definition up_turn_event : up_event :=
  {| turn_nb_pkt := 2;
     turn_rxpkt := [rx_packet 0x10; bad_crc_packet];
     turn_report_ready := false;
     turn_status_report := EmptyString;
     turn_gps_active := false;
     turn_gps_ref_valid := false;
     turn_time_reference := scenario_tref;
     turn_fetch_timestamp := "2023-04-17T10:22:15.123456Z";
     turn_token := (0xAB, 0xCD);
     turn_servers := [(true, fun _ => Recv_timeout)] |}.

(** An [sscanf] that knows every datarate text. *)
Definition datr_extern : Extern :=
  table_extern [("aGVsbG8=", hello)]%string datr_texts [].

(** The validation thread between its two critical sections, in a turn
    that finds the time reference too old after 129 turns with a fresh
    one. *)
Definition stale_mid_state : Valid.state :=
  Valid.mid 1000 scenario_tref
    (Valid.run (replicate 129 (10, scenario_tref)) Valid.start).

(** * Properties *)

(** ** The beacon frame *)

Section BeaconFacts.
Context `{HalConsts}.

Lemma set_payload_payload i b p :
  tx_payload (set_payload i b p) = <[i:=b]> (tx_payload p).
Proof. reflexivity. Qed.

Lemma byte_at_insert_eq (l : list Z) i b :
  (i < length l)%nat -> byte_at (<[i:=b]> l) i = b.
Proof.
  intros Hi. unfold byte_at.
  apply nth_lookup_Some with (d := 0). by apply list_lookup_insert_eq.
Qed.

Lemma byte_at_insert_ne (l : list Z) i j b :
  i <> j -> byte_at (<[i:=b]> l) j = byte_at l j.
Proof.
  intros Hij. unfold byte_at.
  rewrite !nth_lookup. by rewrite list_lookup_insert_ne.
Qed.

(** The payload that [beacon_load] leaves: the four bytes of the time at
    9..12, the CRC-8 at 7, every other byte as it was. *)
Lemma beacon_load_payload r x f p :
  let field_time := u32 (utc_tv_sec r + 1) in
  let q :=
    <[12%nat:=Z.land 0xFF (Z.shiftr field_time 24)]>
      (<[11%nat:=Z.land 0xFF (Z.shiftr field_time 16)]>
         (<[10%nat:=Z.land 0xFF (Z.shiftr field_time 8)]>
            (<[9%nat:=Z.land 0xFF field_time]> (tx_payload p)))) in
  tx_payload (beacon_load r x f p) = <[7%nat:=crc8_ccit (Some q) 7]> q.
Proof. reflexivity. Qed.

(** Wherever the time is stored, byte 7 of the frame given to the radio is
    the CRC-8 of the seven bytes before it. *)
Lemma beacon_crc1_covers_header r x f p :
  (8 <= length (tx_payload p))%nat ->
  let sent := tx_payload (beacon_load r x f p) in
  byte_at sent 7 = crc8_ccit (Some sent) 7.
Proof.
  intros Hlen. cbv zeta. rewrite beacon_load_payload. cbv zeta.
  set (q := <[12%nat:=_]> _).
  assert (length q = length (tx_payload p)) as Hq
    by (subst q; by rewrite !length_insert).
  rewrite byte_at_insert_eq by lia.
  unfold crc8_ccit. f_equal. by rewrite take_insert_ge by lia.
Qed.

(** The time goes to bytes 9..12, and bytes 3..6 keep what the automatic
    variable held when the thread started. *)
Lemma beacon_load_time_bytes r x f p :
  (13 <= length (tx_payload p))%nat ->
  let field_time := u32 (utc_tv_sec r + 1) in
  let sent := tx_payload (beacon_load r x f p) in
  byte_at sent 9 = Z.land 0xFF field_time
  /\ byte_at sent 10 = Z.land 0xFF (Z.shiftr field_time 8)
  /\ byte_at sent 11 = Z.land 0xFF (Z.shiftr field_time 16)
  /\ byte_at sent 12 = Z.land 0xFF (Z.shiftr field_time 24)
  /\ (forall i, (3 <= i <= 6)%nat -> byte_at sent i = byte_at (tx_payload p) i).
Proof.
  intros Hlen. cbv zeta. rewrite beacon_load_payload. cbv zeta.
  repeat split.
  - rewrite byte_at_insert_ne by lia.
    rewrite !(byte_at_insert_ne _ _ 9%nat) by lia.
    rewrite byte_at_insert_eq by lia. reflexivity.
  - rewrite byte_at_insert_ne by lia.
    rewrite !(byte_at_insert_ne _ _ 10%nat) by lia.
    rewrite byte_at_insert_eq by (rewrite !length_insert; lia). reflexivity.
  - rewrite byte_at_insert_ne by lia.
    rewrite !(byte_at_insert_ne _ _ 11%nat) by lia.
    rewrite byte_at_insert_eq by (rewrite !length_insert; lia). reflexivity.
  - rewrite byte_at_insert_ne by lia.
    rewrite byte_at_insert_eq by (rewrite !length_insert; lia). reflexivity.
  - intros i Hi. rewrite !byte_at_insert_ne by lia. reflexivity.
Qed.

(** [beacon_init] does not assign bytes 3..6. *)
Lemma beacon_init_leaves_3_6 c stack i :
  (3 <= i <= 6)%nat ->
  byte_at (tx_payload (beacon_init c stack)) i = byte_at (tx_payload stack) i.
Proof.
  intros Hi. unfold beacon_init. cbv zeta.
  rewrite !set_payload_payload. cbn [tx_payload].
  rewrite !byte_at_insert_ne by lia. reflexivity.
Qed.

End BeaconFacts.

(** C1: the claim puts field_time = utc.tv_sec + 1 in bytes 3..6 of the
    beacon and leaves the latitude bytes 9..11 and the longitude bytes
    12..14 as they are. The code stores the four bytes of the time at
    9..12: on the scenario of the specification (utc.tv_sec = 127), the
    beacon given to the radio has bytes 3..6 still as the stack had them
    (zero, not 128), the time 128 in bytes 9..12, and the latitude bytes
    A7 7C 45 and the first longitude byte CA are gone. *)
Theorem beacon_time_lands_on_coordinates :
  let before := @beacon_init semtech_hal scenario_coord txpkt_zero in
  exists sent,
    @beacon_sent semtech_hal scenario_beacon_event before = Some sent
    /\ take 4 (drop 3 (tx_payload sent)) = [0; 0; 0; 0]
    /\ take 4 (drop 9 (tx_payload sent)) = [128; 0; 0; 0]
    /\ take 6 (drop 9 (tx_payload before)) = [167; 124; 69; 202; 161; 1]
    /\ take 2 (drop 13 (tx_payload sent)) = [161; 1].
Proof.
  cbv zeta. eexists. split; [vm_compute; reflexivity|].
  vm_compute. repeat split.
Qed.

(** C2: the claim makes bytes 15..16 of every beacon given to the radio the
    CRC-16 of bytes 8..14 as they are at transmission. On the scenario of
    the specification the CRC-8 in byte 7 does cover bytes 0..6, but bytes
    15..16 hold 0x438B, computed before the loop over the coordinate bytes,
    while the CRC-16 of bytes 8..14 as transmitted is 0x1B80. *)
Theorem beacon_crc2_is_stale :
  let before := @beacon_init semtech_hal scenario_coord txpkt_zero in
  exists sent,
    @beacon_sent semtech_hal scenario_beacon_event before = Some sent
    /\ byte_at (tx_payload sent) 7 = crc8_ccit (Some (tx_payload sent)) 7
    /\ byte_at (tx_payload sent) 15 + 256 * byte_at (tx_payload sent) 16 = 0x438B
    /\ crc_ccit (Some (drop 8 (tx_payload before))) 7 = 0x438B
    /\ crc_ccit (Some (drop 8 (tx_payload sent))) 7 = 0x1B80.
Proof.
  cbv zeta. eexists. split; [vm_compute; reflexivity|].
  vm_compute. repeat split.
Qed.

(** ** The upstream thread *)

Section UpFacts.
Context `{HalConsts} `{Extern}.

Lemma stat_labels_distinct :
  STAT_CRC_OK <> STAT_CRC_BAD /\ STAT_CRC_OK <> STAT_NO_CRC
  /\ STAT_CRC_BAD <> STAT_NO_CRC.
Proof.
  pose proof hal_stat_labels as Hnd.
  apply NoDup_cons in Hnd as [H1 Hnd]. apply NoDup_cons in Hnd as [H2 _].
  rewrite !not_elem_of_cons in H1. rewrite !not_elem_of_cons in H2.
  intuition.
Qed.


(** The filter lets a packet through exactly when the flag of its status
    is set. *)
Lemma up_filter_pass cfg p m :
  (up_filter cfg p m).1.2 = forwarding_flag cfg (classify p).
Proof.
  unfold up_filter, classify, forwarding_flag.
  destruct (rx_status p =? STAT_CRC_OK);
    [destruct (fwd_valid_pkt cfg); reflexivity|].
  destruct (rx_status p =? STAT_CRC_BAD);
    [destruct (fwd_error_pkt cfg); reflexivity|].
  destruct (rx_status p =? STAT_NO_CRC);
    [destruct (fwd_nocrc_pkt cfg); reflexivity|].
  reflexivity.
Qed.

(** A packet that the filter lets through and whose modulation is neither
    LORA nor FSK ends the serialisation with [exit]. *)
Lemma serialize_unknown_modulation ctx p :
  classify p <> Unknown_status ->
  rx_modulation p <> MOD_LORA -> rx_modulation p <> MOD_FSK ->
  serialize_rxpk ctx p =
    Exit [Msg ERROR "[up] received packet with unknown modulation"].
Proof.
  intros Hc Hl Hf. unfold serialize_rxpk, serialize_modu.
  revert Hc. unfold classify.
  destruct (rx_status p =? STAT_CRC_OK), (rx_status p =? STAT_CRC_BAD),
    (rx_status p =? STAT_NO_CRC); try done; intros _;
    apply Z.eqb_neq in Hl, Hf; rewrite Hl, Hf; reflexivity.
Qed.

(** C4 (amended): a received packet whose modulation is neither LORA nor
    FSK is not a soft error. When the CRC filter lets it through, the
    measurements are updated, the serialisation prints an error and the
    process ends with [exit(EXIT_FAILURE)]: the packets that follow in the
    batch are not looked at. Only when the CRC filter drops the packet first
    does the loop go on with the next packet, and then without a word about
    the modulation. *)
Theorem unknown_modulation_exits (cfg : up_config) (ctx : up_context)
    (p : lgw_pkt_rx_s) (rest : list lgw_pkt_rx_s) (m : meas_up)
    (objs : list rx_object) :
  rx_modulation p <> MOD_LORA ->
  rx_modulation p <> MOD_FSK ->
  let m1 := (up_filter cfg p m).1.1 in
  let printed := (up_filter cfg p m).2 in
  if forwarding_flag cfg (classify p) then
    up_packets cfg ctx (p :: rest) m objs =
      (printed ++ [Msg ERROR "[up] received packet with unknown modulation"],
       m1,
       Exit [Msg ERROR "[up] received packet with unknown modulation"])
  else
    up_packets cfg ctx (p :: rest) m objs =
      (let '(printed', m2, r) := up_packets cfg ctx rest m1 objs in
       (printed ++ printed', m2, r)).
Proof.
  intros Hl Hf. cbv zeta.
  pose proof (up_filter_pass cfg p m) as Hpass.
  cbn [up_packets].
  destruct (up_filter cfg p m) as [[m1 pass] printed]. cbn in *. subst pass.
  destruct (forwarding_flag cfg (classify p)) eqn:Hflag; [|reflexivity].
  rewrite serialize_unknown_modulation; [reflexivity| |done|done].
  intros Hu. rewrite Hu in Hflag. discriminate.
Qed.

Lemma push_ack_wait_step n i answers th tl m :
  push_ack_wait (S n) i answers th tl m =
    if acknowledges th tl (answers i)
    then (count_ack m, 1%nat, [Msg INFO "[up] PUSH_ACK received"])
    else if passed_over th tl (answers i)
    then (let '(m', k, l) := push_ack_wait n (S i) answers th tl m in (m', S k, l))
    else (m, 1%nat, []).
Proof.
  cbn [push_ack_wait]. unfold acknowledges, passed_over, push_ack_ok.
  destruct (answers i) as [| |buff_ack]; try reflexivity.
  destruct (_ || _ || _); [reflexivity|].
  destruct (_ || _); reflexivity.
Qed.

(** C9 (amended): after a PUSH_DATA the upstream loop makes at most two
    receives. It stops at a valid matching PUSH_ACK, which adds one to
    up_ack_rcv, and at a socket error other than a timeout. A timeout
    (EAGAIN) does not stop it: like a reply that is too short, of the wrong
    version or type, or with another token, it uses up one of the two turns
    and leaves the counters as they are, so that after a first timeout a
    second receive is made and a PUSH_ACK that it gets is counted. *)
Theorem push_ack_wait_two_turns (answers : nat -> recv_result) (th tl : Z)
    (m : meas_up) :
  let m' := (push_ack_wait 2 0 answers th tl m).1.1 in
  let calls := (push_ack_wait 2 0 answers th tl m).1.2 in
  (1 <= calls <= 2)%nat
  /\ (calls = 2%nat <-> passed_over th tl (answers 0%nat) = true)
  /\ m' =
       (if acknowledges th tl (answers 0%nat)
           || (passed_over th tl (answers 0%nat)
               && acknowledges th tl (answers 1%nat))
        then count_ack m else m).
Proof.
  cbv zeta. rewrite !push_ack_wait_step. cbn [push_ack_wait].
  assert (forall r, acknowledges th tl r = true -> passed_over th tl r = false)
    as Hexcl.
  { intros [| |b]; cbn; try done. by intros ->. }
  destruct (acknowledges th tl (answers 0%nat)) eqn:Ha0.
  { rewrite (Hexcl _ Ha0). cbn. split; [lia|]. split; [|done]. split; [lia|done]. }
  destruct (passed_over th tl (answers 0%nat)) eqn:Hp0; cbn.
  - destruct (acknowledges th tl (answers 1%nat)) eqn:Ha1; cbn.
    + split; [lia|]. split; done.
    + destruct (passed_over th tl (answers 1%nat)); cbn;
        (split; [lia|]; split; done).
  - split; [lia|]. split; [|done]. split; [lia|done].
Qed.

End UpFacts.

(** ** The validation thread *)

Lemma valid_inv_start : valid_inv Valid.start.
Proof. unfold valid_inv, XERR_INIT_AVG. cbn. repeat split; (lia || done). Qed.

Lemma valid_inv_step now r st :
  valid_inv st -> valid_inv (Valid.step now r st).
Proof.
  unfold valid_inv, Valid.step, XERR_INIT_AVG, u32.
  intros (Hcpt & Hok & Hone).
  destruct (_ && _); [|cbn; repeat split; (lia || done)].
  destruct (Z.ltb_spec (Valid.init_cpt st) 128) as [Hlt|Hge].
  { cbn. rewrite Z.mod_small by lia. repeat split; (lia || done). }
  destruct (Z.eqb_spec (Valid.init_cpt st) 128) as [Heq|Hne].
  { cbn. rewrite Z.mod_small by lia. repeat split; (lia || done). }
  cbn. assert (Valid.init_cpt st = 128 + 1) as Hcpt' by lia.
  specialize (Hok Hcpt'). repeat split; try (lia || done).
  rewrite Hok. discriminate.
Qed.

Lemma valid_inv_reachable st : Valid.reachable st -> valid_inv st.
Proof.
  induction 1 as [|now r st _ IH]; [apply valid_inv_start|].
  by apply valid_inv_step.
Qed.

(** C8: a turn of the validation loop made more than GPS_REF_MAX_AGE = 30
    seconds after the last GPS synchronisation marks the time reference
    invalid and, in the same turn, sets the XTAL correction to 1.0, marks
    it invalid and restarts the initial averaging; and in every state that
    the thread goes through, a correction that is not marked valid is 1.0. *)
Theorem stale_reference_resets_xtal :
  (forall (now : Z) (time_reference_gps : tref) (st : Valid.state),
      GPS_REF_MAX_AGE < now - systime time_reference_gps ->
      Valid.step now time_reference_gps st =
        {| Valid.gps_ref_valid := false;
           Valid.xtal_correct_ok := false;
           Valid.xtal_correct := 1.0%float;
           Valid.init_cpt := 0;
           Valid.init_acc := 0.0%float |})
  /\ (forall st : Valid.state,
         Valid.reachable st ->
         Valid.xtal_correct_ok st = false ->
         Valid.xtal_correct st = 1.0%float).
Proof.
  split.
  - intros now r st Hage. unfold Valid.step.
    destruct (Z.leb_spec (now - systime r) GPS_REF_MAX_AGE) as [Hle|_]; [lia|].
    by rewrite andb_false_r.
  - intros st Hreach. by destruct (valid_inv_reachable st Hreach) as (_ & _ & Hone).
Qed.

(** ** The downstream thread: PULL_ACK and auto-quit *)

Section AutoQuit.
Context `{HalConsts} `{Parson} `{Extern}.

Lemma datagram_step_ack ev a m :
  let a' := (datagram_step ev a m).1.1 in
  token_h a' = token_h a /\ token_l a' = token_l a
  /\ req_ack a' = req_ack a || matching_pull_ack (token_h a) (token_l a) ev
  /\ autoquit_cnt a' =
       (if negb (req_ack a) && matching_pull_ack (token_h a) (token_l a) ev
        then 0 else autoquit_cnt a).
Proof.
  cbv zeta. unfold datagram_step, matching_pull_ack.
  destruct (ev_recv ev) as [b|]; [|by rewrite orb_false_r, andb_false_r].
  unfold PROTOCOL_VERSION, PKT_PULL_RESP, PKT_PULL_ACK.
  destruct (Z.ltb_spec (Z.of_nat (length b)) 4) as [Hlen|Hlen];
    destruct (Z.leb_spec 4 (Z.of_nat (length b))) as [Hlen'|Hlen']; try lia;
    cbn [orb andb negb].
  { by rewrite orb_false_r, andb_false_r. }
  destruct (Z.eqb_spec (byte_at b 0) 1) as [Hb0|Hb0]; cbn [orb andb negb];
    [|by rewrite orb_false_r, andb_false_r].
  destruct (Z.eqb_spec (byte_at b 3) 4) as [Hb3|Hb3]; cbn [orb andb negb].
  - rewrite andb_false_r. cbn [fst snd]. unfold pull_ack_step.
    destruct (byte_at b 1 =? token_h a), (byte_at b 2 =? token_l a);
      cbn [andb]; destruct (req_ack a) eqn:Hr; cbn; rewrite ?Hr; done.
  - destruct (byte_at b 3 =? 3); cbn [andb negb fst snd];
      [|by rewrite orb_false_r, andb_false_r].
    destruct (pull_resp_step ev b m). cbn.
    by rewrite orb_false_r, andb_false_r.
Qed.

Lemma down_iter_ack st ev :
  ack (down_iter st ev) = (datagram_step ev (ack st) (meas st)).1.1
  /\ exit_sig (down_iter st ev) = exit_sig st.
Proof.
  unfold down_iter.
  destruct (beacon_step ev (beacon_pkt st)) as [[pkt armed] out1].
  destruct (datagram_step ev (ack st) (meas st)) as [[a m] out2]. done.
Qed.

(** The listening loop: the counter is reset by the first matching
    PULL_ACK and by nothing else. *)
Lemma down_listen_ack evs st :
  (req_ack (ack st) = true -> autoquit_cnt (ack st) = 0) ->
  let th := token_h (ack st) in
  let tl := token_l (ack st) in
  let st' := fold_left down_iter evs st in
  token_h (ack st') = th /\ token_l (ack st') = tl
  /\ exit_sig st' = exit_sig st
  /\ autoquit_cnt (ack st') =
       (if req_ack (ack st) || existsb (matching_pull_ack th tl) evs
        then 0 else autoquit_cnt (ack st)).
Proof.
  cbv zeta. revert st. induction evs as [|ev evs IH]; intros st Hinv.
  { cbn. rewrite orb_false_r. destruct (req_ack (ack st)) eqn:Hr; auto. }
  cbn [fold_left existsb].
  destruct (down_iter_ack st ev) as [Hack Hexit].
  destruct (datagram_step_ack ev (ack st) (meas st)) as (Hth & Htl & Hreq & Hcnt).
  cbv zeta in *. rewrite <- Hack in Hth, Htl, Hreq, Hcnt.
  destruct (IH (down_iter st ev)) as (IHth & IHtl & IHexit & IHcnt).
  { rewrite Hreq, Hcnt. destruct (req_ack (ack st)) eqn:Hr; cbn.
    - intros _. by apply Hinv.
    - by intros ->. }
  rewrite IHth, IHtl, IHexit, IHcnt, Hth, Htl, Hreq, Hcnt, Hexit.
  repeat split.
  destruct (req_ack (ack st)) eqn:Hr; cbn; [done|].
  by destruct (matching_pull_ack _ _ ev).
Qed.

Lemma down_session_ack cfg s st :
  exit_sig (down_session cfg s st) = exit_sig st
  /\ autoquit_cnt (ack (down_session cfg s st)) =
       (if session_acked cfg s then 0 else u32 (autoquit_cnt (ack st) + 1)).
Proof.
  unfold down_session, session_acked. cbv zeta.
  match goal with |- context [fold_left down_iter ?evs ?st1] =>
    destruct (down_listen_ack evs st1) as (_ & _ & He & Hc); [done|]
  end.
  cbv zeta in *. by rewrite He, Hc.
Qed.

Lemma quiet_after_bounds cfg c ss : 0 <= c -> 0 <= quiet_after cfg c ss.
Proof.
  revert c. induction ss as [|s ss IH]; intros c Hc; [done|].
  cbn. apply IH. destruct (session_acked cfg s); lia.
Qed.

Lemma quiet_after_app cfg c ss1 ss2 :
  quiet_after cfg c (ss1 ++ ss2) = quiet_after cfg (quiet_after cfg c ss1) ss2.
Proof. apply fold_left_app. Qed.

Lemma quiet_after_unacked cfg c ss :
  Forall (fun s => session_acked cfg s = false) ss ->
  quiet_after cfg c ss = c + Z.of_nat (length ss).
Proof.
  intros Hall. revert c. induction Hall as [|s ss Hs _ IH]; intros c; [cbn; lia|].
  change (quiet_after cfg (if session_acked cfg s then 0 else c + 1) ss
          = c + Z.of_nat (S (length ss))).
  rewrite Hs, IH. lia.
Qed.

(** A count of [n] is reached either at the end of [n] turns without
    acknowledge, or by adding the turns of the whole list to the start. *)
Lemma quiet_after_window cfg c ss n :
  quiet_after cfg c ss = n ->
  (exists pre q, ss = pre ++ q /\ Z.of_nat (length q) = n
                 /\ Forall (fun s => session_acked cfg s = false) q)
  \/ (Forall (fun s => session_acked cfg s = false) ss
      /\ n = c + Z.of_nat (length ss)).
Proof.
  revert c. induction ss as [|s ss IH]; intros c Hq.
  { right. split; [constructor|]. cbn in *. lia. }
  cbn in Hq. fold (quiet_after cfg) in Hq.
  destruct (IH _ Hq) as [(pre & q & -> & Hlen & Hall)|[Hall Hn]].
  - left. exists (s :: pre), q. done.
  - destruct (session_acked cfg s) eqn:Hs.
    + left. exists [s], ss. repeat split; [lia|done].
    + right. split; [by constructor|]. cbn [length]. lia.
Qed.

Section Loop.
Variable cfg : down_config.
Hypothesis thr_pos : 0 < autoquit_threshold cfg.
Hypothesis thr_u32 : autoquit_threshold cfg < 2 ^ 32.

Lemma autoquit_due_iff st :
  autoquit_due cfg st = true <-> autoquit_threshold cfg <= autoquit_cnt (ack st).
Proof using thr_pos.
  unfold autoquit_due.
  destruct (Z.gtb_spec (autoquit_threshold cfg) 0); [|lia].
  destruct (Z.geb_spec (autoquit_cnt (ack st)) (autoquit_threshold cfg)); cbn.
  - split; [lia|done].
  - split; [done|lia].
Qed.

(** Below the threshold the test at the head of the loop lets the turn be
    made, and the count moves without wrapping. *)
Lemma down_session_next s st :
  0 <= autoquit_cnt (ack st) ->
  autoquit_due cfg st = false ->
  autoquit_cnt (ack st) < autoquit_threshold cfg
  /\ exit_sig (down_session cfg s st) = exit_sig st
  /\ autoquit_cnt (ack (down_session cfg s st)) =
       (if session_acked cfg s then 0 else autoquit_cnt (ack st) + 1).
Proof using thr_pos thr_u32.
  intros Hcnt Hdue.
  assert (autoquit_cnt (ack st) < autoquit_threshold cfg) as Hlt.
  { destruct (Z.lt_ge_cases (autoquit_cnt (ack st)) (autoquit_threshold cfg))
      as [|Hge]; [done|].
    apply autoquit_due_iff in Hge. congruence. }
  destruct (down_session_ack cfg s st) as [Hexit' Hcnt'].
  repeat split; [done|done|].
  rewrite Hcnt'. destruct (session_acked cfg s); [done|].
  unfold u32. apply Z.mod_small. lia.
Qed.

(** The outer loop requests the exit at the head of the first turn at which
    the count has reached the threshold, after the turns before it were
    made in full. *)
Lemma thread_down_loop_exit ss st :
  Forall (fun s => ses_signal s = false) ss ->
  exit_sig st = false ->
  0 <= autoquit_cnt (ack st) <= autoquit_threshold cfg ->
  exit_sig (thread_down_loop cfg ss st) = true <->
  exists k, (k < length ss)%nat
    /\ quiet_after cfg (autoquit_cnt (ack st)) (take k ss) = autoquit_threshold cfg
    /\ thread_down_loop cfg ss st = request_exit (sessions_run cfg (take k ss) st).
Proof using thr_pos thr_u32.
  intros Hsig. revert st.
  induction Hsig as [|s ss Hs Hsig IH]; intros st Hexit Hcnt.
  { cbn. rewrite Hexit. split; [done|]. intros (k & Hk & _). cbn in Hk. lia. }
  cbn [thread_down_loop]. rewrite Hs, Hexit. cbn [orb].
  destruct (autoquit_due cfg st) eqn:Hdue.
  - apply autoquit_due_iff in Hdue. split; [|done]. intros _.
    exists 0%nat. cbn. repeat split; lia.
  - destruct (down_session_next s st) as (Hlt & Hexit' & Hnext); [lia|done|].
    rewrite IH; [|congruence|rewrite Hnext; destruct (session_acked cfg s); lia].
    rewrite Hnext. split.
    + intros (k & Hk & Hq & Hloop). exists (S k). cbn. repeat split; [lia|done|done].
    + intros ([|k] & Hk & Hq & Hloop).
      * cbn in Hq. lia.
      * exists k. cbn in Hk, Hq, Hloop. repeat split; [lia|done|done].
Qed.

(** The exit is requested as soon as a turn is entered with the count at
    the threshold or above. *)
Lemma thread_down_loop_reaches ss st :
  Forall (fun s => ses_signal s = false) ss ->
  exit_sig st = false ->
  0 <= autoquit_cnt (ack st) <= autoquit_threshold cfg ->
  (exists k, (k < length ss)%nat
     /\ autoquit_threshold cfg
        <= quiet_after cfg (autoquit_cnt (ack st)) (take k ss)) ->
  exit_sig (thread_down_loop cfg ss st) = true.
Proof using thr_pos thr_u32.
  intros Hsig. revert st.
  induction Hsig as [|s ss Hs Hsig IH]; intros st Hexit Hcnt (k & Hk & Hq);
    [cbn in Hk; lia|].
  cbn [thread_down_loop]. rewrite Hs, Hexit. cbn [orb].
  destruct (autoquit_due cfg st) eqn:Hdue; [done|].
  destruct (down_session_next s st) as (Hlt & Hexit' & Hnext); [lia|done|].
  destruct k as [|k]; [cbn in Hq; lia|].
  apply IH; [congruence|rewrite Hnext; destruct (session_acked cfg s); lia|].
  exists k. split; [cbn in Hk; lia|]. rewrite Hnext. exact Hq.
Qed.

End Loop.

(** C7: with autoquit_threshold > 0, the downstream loop of a server
    requests the shutdown (sets the exit flag) at the head of the turn that
    follows autoquit_threshold consecutive turns in which a PULL_DATA was
    sent and no matching PULL_ACK was received; when it requests the
    shutdown, the turns made so far were made in full and the last
    autoquit_threshold of them had no matching PULL_ACK; and a turn in
    which a matching PULL_ACK is received leaves the count at zero. *)
Theorem autoquit_after_threshold (cfg : down_config) (ss : list session)
    (st : down_state) :
  0 < autoquit_threshold cfg < 2 ^ 32 ->
  Forall (fun s => ses_signal s = false) ss ->
  exit_sig st = false ->
  autoquit_cnt (ack st) = 0 ->
  (forall pre q s rest,
      ss = pre ++ q ++ s :: rest ->
      Z.of_nat (length q) = autoquit_threshold cfg ->
      Forall (fun s => session_acked cfg s = false) q ->
      exit_sig (thread_down_loop cfg ss st) = true)
  /\ (exit_sig (thread_down_loop cfg ss st) = true ->
      exists pre q rest,
        ss = pre ++ q ++ rest /\ rest <> []
        /\ Z.of_nat (length q) = autoquit_threshold cfg
        /\ Forall (fun s => session_acked cfg s = false) q
        /\ thread_down_loop cfg ss st =
             request_exit (sessions_run cfg (pre ++ q) st))
  /\ (forall s st1,
      session_acked cfg s = true ->
      autoquit_cnt (ack (down_session cfg s st1)) = 0).
Proof.
  intros [Hpos Hu32] Hsig Hexit Hcnt. split; [|split].
  - intros pre q s rest Hss Hlen Hall.
    apply (thread_down_loop_reaches cfg Hpos Hu32); [done|done|lia|].
    exists (length (pre ++ q)). subst ss. split.
    { rewrite !length_app. cbn. lia. }
    rewrite app_assoc, take_app_length, quiet_after_app.
    rewrite (quiet_after_unacked _ _ q Hall).
    pose proof (quiet_after_bounds cfg (autoquit_cnt (ack st)) pre). lia.
  - intros Hreq.
    apply (thread_down_loop_exit cfg Hpos Hu32) in Hreq; [|done|done|lia].
    destruct Hreq as (k & Hk & Hq & Hloop). rewrite Hcnt in Hq.
    apply quiet_after_window in Hq as [(pre & q & Htake & Hlen & Hall)|[Hall Hn]].
    + exists pre, q, (drop k ss). repeat split; try done.
      * by rewrite app_assoc, <- Htake, take_drop.
      * intros Hnil. apply (f_equal length) in Hnil.
        rewrite length_drop in Hnil. cbn in Hnil. lia.
      * by rewrite <- Htake.
    + exists [], (take k ss), (drop k ss). repeat split; try done.
      * cbn. by rewrite take_drop.
      * intros Hnil. apply (f_equal length) in Hnil.
        rewrite length_drop in Hnil. cbn in Hnil. lia.
  - intros s st1 Hs. destruct (down_session_ack cfg s st1) as [_ Hc].
    by rewrite Hc, Hs.
Qed.

End AutoQuit.

(** ** The downstream thread: PULL_RESP *)

Section ParseFacts.
Context `{HalConsts} `{Parson} `{Extern}.

Lemma bind_Ok {A B} (l : list log_line) (a : A) (k : A -> result B) :
  Ok l a ≫= k =
    match k a with
    | Ok l' b => Ok (l ++ l') b
    | Abort l' => Abort (l ++ l')
    end.
Proof. reflexivity. Qed.

Lemma ret_bind {A B} (a : A) (k : A -> result B) : mret a ≫= k = k a.
Proof. unfold mret, result_ret. rewrite bind_Ok. by destruct (k a). Qed.

Lemma bind_Ok_inv {A B} (r : result A) (k : A -> result B) l b :
  r ≫= k = Ok l b ->
  exists l1 a l2, r = Ok l1 a /\ k a = Ok l2 b /\ l = l1 ++ l2.
Proof.
  destruct r as [l1 a|l1]; [|done]. rewrite bind_Ok.
  destruct (k a) as [l2 b'|l2] eqn:Hk; [|done].
  intros [= <- <-]. by exists l1, a, l2.
Qed.

Lemma mandatory_Ok_inv {A} (o : option A) text l a :
  mandatory o text = Ok l a -> o = Some a /\ l = [].
Proof. destruct o; cbn; [|done]. by intros [= <- <-]. Qed.

Lemma mandatory_Some {A} (a : A) text : mandatory (Some a) text = Ok [] a.
Proof. reflexivity. Qed.

(** The timing mode that the parser retains, by priority: the immediate
    tag, else the timestamp, else the UTC time converted through a valid
    GPS time reference. *)
Lemma parse_timing_mode g o l imm cnt :
  parse_timing g o = Ok l (imm, cnt) ->
  if json_object_get_boolean o "imme" =? 1 then imm = true /\ cnt = 0
  else
    imm = false
    /\ match json_object_get_value o "tmst" with
       | Some val => cnt = double_to_u32 (json_value_get_number val)
       | None =>
           gps_active g = true /\ gps_ref_valid g = true
           /\ exists str x0 x1 x2 x3 x4 x5,
                json_object_get_string o "time" = Some str
                /\ sscanf_time str = Some (x0, x1, x2, x3, x4, x5)
                /\ lgw_utc2cnt (time_reference_gps g)
                     (utc_tx_of x0 x1 x2 x3 x4 x5) = Some cnt
       end.
Proof.
  unfold parse_timing.
  destruct (json_object_get_boolean o "imme" =? 1).
  { cbn. by intros [= _ <- <-]. }
  destruct (json_object_get_value o "tmst") as [val|].
  { cbn. by intros [= _ <- <-]. }
  intros Hp.
  apply bind_Ok_inv in Hp as (l1 & str & l2 & Hstr & Hp & _).
  apply mandatory_Ok_inv in Hstr as [Hstr _].
  apply bind_Ok_inv in Hp as (l3 & local_ref & l4 & Href & Hp & _).
  destruct (gps_active g); [|done]. destruct (gps_ref_valid g); [|done].
  injection Href as _ <-.
  apply bind_Ok_inv in Hp as (l5 & x & l6 & Hscan & Hp & _).
  apply mandatory_Ok_inv in Hscan as [Hscan _].
  destruct x as [[[[[x0 x1] x2] x3] x4] x5].
  apply bind_Ok_inv in Hp as (l7 & count_us & l8 & Hcnt & Hp & _).
  apply mandatory_Ok_inv in Hcnt as [Hcnt _].
  cbn in Hp. injection Hp as _ <- <-.
  repeat split. by exists str, x0, x1, x2, x3, x4, x5.
Qed.

(** Without a usable GPS time reference a frame that only gives a UTC time
    is abandoned with a warning. *)
Lemma parse_timing_no_gps g o str :
  json_object_get_boolean o "imme" <> 1 ->
  json_object_get_value o "tmst" = None ->
  json_object_get_string o "time" = Some str ->
  gps_active g = false \/ gps_ref_valid g = false ->
  exists text, parse_timing g o = Abort [(WARNING, text)].
Proof.
  intros Himme Htmst Htime Hgps. unfold parse_timing.
  apply Z.eqb_neq in Himme. rewrite Himme, Htmst, Htime, mandatory_Some, bind_Ok.
  destruct (gps_active g) eqn:Ha; [destruct (gps_ref_valid g) eqn:Hv|].
  - by destruct Hgps.
  - by eexists.
  - by eexists.
Qed.

Lemma parse_timing_accepts g o :
  timing_ok g o = true -> exists l t, parse_timing g o = Ok l t.
Proof.
  unfold timing_ok, parse_timing.
  destruct (json_object_get_boolean o "imme" =? 1); [by eexists _, _|].
  destruct (json_object_get_value o "tmst") as [val|]; [by eexists _, _|].
  cbn [orb]. rewrite bool_decide_eq_false_2 by (by intros [? ?]). cbn [orb].
  destruct (json_object_get_string o "time") as [str|]; [|done].
  rewrite mandatory_Some, bind_Ok.
  destruct (gps_active g); [|done]. destruct (gps_ref_valid g); [|done].
  rewrite ret_bind.
  destruct (sscanf_time str) as [[[[[[x0 x1] x2] x3] x4] x5]|]; [|done].
  cbn [andb]. intros Hcnt. apply bool_decide_eq_true in Hcnt as [cnt Hcnt].
  rewrite mandatory_Some, bind_Ok, Hcnt, mandatory_Some, bind_Ok.
  cbn. by eexists _, _.
Qed.

Lemma parse_modu_accepts o :
  modu_ok o = true -> exists mf, parse_modu o = Ok [] mf.
Proof.
  unfold modu_ok, parse_modu.
  destruct (json_object_get_string o "modu") as [modu|]; [|done].
  rewrite mandatory_Some, bind_Ok.
  destruct (String.eqb modu "LORA").
  - unfold lora_ok, parse_lora.
    destruct (json_object_get_string o "datr") as [datr|]; [|done].
    destruct (sscanf_datr datr) as [[sf bw]|] eqn:Hscan; [|done].
    destruct (json_object_get_string o "codr") as [codr|];
      [|by rewrite andb_false_r].
    intros Hok. apply andb_true_iff in Hok as [Hok Hcodr].
    apply andb_true_iff in Hok as [Hsf Hbw].
    cbn in Hsf, Hbw, Hcodr.
    assert (exists dr, lora_datarate sf = Ok [] dr) as [dr Hdr].
    { unfold lora_datarate. repeat (destruct (sf =? _); [by eexists|]). done. }
    assert (exists b, lora_bandwidth bw = Ok [] b) as [b Hb].
    { unfold lora_bandwidth. repeat (destruct (bw =? _); [by eexists|]). done. }
    assert (exists cr, lora_coderate codr = Ok [] cr) as [cr Hcr].
    { unfold lora_coderate.
      repeat (destruct (String.eqb codr _); [by eexists|]). done. }
    cbn [mandatory]. rewrite ret_bind, Hscan. cbn [mandatory].
    rewrite ret_bind. cbn [fst snd]. rewrite Hdr, bind_Ok, Hb, bind_Ok.
    cbn [mandatory]. rewrite ret_bind, Hcr, bind_Ok.
    cbn. by eexists.
  - destruct (String.eqb modu "FSK"); [|done].
    unfold fsk_ok, parse_fsk. intros Hok.
    apply andb_true_iff in Hok as [Hd Hf].
    apply bool_decide_eq_true in Hd as [vd ->].
    apply bool_decide_eq_true in Hf as [vf ->].
    rewrite !mandatory_Some, !bind_Ok. cbn. by eexists.
Qed.

Lemma parse_data_accepts o size str :
  json_object_get_string o "data" = Some str ->
  parse_data o size =
    Ok (if negb ((b64_to_bin str 256).1 =? size) then [mismatch_warning] else [])
       (decoded_payload str).
Proof.
  intros Hstr. unfold parse_data, decoded_payload.
  rewrite Hstr, mandatory_Some, bind_Ok.
  destruct (b64_to_bin str 256) as [i out]. cbn [fst snd].
  by destruct (negb (i =? size)).
Qed.

(** A frame that the parser accepts went through the timing part, and its
    mode, counter value, size and payload are those read there and in the
    size and data members. *)
Lemma parse_txpk_inv g o l pkt :
  parse_txpk g o = Ok l pkt ->
  exists l1 imm cnt vs str,
    parse_timing g o = Ok l1 (imm, cnt)
    /\ json_object_get_value o "size" = Some vs
    /\ json_object_get_string o "data" = Some str
    /\ tx_mode pkt = (if imm then IMMEDIATE else TIMESTAMPED)
    /\ tx_count_us pkt = cnt
    /\ tx_size pkt = double_to_u16 (json_value_get_number vs)
    /\ tx_payload pkt = decoded_payload str.
Proof.
  unfold parse_txpk. intros Hp.
  apply bind_Ok_inv in Hp as (l1 & [imm cnt] & l2 & Htim & Hp & _).
  apply bind_Ok_inv in Hp as (? & vf & ? & _ & Hp & _).
  apply bind_Ok_inv in Hp as (? & vr & ? & _ & Hp & _).
  apply bind_Ok_inv in Hp as (? & mf & ? & _ & Hp & _).
  apply bind_Ok_inv in Hp as (? & vs & ? & Hvs & Hp & _).
  apply mandatory_Ok_inv in Hvs as [Hvs _].
  apply bind_Ok_inv in Hp as (? & payload & ? & Hdata & Hp & _).
  injection Hp as _ <-.
  destruct (json_object_get_string o "data") as [str|] eqn:Hstr.
  - rewrite (parse_data_accepts o _ str Hstr) in Hdata. injection Hdata as _ <-.
    by exists l1, imm, cnt, vs, str.
  - unfold parse_data in Hdata. by rewrite Hstr in Hdata.
Qed.

Lemma parse_txpk_abort g o l :
  parse_timing g o = Abort l -> parse_txpk g o = Abort l.
Proof. intros Ht. unfold parse_txpk. by rewrite Ht. Qed.

(** The parser accepts every well-formed object; what it prints beyond
    the timing part is the warning about the size, when the size differs
    from the number of bytes decoded. *)
Lemma parse_txpk_accepts g o :
  txpk_wellformed g o = true ->
  exists l1 t vs str pkt,
    parse_timing g o = Ok l1 t
    /\ json_object_get_value o "size" = Some vs
    /\ json_object_get_string o "data" = Some str
    /\ parse_txpk g o =
         Ok (l1 ++ if negb ((b64_to_bin str 256).1
                            =? double_to_u16 (json_value_get_number vs))
                   then [mismatch_warning] else [])
            pkt.
Proof.
  unfold txpk_wellformed, txpk_fields_ok. intros Hwf.
  apply andb_true_iff in Hwf as [Htim Hwf].
  apply andb_true_iff in Hwf as [Hwf Hdata].
  apply andb_true_iff in Hwf as [Hwf Hsize].
  apply andb_true_iff in Hwf as [Hwf Hmodu].
  apply andb_true_iff in Hwf as [Hfreq Hrfch].
  apply bool_decide_eq_true in Hdata as [str Hstr].
  apply bool_decide_eq_true in Hsize as [vs Hvs].
  apply bool_decide_eq_true in Hfreq as [vf Hvf].
  apply bool_decide_eq_true in Hrfch as [vr Hvr].
  apply parse_modu_accepts in Hmodu as [mf Hmf].
  apply parse_timing_accepts in Htim as (l1 & [imm cnt] & Htim).
  exists l1, (imm, cnt), vs, str. eexists. repeat split; try done.
  unfold parse_txpk.
  rewrite Htim, bind_Ok, Hvf, mandatory_Some, bind_Ok, Hvr, mandatory_Some,
    bind_Ok, Hmf, bind_Ok, Hvs, mandatory_Some, bind_Ok.
  rewrite (parse_data_accepts o _ str Hstr), bind_Ok.
  cbn [mret result_ret app]. by rewrite app_nil_r.
Qed.

End ParseFacts.

Section PullRespFacts.
Context `{HalConsts} `{Parson} `{Extern}.

Lemma parse_pull_resp_body g buff_down o :
  pull_resp_body buff_down o -> parse_pull_resp g buff_down = parse_txpk g o.
Proof.
  intros (root_val & Hroot & Ho). unfold parse_pull_resp.
  rewrite Hroot. cbn [mandatory]. rewrite ret_bind, Ho. cbn [mandatory].
  by rewrite ret_bind.
Qed.

Lemma print_is_not_send pkt l : ~ In (Lgw_send pkt) (map print l).
Proof. rewrite in_map_iff. by intros (line & Hline & _). Qed.

(** The only packet that the handling of a PULL_RESP gives to the radio is
    the one that the parser returns. *)
Lemma pull_resp_step_sends ev buff_down m pkt :
  In (Lgw_send pkt) (pull_resp_step ev buff_down m).2 ->
  exists l, parse_pull_resp (ev_globals ev) buff_down = Ok l pkt.
Proof.
  unfold pull_resp_step.
  destruct (parse_pull_resp (ev_globals ev) buff_down) as [l txpkt|l];
    cbn [snd]; rewrite ?in_app_iff.
  - intros [Hin|[Hin|[Hin|Hin]]].
    + by destruct Hin.
    + by apply print_is_not_send in Hin.
    + destruct Hin as [[= ->]|[]]. by exists l.
    + destruct (ev_lgw_send ev =? LGW_HAL_ERROR); [by destruct Hin|done].
  - intros [Hin|Hin]; [by destruct Hin|by apply print_is_not_send in Hin].
Qed.

Lemma pull_resp_step_accepted ev buff_down m l pkt :
  parse_pull_resp (ev_globals ev) buff_down = Ok l pkt ->
  let m' := (pull_resp_step ev buff_down m).1 in
  (exists after,
     (pull_resp_step ev buff_down m).2 =
       Msg INFO "[down] PULL_RESP received" :: map print l
       ++ Lgw_send pkt :: after)
  /\ meas_dw_dgram_rcv m' = u32 (meas_dw_dgram_rcv m + 1)
  /\ meas_dw_network_byte m' =
       u32 (meas_dw_network_byte m + Z.of_nat (length buff_down))
  /\ meas_dw_payload_byte m' = u32 (meas_dw_payload_byte m + tx_size pkt).
Proof.
  intros Hp. cbv zeta. unfold pull_resp_step. rewrite Hp. cbn.
  repeat split. by eexists.
Qed.

Lemma pull_resp_step_abandoned ev buff_down m l :
  parse_pull_resp (ev_globals ev) buff_down = Abort l ->
  pull_resp_step ev buff_down m =
    (m, Msg INFO "[down] PULL_RESP received" :: map print l).
Proof. intros Hp. unfold pull_resp_step. by rewrite Hp. Qed.

(** C5: in the parsing of a PULL_RESP one timing mode is retained, by
    priority. A packet given to the radio has the mode IMMEDIATE when imme
    is true; otherwise the mode TIMESTAMPED, at the counter value of tmst
    when tmst is there, and otherwise at the value that the conversion of
    time through the current GPS time reference gives, GPS being active
    and the reference valid. A well-formed frame is given to the radio and
    counted in dw_dgram_rcv. A frame that has only a time while GPS is
    inactive or the reference is invalid is abandoned with a warning:
    nothing is given to the radio and no counter moves. *)
Theorem pull_resp_timing_priority (ev : down_event) (buff_down : list Z)
    (m : meas_dw) (o : JSON_Object) :
  pull_resp_body buff_down o ->
  let g := ev_globals ev in
  let m' := (pull_resp_step ev buff_down m).1 in
  let out := (pull_resp_step ev buff_down m).2 in
  (forall pkt, In (Lgw_send pkt) out ->
     if json_object_get_boolean o "imme" =? 1 then tx_mode pkt = IMMEDIATE
     else
       tx_mode pkt = TIMESTAMPED
       /\ match json_object_get_value o "tmst" with
          | Some val => tx_count_us pkt = double_to_u32 (json_value_get_number val)
          | None =>
              gps_active g = true /\ gps_ref_valid g = true
              /\ exists str x0 x1 x2 x3 x4 x5,
                   json_object_get_string o "time" = Some str
                   /\ sscanf_time str = Some (x0, x1, x2, x3, x4, x5)
                   /\ lgw_utc2cnt (time_reference_gps g)
                        (utc_tx_of x0 x1 x2 x3 x4 x5) = Some (tx_count_us pkt)
          end)
  /\ (txpk_wellformed g o = true ->
      (exists pkt, In (Lgw_send pkt) out)
      /\ meas_dw_dgram_rcv m' = u32 (meas_dw_dgram_rcv m + 1))
  /\ (json_object_get_boolean o "imme" <> 1 ->
      json_object_get_value o "tmst" = None ->
      is_Some (json_object_get_string o "time") ->
      gps_active g = false \/ gps_ref_valid g = false ->
      m' = m
      /\ exists text,
           out = [Msg INFO "[down] PULL_RESP received"; Msg WARNING text]).
Proof.
  intros Hbody. cbv zeta. split; [|split].
  - intros pkt Hin. apply pull_resp_step_sends in Hin as [l Hp].
    rewrite (parse_pull_resp_body _ _ _ Hbody) in Hp.
    apply parse_txpk_inv in Hp
      as (l1 & imm & cnt & vs & str & Htim & _ & _ & Hmode & Hcnt & _).
    apply parse_timing_mode in Htim.
    destruct (json_object_get_boolean o "imme" =? 1).
    + destruct Htim as [-> _]. done.
    + destruct Htim as [-> Htim]. split; [done|]. by rewrite Hcnt.
  - intros Hwf.
    apply parse_txpk_accepts in Hwf as (l1 & t & vs & str & pkt & _ & _ & _ & Hp).
    rewrite <- (parse_pull_resp_body _ _ _ Hbody) in Hp.
    destruct (pull_resp_step_accepted ev buff_down m _ _ Hp)
      as ([after Hout] & Hrcv & _).
    split; [|done]. exists pkt. rewrite Hout.
    right. apply in_app_iff. right. by left.
  - intros Himme Htmst [str Htime] Hgps.
    destruct (parse_timing_no_gps _ _ _ Himme Htmst Htime Hgps) as [text Hab].
    apply parse_txpk_abort in Hab.
    rewrite <- (parse_pull_resp_body _ _ _ Hbody) in Hab.
    rewrite (pull_resp_step_abandoned _ _ _ _ Hab). cbn. split; [done|].
    by exists text.
Qed.



(** C10: a well-formed frame whose data decodes to a number of bytes that
    differs from its size member is not rejected. The warning about the
    mismatch is printed, the packet is given to the radio with the size of
    the size member and the decoded bytes in its payload array, the frame
    is counted in dw_dgram_rcv, and dw_payload_byte grows by the size of
    the size member, not by the number of bytes decoded. *)
Theorem size_mismatch_is_only_warned (ev : down_event) (buff_down : list Z)
    (m : meas_dw) (o : JSON_Object) (vs : JSON_Value) (str : string) :
  pull_resp_body buff_down o ->
  txpk_wellformed (ev_globals ev) o = true ->
  json_object_get_value o "size" = Some vs ->
  json_object_get_string o "data" = Some str ->
  (b64_to_bin str 256).1 <> double_to_u16 (json_value_get_number vs) ->
  let size := double_to_u16 (json_value_get_number vs) in
  let m' := (pull_resp_step ev buff_down m).1 in
  exists before pkt after,
    (pull_resp_step ev buff_down m).2 =
      before ++ print mismatch_warning :: Lgw_send pkt :: after
    /\ tx_size pkt = size
    /\ tx_payload pkt = decoded_payload str
    /\ meas_dw_dgram_rcv m' = u32 (meas_dw_dgram_rcv m + 1)
    /\ meas_dw_payload_byte m' = u32 (meas_dw_payload_byte m + size).
Proof.
  intros Hbody Hwf Hsize Hdata Hne. cbv zeta.
  apply parse_txpk_accepts in Hwf as (l1 & t & vs' & str' & pkt & _ & Hvs & Hstr & Hp).
  rewrite Hsize in Hvs. injection Hvs as <-.
  rewrite Hdata in Hstr. injection Hstr as <-.
  apply Z.eqb_neq in Hne. rewrite Hne in Hp. cbn [negb] in Hp.
  pose proof Hp as Hinv.
  apply parse_txpk_inv in Hinv
    as (_ & _ & _ & vs' & str' & _ & Hvs & Hstr & _ & _ & Hsz & Hpay).
  rewrite Hsize in Hvs. injection Hvs as <-.
  rewrite Hdata in Hstr. injection Hstr as <-.
  rewrite <- (parse_pull_resp_body _ _ _ Hbody) in Hp.
  destruct (pull_resp_step_accepted ev buff_down m _ _ Hp)
    as ([after Hout] & Hrcv & _ & Hbyte).
  exists (Msg INFO "[down] PULL_RESP received" :: map print l1), pkt, after.
  repeat split; try done.
  - rewrite Hout, map_app. cbn [map]. by rewrite <- app_assoc.
  - by rewrite Hbyte, Hsz.
Qed.

End PullRespFacts.

(** The received packet of the specification is serialised, so that the
    object of the [rxpk] array is there at the end of the packet loop. *)
Example rx_packet_is_serialised :
  exists m object,
    @up_packets semtech_hal scenario_extern default_filter no_gps_context
      [rx_packet 0x10] meas_up_zero [] = ([], m, Done [object])
    /\ meas_up_pkt_fwd m = 1 /\ meas_up_payload_byte m = 4.
Proof. eexists _, _. vm_compute. repeat split. Qed.

(** C4, as it is claimed, fails: the first packet of this batch has CRC OK
    and the modulation 0, the default filter lets it through, and the packet
    loop ends with [exit(EXIT_FAILURE)] instead of dropping it and going on
    with the second packet, a good LoRa packet that is never forwarded. *)
Lemma unknown_modulation_is_fatal :
  (@up_packets semtech_hal scenario_extern default_filter no_gps_context
     [rx_packet 0; rx_packet 0x10] meas_up_zero []).2
  = Exit [Msg ERROR "[up] received packet with unknown modulation"].
Proof. vm_compute. reflexivity. Qed.

Lemma unknown_modulation_exits_witness :
  rx_modulation (rx_packet 0x30) <> @MOD_LORA semtech_hal
  /\ rx_modulation (rx_packet 0x30) <> @MOD_FSK semtech_hal
  /\ @up_packets semtech_hal scenario_extern default_filter no_gps_context
       [rx_packet 0x30] meas_up_zero []
     = ([Msg ERROR "[up] received packet with unknown modulation"],
        add_payload_byte 4
          (bump Up_pkt_fwd 1 (bump Rx_ok 1 (bump Rx_rcv 1 meas_up_zero))),
        Exit [Msg ERROR "[up] received packet with unknown modulation"]).
Proof.
  assert (rx_modulation (rx_packet 0x30) <> @MOD_LORA semtech_hal) as Hl
    by (vm_compute; discriminate).
  assert (rx_modulation (rx_packet 0x30) <> @MOD_FSK semtech_hal) as Hf
    by (vm_compute; discriminate).
  split; [exact Hl|]. split; [exact Hf|].
  exact (@unknown_modulation_exits semtech_hal scenario_extern default_filter
           no_gps_context (rx_packet 0x30) [] meas_up_zero [] Hl Hf).
Defined.

(** C9, as it is claimed, fails: the first receive times out and the loop
    does not stop there; it makes a second receive, gets the PUSH_ACK of
    the awaited token and counts it. *)
Lemma push_ack_after_timeout :
  push_ack_wait 2 0
    (fun i => match i with
              | O => Recv_timeout
              | _ => Recv_data [PROTOCOL_VERSION; 0xAB; 0xCD; PKT_PUSH_ACK]
              end)
    0xAB 0xCD meas_up_zero
  = (count_ack meas_up_zero, 2%nat, [Msg INFO "[up] PUSH_ACK received"]).
Proof. vm_compute. reflexivity. Qed.

Lemma stale_reference_resets_xtal_witness :
  GPS_REF_MAX_AGE < 31 - systime scenario_tref
  /\ Valid.step 31 scenario_tref
       {| Valid.gps_ref_valid := true; Valid.xtal_correct_ok := true;
          Valid.xtal_correct := 1.5%float; Valid.init_cpt := 129;
          Valid.init_acc := 128%float |}
     = {| Valid.gps_ref_valid := false; Valid.xtal_correct_ok := false;
          Valid.xtal_correct := 1.0%float; Valid.init_cpt := 0;
          Valid.init_acc := 0.0%float |}
  /\ Valid.xtal_correct (Valid.step 10 scenario_tref Valid.start) = 1.0%float.
Proof.
  assert (GPS_REF_MAX_AGE < 31 - systime scenario_tref) as Hage
    by (vm_compute; reflexivity).
  split; [exact Hage|]. split.
  - exact (proj1 stale_reference_resets_xtal 31 scenario_tref _ Hage).
  - exact (proj2 stale_reference_resets_xtal
             (Valid.step 10 scenario_tref Valid.start)
             (Valid.reach_step 10 scenario_tref _ Valid.reach_start)
             eq_refl).
Defined.

Lemma autoquit_after_threshold_witness :
  0 < autoquit_threshold autoquit_config < 2 ^ 32
  /\ exit_sig
       (@thread_down_loop semtech_hal scenario_parson scenario_extern
          autoquit_config [silent_session; silent_session; silent_session]
          down_state_zero) = true.
Proof.
  assert (0 < autoquit_threshold autoquit_config < 2 ^ 32) as Hthr
    by (vm_compute; split; reflexivity).
  split; [exact Hthr|].
  refine (proj1 (@autoquit_after_threshold semtech_hal scenario_parson
                   scenario_extern autoquit_config
                   [silent_session; silent_session; silent_session]
                   down_state_zero Hthr _ eq_refl eq_refl)
            [] [silent_session; silent_session] silent_session []
            eq_refl eq_refl _).
  - repeat constructor.
  - repeat constructor.
Defined.

Lemma immediate_body_is_txpk :
  @pull_resp_body scenario_parson (pull_resp_datagram immediate_body)
    (lora_members 5).
Proof. exists (txpk_document (lora_members 5)). split; vm_compute; reflexivity. Defined.

Lemma mismatch_body_is_txpk :
  @pull_resp_body scenario_parson (pull_resp_datagram mismatch_body)
    (lora_members 4).
Proof. exists (txpk_document (lora_members 4)). split; vm_compute; reflexivity. Defined.

Lemma pull_resp_timing_priority_witness :
  @pull_resp_body scenario_parson (pull_resp_datagram immediate_body)
    (lora_members 5)
  /\ exists pkt,
       In (Lgw_send pkt)
         (@pull_resp_step semtech_hal scenario_parson scenario_extern
            (datagram_event immediate_body)
            (pull_resp_datagram immediate_body) meas_dw_zero).2
       /\ tx_mode pkt = @IMMEDIATE semtech_hal.
Proof.
  split; [exact immediate_body_is_txpk|].
  destruct (@pull_resp_timing_priority semtech_hal scenario_parson
              scenario_extern (datagram_event immediate_body)
              (pull_resp_datagram immediate_body) meas_dw_zero
              (lora_members 5) immediate_body_is_txpk)
    as (Hmode & Hsent & _).
  destruct (Hsent ltac:(vm_compute; reflexivity)) as [[pkt Hin] _].
  exists pkt. split; [exact Hin|]. exact (Hmode pkt Hin).
Defined.


Lemma size_mismatch_is_only_warned_witness :
  (@b64_to_bin scenario_extern "aGVsbG8=" 256).1 = 5
  /\ exists before pkt after,
       (@pull_resp_step semtech_hal scenario_parson scenario_extern
          (datagram_event mismatch_body) (pull_resp_datagram mismatch_body)
          meas_dw_zero).2
         = before ++ print mismatch_warning :: Lgw_send pkt :: after
       /\ tx_size pkt = 4
       /\ meas_dw_payload_byte
            (@pull_resp_step semtech_hal scenario_parson scenario_extern
               (datagram_event mismatch_body)
               (pull_resp_datagram mismatch_body) meas_dw_zero).1 = 4.
Proof.
  split; [vm_compute; reflexivity|].
  destruct (@size_mismatch_is_only_warned semtech_hal scenario_parson
              scenario_extern (datagram_event mismatch_body)
              (pull_resp_datagram mismatch_body) meas_dw_zero
              (lora_members 4) (Json_number 4%float) "aGVsbG8="
              mismatch_body_is_txpk
              ltac:(vm_compute; reflexivity) ltac:(vm_compute; reflexivity)
              ltac:(vm_compute; reflexivity) ltac:(vm_compute; discriminate))
    as (before & pkt & after & Hout & Hsize & _ & _ & Hbyte).
  exists before, pkt, after. split; [exact Hout|]. split; [exact Hsize|].
  exact Hbyte.
Defined.

(** * More properties of the code *)

(** ** The CRC routines *)

Lemma crc16_shift_range x : 0 <= crc16_shift x < 2 ^ 16.
Proof.
  unfold crc16_shift, u16. destruct (negb _); apply Z.mod_pos_bound; lia.
Qed.

Lemma crc16_byte_range x d : 0 <= crc16_byte x d < 2 ^ 16.
Proof. unfold crc16_byte. cbn [Nat.iter]. apply crc16_shift_range. Qed.

Lemma crc16_fold_range l x :
  0 <= x < 2 ^ 16 -> 0 <= fold_left crc16_byte l x < 2 ^ 16.
Proof.
  revert x. induction l as [|d l IH]; intros x Hx; [done|].
  cbn. apply IH, crc16_byte_range.
Qed.

Lemma crc_ccit_range data size : 0 <= crc_ccit data size < 2 ^ 16.
Proof.
  destruct data as [bytes|]; cbn; [|lia]. apply crc16_fold_range. lia.
Qed.

Lemma crc8_shift_range x : 0 <= crc8_shift x < 2 ^ 8.
Proof.
  unfold crc8_shift, u8. destruct (negb _); apply Z.mod_pos_bound; lia.
Qed.

Lemma crc8_byte_range x d : 0 <= crc8_byte x d < 2 ^ 8.
Proof. unfold crc8_byte. cbn [Nat.iter]. apply crc8_shift_range. Qed.

Lemma crc8_fold_range l x :
  0 <= x < 2 ^ 8 -> 0 <= fold_left crc8_byte l x < 2 ^ 8.
Proof.
  revert x. induction l as [|d l IH]; intros x Hx; [done|].
  cbn. apply IH, crc8_byte_range.
Qed.

Lemma crc8_ccit_range data size : 0 <= crc8_ccit data size < 2 ^ 8.
Proof.
  destruct data as [bytes|]; cbn; [|lia]. apply crc8_fold_range. lia.
Qed.

(** Feeding a 16-bit state with its own two bytes, high byte first, brings
    it to zero: checked on every state. *)
Lemma crc16_residue_step x :
  0 <= x < 2 ^ 16 ->
  crc16_byte (crc16_byte x (Z.shiftr x 8)) (Z.land x 0xFF) = 0.
Proof.
  intros Hx.
  assert (forallb (fun h => forallb (fun l =>
            let x := 256 * Z.of_nat h + Z.of_nat l in
            crc16_byte (crc16_byte x (Z.shiftr x 8)) (Z.land x 0xFF) =? 0)
            (seq 0 256)) (seq 0 256) = true) as Hall
    by (vm_compute; reflexivity).
  rewrite forallb_forall in Hall.
  specialize (Hall (Z.to_nat (x / 256))).
  rewrite forallb_forall in Hall.
  assert (0 <= x / 256 < 256) as Hh
    by (split; [apply Z.div_pos|apply Z.div_lt_upper_bound]; lia).
  pose proof (Z.mod_pos_bound x 256 ltac:(lia)) as Hl.
  specialize (Hall ltac:(apply in_seq; lia) (Z.to_nat (x mod 256))
                   ltac:(apply in_seq; lia)).
  cbv zeta in Hall. rewrite !Z2Nat.id in Hall by lia.
  rewrite <- Z.div_mod in Hall by lia. by apply Z.eqb_eq.
Qed.

Lemma crc8_residue_step x : crc8_byte x x = 0.
Proof. unfold crc8_byte. rewrite Z.lxor_nilpotent. reflexivity. Qed.

(** X1: the two CRC routines. Whatever the bytes, the value of
    [crc_ccit] fits in 16 bits and the value of [crc8_ccit] in 8 bits; and
    a message followed by its CRC has the CRC zero, the two bytes of the
    CRC-16 coming high byte first, the CRC-8 being one byte. *)
Theorem crc_of_message_and_crc_is_zero (bytes : list Z) :
  let c := crc_ccit (Some bytes) (length bytes) in
  let c8 := crc8_ccit (Some bytes) (length bytes) in
  0 <= c < 2 ^ 16 /\ 0 <= c8 < 2 ^ 8
  /\ crc_ccit (Some (bytes ++ [Z.shiftr c 8; Z.land c 0xFF])) (length bytes + 2)
     = 0
  /\ crc8_ccit (Some (bytes ++ [c8])) (length bytes + 1) = 0.
Proof.
  cbv zeta. split; [apply crc_ccit_range|]. split; [apply crc8_ccit_range|].
  unfold crc_ccit, crc8_ccit. rewrite !firstn_all. split.
  - rewrite firstn_all2 by (rewrite length_app; cbn; lia).
    rewrite fold_left_app. cbn [fold_left].
    apply crc16_residue_step, crc16_fold_range. lia.
  - rewrite firstn_all2 by (rewrite length_app; cbn; lia).
    rewrite fold_left_app. cbn [fold_left]. apply crc8_residue_step.
Qed.

(** ** The beacon frame *)

Lemma bytes3_of z :
  Z.land 0xFF z + 256 * Z.land 0xFF (Z.shiftr z 8)
  + 65536 * Z.land 0xFF (Z.shiftr z 16) = z mod 2 ^ 24.
Proof.
  rewrite !(Z.land_comm 0xFF). change 0xFF with (Z.ones 8).
  rewrite !Z.land_ones, !Z.shiftr_div_pow2 by lia.
  change (2 ^ 8) with 256. change (2 ^ 16) with 65536.
  pose proof (Z.div_mod z 256 ltac:(lia)) as H0.
  pose proof (Z.mod_pos_bound z 256 ltac:(lia)) as B0.
  pose proof (Z.div_mod (z / 256) 256 ltac:(lia)) as H1.
  pose proof (Z.mod_pos_bound (z / 256) 256 ltac:(lia)) as B1.
  pose proof (Z.div_mod (z / 65536) 256 ltac:(lia)) as H2.
  pose proof (Z.mod_pos_bound (z / 65536) 256 ltac:(lia)) as B2.
  replace (z / 65536) with (z / 256 / 256) in *
    by (rewrite Z.div_div by lia; reflexivity).
  apply Z.mod_unique_pos with (q := z / 256 / 256 / 256); lia.
Qed.

Lemma bytes2_of z :
  Z.land 0xFF z + 256 * Z.land 0xFF (Z.shiftr z 8) = z mod 2 ^ 16.
Proof.
  rewrite !(Z.land_comm 0xFF). change 0xFF with (Z.ones 8).
  rewrite !Z.land_ones, !Z.shiftr_div_pow2 by lia.
  change (2 ^ 8) with 256.
  pose proof (Z.div_mod z 256 ltac:(lia)) as H0.
  pose proof (Z.mod_pos_bound z 256 ltac:(lia)) as B0.
  pose proof (Z.div_mod (z / 256) 256 ltac:(lia)) as H1.
  pose proof (Z.mod_pos_bound (z / 256) 256 ltac:(lia)) as B1.
  apply Z.mod_unique_pos with (q := z / 256 / 256); lia.
Qed.

Ltac byte_at_insert :=
  repeat first
    [ rewrite byte_at_insert_eq by (rewrite ?length_insert; lia)
    | rewrite byte_at_insert_ne by lia ].

Section BeaconFrame.
Context `{HalConsts} `{Parson} `{Extern}.

Lemma beacon_field_latitude_range c :
  - 2 ^ 23 <= beacon_field_latitude c < 2 ^ 23.
Proof.
  unfold beacon_field_latitude. cbv zeta.
  set (d := double_to_i32 _).
  change (i32 0x007FFFFF) with 8388607.
  change (i32 0xFF800000) with (-8388608).
  rewrite Z.gtb_ltb.
  destruct (Z.ltb_spec 8388607 d); [lia|].
  destruct (Z.ltb_spec d (-8388608)); lia.
Qed.

Lemma beacon_field_longitude_range c :
  0 <= beacon_field_longitude c < 2 ^ 24.
Proof.
  unfold beacon_field_longitude. rewrite Z.land_comm.
  change 0x00FFFFFF with (Z.ones 24). rewrite Z.land_ones by lia.
  apply Z.mod_pos_bound. lia.
Qed.

Lemma beacon_init_length c stack :
  length (tx_payload (beacon_init c stack)) = length (tx_payload stack).
Proof.
  unfold beacon_init. cbv zeta. rewrite !set_payload_payload.
  cbn [tx_payload]. by rewrite !length_insert.
Qed.

(** X2: the frame that [thread_down] prepares before its loop, on a payload
    array of at least 17 bytes: the network identifier 0xC0FFEE in bytes
    0..2, the information byte 0, the latitude (within -2^23 .. 2^23-1,
    in two's complement on 24 bits) in bytes 9..11, the longitude (within
    0 .. 2^24-1) in bytes 12..14, all least significant byte first, and in
    bytes 15..16 the CRC-16 of bytes 8..14, low byte first. *)
Theorem beacon_init_frame (c : coord_s) (stack : lgw_pkt_tx_s) :
  (17 <= length (tx_payload stack))%nat ->
  let p := tx_payload (beacon_init c stack) in
  let latitude := beacon_field_latitude c in
  let longitude := beacon_field_longitude c in
  byte_at p 0 + 256 * byte_at p 1 + 65536 * byte_at p 2 = 0xC0FFEE
  /\ byte_at p 8 = 0
  /\ - 2 ^ 23 <= latitude < 2 ^ 23
  /\ byte_at p 9 + 256 * byte_at p 10 + 65536 * byte_at p 11
     = latitude mod 2 ^ 24
  /\ 0 <= longitude < 2 ^ 24
  /\ byte_at p 12 + 256 * byte_at p 13 + 65536 * byte_at p 14 = longitude
  /\ byte_at p 15 + 256 * byte_at p 16 = crc_ccit (Some (drop 8 p)) 7.
Proof.
  intros Hlen. cbv zeta.
  pose proof (beacon_field_latitude_range c) as Hlat.
  pose proof (beacon_field_longitude_range c) as Hlon.
  unfold beacon_init. cbv zeta. rewrite !set_payload_payload.
  cbn [tx_payload].
  set (q := <[14%nat:=_]> _).
  assert (length q = length (tx_payload stack)) as Hq
    by (subst q; by rewrite !length_insert).
  assert (crc_ccit (Some (drop 8 (<[16%nat:=Z.land 255
             (Z.shiftr (crc_ccit (Some (drop 8 q)) 7) 8)]>
             (<[15%nat:=Z.land 255 (crc_ccit (Some (drop 8 q)) 7)]> q)))) 7
          = crc_ccit (Some (drop 8 q)) 7) as Hcrc.
  { unfold crc_ccit at 1 4. f_equal.
    rewrite !drop_insert_ge by lia. by rewrite !take_insert_ge by lia. }
  rewrite Hcrc. clear Hcrc.
  repeat split; try lia.
  - subst q. byte_at_insert. reflexivity.
  - subst q. byte_at_insert. reflexivity.
  - subst q. byte_at_insert. apply bytes3_of.
  - subst q. byte_at_insert. rewrite bytes3_of. apply Z.mod_small. lia.
  - byte_at_insert. rewrite bytes2_of. apply Z.mod_small, crc_ccit_range.
Qed.

End BeaconFrame.

Lemma beacon_init_frame_witness :
  (17 <= length (tx_payload txpkt_zero))%nat
  /\ byte_at (tx_payload (@beacon_init semtech_hal scenario_coord txpkt_zero)) 8
     = 0.
Proof.
  assert (17 <= length (tx_payload txpkt_zero))%nat as Hlen
    by (vm_compute; lia).
  split; [exact Hlen|].
  exact (proj1 (proj2
    (@beacon_init_frame semtech_hal scenario_coord txpkt_zero Hlen))).
Defined.

(** ** The beacon part of the downstream loop *)

Section BeaconStep.
Context `{HalConsts} `{Parson} `{Extern}.

Lemma radio_sends_app l1 l2 :
  radio_sends (l1 ++ l2) = radio_sends l1 ++ radio_sends l2.
Proof. apply omap_app. Qed.

Lemma radio_sends_In pkt out : In pkt (radio_sends out) <-> In (Lgw_send pkt) out.
Proof.
  induction out as [|e out IH]; [done|].
  destruct e; cbn; rewrite IH; intuition congruence.
Qed.

Lemma beacon_poll_no_send n i s status :
  radio_sends (beacon_poll n i s status).2 = [].
Proof.
  revert i s. induction n as [|n IH]; intros i s; [done|].
  cbn [beacon_poll]. destruct (s =? TX_FREE); [done|].
  specialize (IH (S i) (u8 (status i))).
  by destruct (beacon_poll n (S i) (u8 (status i)) status).
Qed.

Lemma beacon_step_sent_load ev b :
  let g := ev_globals ev in
  let r := beacon_step ev b in
  let loaded :=
    beacon_load (time_reference_gps g) (xtal_correct g) (beacon_freq_hz g) b in
  (r.1.1 = b \/ r.1.1 = loaded)
  /\ forall sent, In (Lgw_send sent) r.2 -> sent = loaded.
Proof.
  cbv zeta. unfold beacon_step.
  destruct (_ && _); [|by split; [left|]].
  destruct (_ && _); [|by split; [left|]].
  destruct (ev_beacon_send ev =? LGW_HAL_ERROR).
  { split; [by right|]. cbn. intros sent [|[[= ->]|[|[]]]]; done. }
  pose proof (beacon_poll_no_send (Z.to_nat (1500 / BEACON_POLL_MS)) 0
                TX_STATUS_UNKNOWN (ev_tx_status ev)) as Hpoll.
  destruct (beacon_poll _ _ _ _) as [s waits]. cbn [fst snd] in *.
  split; [by right|]. intros sent Hin. apply radio_sends_In in Hin.
  rewrite !radio_sends_app, Hpoll in Hin. cbn in Hin.
  destruct (s =? TX_FREE); by destruct Hin as [|[]].
Qed.

(** X3: the beacon part of a turn of the downstream loop. The flag
    [beacon_next_pps] is cleared when it was set while GPS is active, and
    left as it was otherwise. When moreover the time reference and the
    XTAL correction are valid, exactly one packet is given to the radio:
    the beacon variable completed by the time, the CRC-8 and the corrected
    frequency, which the variable keeps. In every other case nothing is
    sent or printed and the variable is unchanged: a beacon armed while
    the reference or the correction is invalid is dropped silently. *)
Theorem beacon_step_rule (ev : down_event) (beacon_pkt : lgw_pkt_tx_s) :
  let g := ev_globals ev in
  let r := beacon_step ev beacon_pkt in
  r.1.2 = armed_next_pps g && negb (gps_active g)
  /\ if beacon_ready g
     then r.1.1 = beacon_load (time_reference_gps g) (xtal_correct g)
                    (beacon_freq_hz g) beacon_pkt
          /\ radio_sends r.2 = [r.1.1]
     else r.1.1 = beacon_pkt /\ r.2 = [].
Proof.
  cbv zeta. unfold beacon_step, beacon_ready, beacon_due.
  destruct (armed_next_pps (ev_globals ev)), (gps_active (ev_globals ev));
    cbn [andb negb]; try done.
  destruct (gps_ref_valid (ev_globals ev)), (xtal_correct_ok (ev_globals ev));
    cbn [andb]; try done.
  destruct (ev_beacon_send ev =? LGW_HAL_ERROR); [done|].
  pose proof (beacon_poll_no_send (Z.to_nat (1500 / BEACON_POLL_MS)) 0
                TX_STATUS_UNKNOWN (ev_tx_status ev)) as Hpoll.
  destruct (beacon_poll _ _ _ _) as [s waits]. cbn [fst snd] in *.
  repeat split. rewrite !radio_sends_app, Hpoll.
  by destruct (s =? TX_FREE).
Qed.

(** X4: the polling of the TX status after a beacon was given to the
    radio. The loop waits BEACON_POLL_MS = 50 ms before each reading, makes
    at most [n] readings (30 in the thread, 1.5 s), stops at the first
    status that is TX_FREE, and leaves the last status read; it stops
    before [n] readings only on TX_FREE. *)
Theorem beacon_poll_stops (status : nat -> Z) (n i : nat) (s0 : Z) :
  let r := beacon_poll n i s0 status in
  let seen j := match j with O => s0 | S j' => u8 (status (i + j')%nat) end in
  exists k : nat,
    (k <= n)%nat
    /\ r.2 = replicate k (Wait_ms 50)
    /\ r.1 = seen k
    /\ ((k < n)%nat -> seen k = TX_FREE)
    /\ (forall j, (j < k)%nat -> seen j <> TX_FREE).
Proof.
  cbv zeta. revert i s0. induction n as [|n IH]; intros i s0.
  { exists 0%nat. cbn. repeat split; intros; lia. }
  cbn [beacon_poll]. destruct (Z.eqb_spec s0 TX_FREE) as [Hfree|Hbusy].
  { exists 0%nat. cbn. repeat split; try done; intros; lia. }
  destruct (IH (S i) (u8 (status i))) as (k & Hk & Hl & Hs & Hstop & Hbefore).
  destruct (beacon_poll n (S i) (u8 (status i)) status) as [s l].
  cbn [fst snd] in *. exists (S k).
  assert (forall j, match j with
                    | O => u8 (status i)
                    | S j' => u8 (status (S i + j')%nat)
                    end = u8 (status (i + j)%nat)) as Hshift.
  { intros [|j]; [by rewrite Nat.add_0_r|by rewrite Nat.add_succ_r]. }
  rewrite Hshift in Hs, Hstop. repeat split.
  - lia.
  - by rewrite Hl.
  - done.
  - intros Hlt. apply Hstop. lia.
  - intros [|j] Hj; [done|]. rewrite <- Hshift. apply Hbefore. lia.
Qed.

End BeaconStep.

(** ** Every packet that the downstream thread gives to the radio *)

Section RadioPackets.
Context `{HalConsts} `{Parson} `{Extern}.

Lemma beacon_radio_init c stack : beacon_radio (beacon_init c stack).
Proof. by repeat split. Qed.

Lemma beacon_radio_load r x f p :
  beacon_radio p -> beacon_radio (beacon_load r x f p).
Proof. intros Hp. exact Hp. Qed.

Lemma beacon_fixed_bytes_refl p : beacon_fixed_bytes p p.
Proof. by split. Qed.

Lemma beacon_fixed_bytes_load r x f p0 p :
  beacon_fixed_bytes p0 (tx_payload p) ->
  beacon_fixed_bytes p0 (tx_payload (beacon_load r x f p)).
Proof.
  intros [Hlen Hbytes]. rewrite beacon_load_payload. cbv zeta. split.
  - by rewrite !length_insert.
  - intros i H7 H9. rewrite !byte_at_insert_ne by lia. by apply Hbytes.
Qed.

(** The CRC-8 of the first eight bytes of a beacon given to the radio. *)
Lemma beacon_load_crc8 r x f p :
  (8 <= length (tx_payload p))%nat ->
  crc8_ccit (Some (tx_payload (beacon_load r x f p))) 8 = 0.
Proof.
  intros Hlen. pose proof (beacon_crc1_covers_header r x f p Hlen) as Hcrc.
  cbv zeta in Hcrc. set (sent := tx_payload (beacon_load r x f p)) in *.
  assert (length sent = length (tx_payload p)) as Hsent.
  { subst sent. rewrite beacon_load_payload. cbv zeta.
    by rewrite !length_insert. }
  assert (sent !! 7%nat = Some (byte_at sent 7)) as Hat.
  { unfold byte_at. destruct (lookup_lt_is_Some_2 sent 7 ltac:(lia)) as [b Hb].
    rewrite Hb. f_equal. symmetry. by apply nth_lookup_Some. }
  unfold crc8_ccit in *. rewrite (take_S_r _ _ _ Hat), fold_left_app.
  cbn [fold_left]. rewrite Hcrc. apply crc8_residue_step.
Qed.

(** A packet that the parser of a PULL_RESP returns has a header and is
    sent at once or on a counter value. *)
Lemma parse_pull_resp_mode g buff_down l pkt :
  parse_pull_resp g buff_down = Ok l pkt ->
  tx_no_header pkt = false
  /\ (tx_mode pkt = IMMEDIATE \/ tx_mode pkt = TIMESTAMPED).
Proof.
  unfold parse_pull_resp. intros Hp.
  apply bind_Ok_inv in Hp as (? & root_val & ? & _ & Hp & _).
  apply bind_Ok_inv in Hp as (? & o & ? & _ & Hp & _).
  unfold parse_txpk in Hp.
  apply bind_Ok_inv in Hp as (? & [imm cnt] & ? & _ & Hp & _).
  apply bind_Ok_inv in Hp as (? & vf & ? & _ & Hp & _).
  apply bind_Ok_inv in Hp as (? & vr & ? & _ & Hp & _).
  apply bind_Ok_inv in Hp as (? & mf & ? & _ & Hp & _).
  apply bind_Ok_inv in Hp as (? & vs & ? & _ & Hp & _).
  apply bind_Ok_inv in Hp as (? & payload & ? & _ & Hp & _).
  injection Hp as _ <-. cbn. split; [done|]. destruct imm; auto.
Qed.

Lemma datagram_step_sends ev a m pkt :
  In (Lgw_send pkt) (datagram_step ev a m).2 ->
  exists buff_down l, parse_pull_resp (ev_globals ev) buff_down = Ok l pkt.
Proof.
  unfold datagram_step. destruct (ev_recv ev) as [buff_down|]; [|done].
  destruct (_ || _); [done|].
  destruct (byte_at buff_down 3 =? PKT_PULL_ACK).
  - unfold pull_ack_step. destruct (_ && _); [|by intros [|[]]].
    destruct (req_ack a); by intros [|[]].
  - pose proof (pull_resp_step_sends ev buff_down m pkt) as Hs.
    destruct (pull_resp_step ev buff_down m) as [m' out]. cbn [snd] in *.
    intros Hin. destruct (Hs Hin) as [l Hl]. by exists buff_down, l.
Qed.

Lemma radio_inv_iter p0 st ev :
  (8 <= length p0)%nat -> radio_inv p0 st -> radio_inv p0 (down_iter st ev).
Proof.
  intros Hlen (Hradio & Hbytes & Htrace). unfold down_iter.
  pose proof (beacon_step_sent_load ev (beacon_pkt st)) as Hstep.
  destruct (beacon_step ev (beacon_pkt st)) as [[pkt armed] out1].
  pose proof (datagram_step_sends ev (ack st) (meas st)) as Hdgram.
  destruct (datagram_step ev (ack st) (meas st)) as [[a m] out2].
  cbn [fst snd] in *. destruct Hstep as [Hpkt Hout1].
  assert (beacon_radio pkt /\ beacon_fixed_bytes p0 (tx_payload pkt))
    as [Hradio' Hbytes'].
  { destruct Hpkt as [->| ->]; [done|].
    split; [by apply beacon_radio_load|by apply beacon_fixed_bytes_load]. }
  split; [done|]. split; [done|]. cbn [trace]. intros sent Hin.
  apply in_app_or in Hin as [Hin|Hin]; [by apply Htrace|].
  apply in_app_or in Hin as [Hin|Hin].
  - left. apply Hout1 in Hin as ->.
    split; [by apply beacon_radio_load|].
    split; [by apply beacon_fixed_bytes_load|].
    apply beacon_load_crc8. destruct Hbytes as [-> _]. done.
  - right. destruct (Hdgram _ Hin) as (buff_down & l & Hl).
    by apply parse_pull_resp_mode in Hl.
Qed.

End RadioPackets.

Section RadioLoop.
Context `{HalConsts} `{Parson} `{Extern}.

Lemma radio_inv_listen p0 evs st :
  (8 <= length p0)%nat ->
  radio_inv p0 st -> radio_inv p0 (fold_left down_iter evs st).
Proof.
  intros Hlen. revert st. induction evs as [|ev evs IH]; intros st Hst; [done|].
  cbn [fold_left]. by apply IH, radio_inv_iter.
Qed.

Lemma radio_inv_session p0 cfg s st :
  (8 <= length p0)%nat ->
  radio_inv p0 st -> radio_inv p0 (down_session cfg s st).
Proof.
  intros Hlen (Hradio & Hbytes & Htrace). unfold down_session. cbv zeta.
  apply radio_inv_listen; [done|].
  split; [done|]. split; [done|]. cbn [trace]. intros pkt Hin.
  apply in_app_or in Hin as [Hin|[|[]]]; [by apply Htrace|done].
Qed.

Lemma radio_inv_loop p0 cfg ss st :
  (8 <= length p0)%nat ->
  radio_inv p0 st -> radio_inv p0 (thread_down_loop cfg ss st).
Proof.
  intros Hlen. revert st. induction ss as [|s ss IH]; intros st Hst; [done|].
  cbn [thread_down_loop]. destruct (_ || _); [done|].
  destruct (autoquit_due cfg st).
  - destruct Hst as (Hradio & Hbytes & Htrace).
    split; [done|]. split; [done|]. cbn [trace request_exit].
    intros pkt Hin.
    apply in_app_or in Hin as [Hin|[|[]]]; [by apply Htrace|done].
  - by apply IH, radio_inv_session.
Qed.

(** X5: whatever the datagrams received, the GPS and the radio do, every
    packet that [thread_down] gives to the radio is of one of two kinds.
    Either it is a beacon: sent on the PPS (ON_GPS), RF chain 0, 14 dBm,
    LoRa SF9 at 125 kHz, coding rate 4/5, inverted polarity, preamble 6, no
    CRC, no header, 17 bytes; its payload is the one prepared before the
    loop except for byte 7 and bytes 9..12, and the CRC-8 of its first
    eight bytes is zero (byte 7 is the CRC-8 of bytes 0..6). Or it comes
    from a PULL_RESP: it has a header and is sent at once or on a counter
    value. *)
Theorem thread_down_radio_packets (cfg : down_config) (ss : list session)
    (c : coord_s) (stack : lgw_pkt_tx_s) (m : meas_dw) (pkt : lgw_pkt_tx_s) :
  (17 <= length (tx_payload stack))%nat ->
  In (Lgw_send pkt)
     (trace (thread_down_loop cfg ss (down_start c stack m))) ->
  beacon_packet (tx_payload (beacon_init c stack)) pkt
  \/ (tx_no_header pkt = false
      /\ (tx_mode pkt = IMMEDIATE \/ tx_mode pkt = TIMESTAMPED)).
Proof.
  intros Hlen Hin.
  assert (radio_inv (tx_payload (beacon_init c stack)) (down_start c stack m))
    as Hstart.
  { split; [apply beacon_radio_init|].
    split; [apply beacon_fixed_bytes_refl|]. intros ? []. }
  eapply (radio_inv_loop _ cfg ss) in Hstart;
    [|rewrite beacon_init_length; lia].
  destruct Hstart as (_ & _ & Htrace). by apply Htrace.
Qed.

End RadioLoop.

Lemma thread_down_radio_packets_witness :
  (17 <= length (tx_payload txpkt_zero))%nat
  /\ In (Lgw_send
           (beacon_load scenario_tref 1%float 869525000
              (@beacon_init semtech_hal scenario_coord txpkt_zero)))
        (trace (@thread_down_loop semtech_hal scenario_parson scenario_extern
                  autoquit_config [beacon_session] down_state_zero))
  /\ (@beacon_packet semtech_hal
        (tx_payload (@beacon_init semtech_hal scenario_coord txpkt_zero))
        (beacon_load scenario_tref 1%float 869525000
           (@beacon_init semtech_hal scenario_coord txpkt_zero))
      \/ (tx_no_header
            (beacon_load scenario_tref 1%float 869525000
               (@beacon_init semtech_hal scenario_coord txpkt_zero)) = false
          /\ (tx_mode
                (beacon_load scenario_tref 1%float 869525000
                   (@beacon_init semtech_hal scenario_coord txpkt_zero))
              = @IMMEDIATE semtech_hal
              \/ tx_mode
                   (beacon_load scenario_tref 1%float 869525000
                      (@beacon_init semtech_hal scenario_coord txpkt_zero))
                 = @TIMESTAMPED semtech_hal))).
Proof.
  assert (17 <= length (tx_payload txpkt_zero))%nat as Hlen
    by (vm_compute; lia).
  assert (In (Lgw_send
           (beacon_load scenario_tref 1%float 869525000
              (@beacon_init semtech_hal scenario_coord txpkt_zero)))
        (trace (@thread_down_loop semtech_hal scenario_parson scenario_extern
                  autoquit_config [beacon_session] down_state_zero))) as Hin
    by (vm_compute; do 2 right; left; reflexivity).
  split; [exact Hlen|]. split; [exact Hin|].
  exact (@thread_down_radio_packets semtech_hal scenario_parson scenario_extern
           autoquit_config [beacon_session] scenario_coord txpkt_zero
           meas_dw_zero _ Hlen Hin).
Defined.

(** ** The GPS thread *)

Lemma gps_arm_slot cfg utc armed :
  0 < Gps.beacon_period cfg < 2 ^ 32 ->
  0 <= tv_sec utc + 1 ->
  Gps.arm cfg utc armed = true
  <-> (tv_sec utc + 1) mod Gps.beacon_period cfg = Gps.beacon_offset cfg.
Proof.
  intros Hper Hsec. unfold Gps.arm.
  destruct (Z.gtb_spec (Gps.beacon_period cfg) 0); [|lia].
  rewrite Z.rem_mod_nonneg by lia.
  pose proof (Z.mod_pos_bound (tv_sec utc + 1) (Gps.beacon_period cfg)
                ltac:(lia)) as Hmod.
  unfold u32. rewrite (Z.mod_small _ (2 ^ 32)) by lia. apply Z.eqb_eq.
Qed.

Lemma gps_step_flag cfg ev st utc :
  0 < Gps.nb_char ev -> Gps.is_rmc ev = true -> Gps.utc_time ev = Some utc ->
  Gps.beacon_next_pps (Gps.step cfg ev st).1
  = Gps.arm cfg utc (Gps.beacon_next_pps st).
Proof.
  intros Hread Hrmc Hutc. unfold Gps.step.
  destruct (Z.leb_spec (Gps.nb_char ev) 0); [lia|].
  rewrite Hrmc, Hutc. cbn [negb].
  destruct (Gps.trig_tstamp ev); [|done].
  destruct (Gps.synced ev); [|done].
  by destruct (Gps.coord ev) as [[? ?]|].
Qed.

(** X6: the arming of the beacon by [thread_gps]. On an RMC frame for
    which the GPS gives the UTC time [utc] (at or after the second before
    the epoch), with beaconing enabled (0 < beacon_period < 2^32), the
    flag [beacon_next_pps] is set exactly when the next second falls on a
    beacon slot, (utc + 1) mod beacon_period = beacon_offset, and cleared
    otherwise, even when reading the concentrator counter or the
    synchronisation fails afterwards. With beacon_period = 0 the flag is
    left as it was. *)
Theorem gps_arms_on_slot (cfg : Gps.config) (ev : Gps.event) (st : Gps.state)
    (utc : timespec) :
  0 < Gps.nb_char ev -> Gps.is_rmc ev = true -> Gps.utc_time ev = Some utc ->
  0 <= Gps.beacon_period cfg < 2 ^ 32 ->
  0 <= tv_sec utc + 1 ->
  let armed := Gps.beacon_next_pps (Gps.step cfg ev st).1 in
  if Gps.beacon_period cfg =? 0 then armed = Gps.beacon_next_pps st
  else armed = true
       <-> (tv_sec utc + 1) mod Gps.beacon_period cfg = Gps.beacon_offset cfg.
Proof.
  intros Hread Hrmc Hutc Hper Hsec. cbv zeta.
  rewrite (gps_step_flag cfg ev st utc Hread Hrmc Hutc).
  destruct (Z.eqb_spec (Gps.beacon_period cfg) 0) as [Hzero|Hpos].
  - unfold Gps.arm. rewrite Hzero. reflexivity.
  - apply gps_arm_slot; lia.
Qed.

Lemma gps_arms_on_slot_witness :
  0 < Gps.nb_char rmc_event /\ 0 <= Gps.beacon_period gps_config < 2 ^ 32
  /\ (Gps.beacon_next_pps (Gps.step gps_config rmc_event gps_state_zero).1
      = true
      <-> (127 + 1) mod 128 = 0).
Proof.
  assert (0 < Gps.nb_char rmc_event) as Hread by (vm_compute; reflexivity).
  assert (0 <= Gps.beacon_period gps_config < 2 ^ 32) as Hper
    by (vm_compute; split; [discriminate|reflexivity]).
  split; [exact Hread|]. split; [exact Hper|].
  exact (gps_arms_on_slot gps_config rmc_event gps_state_zero
           {| tv_sec := 127; tv_nsec := 0 |} Hread eq_refl eq_refl Hper
           ltac:(vm_compute; discriminate)).
Defined.

Lemma bytes4_of z :
  Z.land 0xFF z + 256 * Z.land 0xFF (Z.shiftr z 8)
  + 65536 * Z.land 0xFF (Z.shiftr z 16)
  + 16777216 * Z.land 0xFF (Z.shiftr z 24) = z mod 2 ^ 32.
Proof.
  rewrite !(Z.land_comm 0xFF). change 0xFF with (Z.ones 8).
  rewrite !Z.land_ones, !Z.shiftr_div_pow2 by lia.
  change (2 ^ 8) with 256. change (2 ^ 16) with 65536.
  change (2 ^ 24) with 16777216.
  pose proof (Z.div_mod z 256 ltac:(lia)) as H0.
  pose proof (Z.mod_pos_bound z 256 ltac:(lia)) as B0.
  pose proof (Z.div_mod (z / 256) 256 ltac:(lia)) as H1.
  pose proof (Z.mod_pos_bound (z / 256) 256 ltac:(lia)) as B1.
  pose proof (Z.div_mod (z / 65536) 256 ltac:(lia)) as H2.
  pose proof (Z.mod_pos_bound (z / 65536) 256 ltac:(lia)) as B2.
  pose proof (Z.div_mod (z / 16777216) 256 ltac:(lia)) as H3.
  pose proof (Z.mod_pos_bound (z / 16777216) 256 ltac:(lia)) as B3.
  replace (z / 16777216) with (z / 256 / 256 / 256) in *
    by (rewrite !Z.div_div by lia; reflexivity).
  replace (z / 65536) with (z / 256 / 256) in *
    by (rewrite Z.div_div by lia; reflexivity).
  apply Z.mod_unique_pos with (q := z / 256 / 256 / 256 / 256); lia.
Qed.

Section BeaconTime.
Context `{HalConsts} `{Parson} `{Extern}.

Lemma beacon_sent_inv ev b sent :
  beacon_sent ev b = Some sent ->
  let g := ev_globals ev in
  beacon_ready g = true
  /\ sent = beacon_load (time_reference_gps g) (xtal_correct g)
              (beacon_freq_hz g) b.
Proof.
  unfold beacon_sent, beacon_step, beacon_ready, beacon_due. cbv zeta.
  destruct (_ && _); [|done]. destruct (_ && _); [|done].
  destruct (ev_beacon_send ev =? LGW_HAL_ERROR).
  { cbn. by intros [= <-]. }
  destruct (beacon_poll _ _ _ _) as [s waits]. cbn. by intros [= <-].
Qed.

(** X7: the GPS thread and the downstream thread together. When an RMC
    frame with the UTC time [utc] arms the beacon, and the downstream
    thread then sends the beacon with the time reference of that frame,
    the four bytes that it writes at 9..12 are, least significant byte
    first, the second utc + 1, and that second is a beacon slot:
    (utc + 1) mod beacon_period = beacon_offset. *)
Theorem beacon_time_is_a_slot (cfg : Gps.config) (gev : Gps.event)
    (gst : Gps.state) (utc : timespec) (ev : down_event)
    (b sent : lgw_pkt_tx_s) :
  0 < Gps.nb_char gev -> Gps.is_rmc gev = true ->
  Gps.utc_time gev = Some utc ->
  0 < Gps.beacon_period cfg < 2 ^ 32 ->
  0 <= tv_sec utc + 1 < 2 ^ 32 ->
  armed_next_pps (ev_globals ev)
  = Gps.beacon_next_pps (Gps.step cfg gev gst).1 ->
  utc_tv_sec (time_reference_gps (ev_globals ev)) = tv_sec utc ->
  (13 <= length (tx_payload b))%nat ->
  beacon_sent ev b = Some sent ->
  let p := tx_payload sent in
  let field_time :=
    byte_at p 9 + 256 * byte_at p 10 + 65536 * byte_at p 11
    + 16777216 * byte_at p 12 in
  field_time = tv_sec utc + 1
  /\ field_time mod Gps.beacon_period cfg = Gps.beacon_offset cfg.
Proof.
  intros Hread Hrmc Hutc Hper Hsec Harmed Href Hlen Hsent. cbv zeta.
  apply beacon_sent_inv in Hsent as [Hready ->]. cbv zeta in Hready.
  destruct (beacon_load_time_bytes (time_reference_gps (ev_globals ev))
              (xtal_correct (ev_globals ev)) (beacon_freq_hz (ev_globals ev))
              b Hlen) as (-> & -> & -> & -> & _).
  rewrite bytes4_of, Href. unfold u32.
  rewrite Z.mod_mod, Z.mod_small by lia. split; [done|].
  apply gps_arm_slot with (armed := Gps.beacon_next_pps gst); [done|lia|].
  rewrite <- (gps_step_flag cfg gev gst utc Hread Hrmc Hutc), <- Harmed.
  unfold beacon_ready, beacon_due in Hready.
  by destruct (armed_next_pps (ev_globals ev)).
Qed.

End BeaconTime.

Lemma beacon_time_is_a_slot_witness :
  0 < Gps.nb_char rmc_event
  /\ 0 < Gps.beacon_period gps_config < 2 ^ 32
  /\ (13 <= length (tx_payload down_state_zero.(beacon_pkt)))%nat
  /\ @beacon_sent semtech_hal scenario_beacon_event
       down_state_zero.(beacon_pkt)
     = Some (beacon_load scenario_tref 1%float 869525000
               down_state_zero.(beacon_pkt))
  /\ take 4 (drop 9 (tx_payload
       (beacon_load scenario_tref 1%float 869525000
          down_state_zero.(beacon_pkt)))) = [128; 0; 0; 0]
  /\ 128 mod Gps.beacon_period gps_config = Gps.beacon_offset gps_config.
Proof.
  assert (0 < Gps.nb_char rmc_event) as Hread by (vm_compute; reflexivity).
  assert (0 < Gps.beacon_period gps_config < 2 ^ 32) as Hper
    by (vm_compute; split; reflexivity).
  assert (13 <= length (tx_payload down_state_zero.(beacon_pkt)))%nat as Hlen
    by (vm_compute; lia).
  assert (@beacon_sent semtech_hal scenario_beacon_event
            down_state_zero.(beacon_pkt)
          = Some (beacon_load scenario_tref 1%float 869525000
                    down_state_zero.(beacon_pkt))) as Hsent
    by (vm_compute; reflexivity).
  split; [exact Hread|]. split; [exact Hper|]. split; [exact Hlen|].
  split; [exact Hsent|]. split; [vm_compute; reflexivity|].
  exact (proj2 (@beacon_time_is_a_slot semtech_hal gps_config rmc_event
                  gps_state_zero {| tv_sec := 127; tv_nsec := 0 |}
                  scenario_beacon_event _ _ Hread eq_refl eq_refl Hper
                  ltac:(vm_compute; split; [discriminate|reflexivity])
                  eq_refl eq_refl Hlen Hsent)).
Defined.

(** ** The validation thread: warming up the XTAL correction *)

Lemma valid_step_fresh now r st :
  0 <= now - systime r <= GPS_REF_MAX_AGE ->
  0 <= Valid.init_cpt st <= XERR_INIT_AVG ->
  let st' := Valid.step now r st in
  Valid.gps_ref_valid st' = true
  /\ Valid.init_cpt st' = Valid.init_cpt st + 1
  /\ if Valid.init_cpt st <? XERR_INIT_AVG then
       Valid.xtal_correct_ok st' = Valid.xtal_correct_ok st
       /\ Valid.xtal_correct st' = Valid.xtal_correct st
       /\ Valid.init_acc st' = (Valid.init_acc st + xtal_err r)%float
     else
       Valid.xtal_correct_ok st' = true
       /\ Valid.xtal_correct st'
          = (double_of_Z XERR_INIT_AVG / Valid.init_acc st)%float.
Proof.
  unfold GPS_REF_MAX_AGE, XERR_INIT_AVG. intros Hage Hcpt. cbv zeta.
  unfold Valid.step, GPS_REF_MAX_AGE, XERR_INIT_AVG, u32.
  destruct (Z.geb_spec (now - systime r) 0); [|lia].
  destruct (Z.leb_spec (now - systime r) 30); [|lia]. cbn [andb].
  destruct (Z.ltb_spec (Valid.init_cpt st) 128).
  { cbn. rewrite Z.mod_small by lia. done. }
  destruct (Z.eqb_spec (Valid.init_cpt st) 128); [|lia].
  cbn. rewrite Z.mod_small by lia. done.
Qed.

(** The accumulation: as long as the counter stays at or below 128. *)
Lemma valid_run_accumulates turns st :
  Forall fresh_turn turns ->
  0 <= Valid.init_cpt st ->
  Valid.init_cpt st + Z.of_nat (length turns) <= XERR_INIT_AVG ->
  let st' := Valid.run turns st in
  Valid.init_cpt st' = Valid.init_cpt st + Z.of_nat (length turns)
  /\ Valid.xtal_correct_ok st' = Valid.xtal_correct_ok st
  /\ Valid.xtal_correct st' = Valid.xtal_correct st
  /\ Valid.init_acc st' = xtal_err_sum (Valid.init_acc st) turns.
Proof.
  intros Hall. revert st. unfold XERR_INIT_AVG.
  induction Hall as [|[now r] turns Ht _ IH]; intros st Hpos Hcpt.
  { cbn. repeat split. lia. }
  cbn [length] in Hcpt. cbv zeta.
  change (Valid.run ((now, r) :: turns) st)
    with (Valid.run turns (Valid.step now r st)).
  destruct (valid_step_fresh now r st Ht) as (_ & Hc & Hrest);
    [unfold XERR_INIT_AVG; lia|].
  unfold XERR_INIT_AVG in Hrest.
  destruct (Z.ltb_spec (Valid.init_cpt st) 128); [|lia].
  destruct Hrest as (Hok & Hx & Hacc).
  destruct (IH (Valid.step now r st)) as (IHc & IHok & IHx & IHacc); [lia..|].
  cbv zeta in *. rewrite IHc, IHok, IHx, IHacc, Hc, Hok, Hx, Hacc.
  cbn [length]. repeat split. lia.
Qed.

(** Once the correction is valid, fresh turns keep it so. *)
Lemma valid_run_tracks turns st :
  Forall fresh_turn turns ->
  Valid.init_cpt st = XERR_INIT_AVG + 1 ->
  Valid.xtal_correct_ok st = true ->
  Valid.init_cpt (Valid.run turns st) = XERR_INIT_AVG + 1
  /\ Valid.xtal_correct_ok (Valid.run turns st) = true.
Proof.
  intros Hall. revert st. unfold XERR_INIT_AVG.
  induction Hall as [|[now r] turns Ht _ IH]; intros st Hcpt Hok; [done|].
  change (Valid.run ((now, r) :: turns) st)
    with (Valid.run turns (Valid.step now r st)).
  unfold fresh_turn, GPS_REF_MAX_AGE in Ht. cbn [fst snd] in Ht.
  apply IH; unfold Valid.step, GPS_REF_MAX_AGE, XERR_INIT_AVG;
    (destruct (Z.geb_spec (now - systime r) 0); [|lia]);
    (destruct (Z.leb_spec (now - systime r) 30); [|lia]); cbn [andb];
    rewrite Hcpt; done.
Qed.

(** X8: the warm-up of the XTAL correction. Starting from the initial
    state, over turns all made while the time reference is at most 30 s
    old, [thread_valid] marks the correction valid at the 129th turn and
    not before (128 turns accumulate the error, the next one computes the
    average), and keeps it valid afterwards; the first correction is 128
    divided by the sum of the errors read in the first 128 turns. *)
Theorem xtal_correction_needs_129_turns (turns : list (Z * tref)) :
  Forall fresh_turn turns ->
  let st := Valid.run turns Valid.start in
  Valid.init_cpt st = Z.min (Z.of_nat (length turns)) 129
  /\ (Valid.xtal_correct_ok st = true <-> (129 <= length turns)%nat)
  /\ (length turns = 129%nat ->
      Valid.xtal_correct st
      = (128 / xtal_err_sum 0 (take 128 turns))%float).
Proof.
  intros Hall. cbv zeta.
  destruct (Nat.le_gt_cases (length turns) 128) as [Hshort|Hlong].
  - destruct (valid_run_accumulates turns Valid.start Hall)
      as (Hc & Hok & _); [done|unfold XERR_INIT_AVG; cbn; lia|].
    cbv zeta in *. rewrite Hc, Hok. cbn. repeat split; try lia; done.
  - assert (Valid.run turns Valid.start
            = Valid.run (drop 128 turns)
                (Valid.run (take 128 turns) Valid.start)) as Hrun.
    { unfold Valid.run. by rewrite <- fold_left_app, take_drop. }
    rewrite Hrun. clear Hrun.
    rewrite <- (take_drop 128 turns) in Hall.
    apply Forall_app in Hall as [Hhead Htail].
    assert (length (take 128 turns) = 128%nat) as Hlen
      by (rewrite length_take; lia).
    destruct (valid_run_accumulates (take 128 turns) Valid.start Hhead)
      as (Hc & Hok & Hx & Hacc); [done|unfold XERR_INIT_AVG; cbn; lia|].
    cbv zeta in *. rewrite Hlen in Hc. cbn in Hc, Hacc.
    set (st128 := Valid.run (take 128 turns) Valid.start) in *.
    destruct (drop 128 turns) as [|[now r] rest] eqn:Hdrop.
    { apply (f_equal length) in Hdrop. rewrite length_drop in Hdrop.
      cbn in Hdrop. lia. }
    apply Forall_cons in Htail as [Ht Hrest].
    change (Valid.run ((now, r) :: rest) st128)
      with (Valid.run rest (Valid.step now r st128)).
    destruct (valid_step_fresh now r st128 Ht) as (_ & Hc' & Hstep);
      [unfold XERR_INIT_AVG; lia|].
    unfold XERR_INIT_AVG in Hstep. rewrite Hc in Hstep, Hc'.
    cbn in Hstep. destruct Hstep as [Hok' Hx'].
    destruct (valid_run_tracks rest (Valid.step now r st128) Hrest)
      as [Hc'' Hok'']; [by rewrite Hc'|done|].
    unfold XERR_INIT_AVG in *. rewrite Hc'', Hok''.
    repeat split; try lia.
    intros Htot. apply (f_equal length) in Hdrop.
    rewrite length_drop in Hdrop. cbn [length] in Hdrop.
    destruct rest; [|cbn in Hdrop; lia].
    change (Valid.run [] (Valid.step now r st128))
      with (Valid.step now r st128).
    by rewrite Hx', Hacc.
Qed.

Lemma xtal_correction_needs_129_turns_witness :
  Valid.xtal_correct_ok
    (Valid.run (replicate 129 (10, scenario_tref)) Valid.start) = true
  /\ Valid.xtal_correct_ok
       (Valid.run (replicate 128 (10, scenario_tref)) Valid.start) = false.
Proof.
  assert (Forall fresh_turn (replicate 129 (10, scenario_tref))) as H129.
  { apply Forall_replicate. vm_compute. split; discriminate. }
  assert (Forall fresh_turn (replicate 128 (10, scenario_tref))) as H128.
  { apply Forall_replicate. vm_compute. split; discriminate. }
  split.
  - apply (proj1 (proj2 (xtal_correction_needs_129_turns _ H129))).
    rewrite length_replicate. lia.
  - destruct (Valid.xtal_correct_ok
                (Valid.run (replicate 128 (10, scenario_tref)) Valid.start))
      eqn:Hok; [|reflexivity].
    apply (proj1 (proj2 (xtal_correction_needs_129_turns _ H128))) in Hok.
    rewrite length_replicate in Hok. lia.
Defined.

Lemma warm_inv_step now r st : warm_inv st -> warm_inv (Valid.step now r st).
Proof.
  unfold warm_inv, Valid.step, XERR_INIT_AVG, u32.
  intros (Hcpt & Hok & Hval & Hzero).
  destruct (_ && _); [|cbn; repeat split; (lia || done)].
  destruct (Z.ltb_spec (Valid.init_cpt st) 128) as [Hlt|Hge].
  { cbn. rewrite Z.mod_small by lia. repeat split; try (lia || done).
    all: rewrite Hok; lia. }
  destruct (Z.eqb_spec (Valid.init_cpt st) 128) as [Heq|Hne].
  { cbn. rewrite Z.mod_small by lia. repeat split; (lia || done). }
  cbn. repeat split; try (lia || done); apply Hok.
Qed.

Lemma warm_inv_reachable st : Valid.reachable st -> warm_inv st.
Proof.
  induction 1 as [|now r st _ IH]; [|by apply warm_inv_step].
  unfold warm_inv, XERR_INIT_AVG. cbn. repeat split; (lia || done).
Qed.

Lemma valid_run_reachable turns st :
  Valid.reachable st -> Valid.reachable (Valid.run turns st).
Proof.
  revert st. induction turns as [|[now r] turns IH]; intros st Hst; [done|].
  apply IH. by constructor.
Qed.

(** A turn is its two critical sections, one after the other. *)
Lemma valid_step_sections now r st :
  Valid.step now r st = Valid.finish (xtal_err r) (Valid.mid now r st).
Proof.
  unfold Valid.step, Valid.finish, Valid.mid. cbv zeta.
  cbn [Valid.gps_ref_valid Valid.init_cpt Valid.init_acc Valid.xtal_correct
       Valid.xtal_correct_ok].
  destruct (_ && _); cbn [negb]; [|done].
  destruct (Valid.init_cpt st <? XERR_INIT_AVG); [done|].
  by destruct (Valid.init_cpt st =? XERR_INIT_AVG).
Qed.

(** X9: the two flags that [thread_valid] writes, as another thread can
    find them. At the end of a turn the counter of the initial averaging
    is within 0..129, the XTAL correction is marked valid exactly when
    the counter is 129, the correction is not marked valid while the
    time reference is marked invalid, and an invalid time reference goes
    with a counter back at zero. The two flags are written in two
    critical sections, so this does not hold of every state: a state
    with the correction marked valid and the time reference marked
    invalid can be found, and only between the two critical sections of
    a turn that finds the time reference older than GPS_REF_MAX_AGE (or
    in the future) after a turn that left both flags valid; that turn
    ends with both flags invalid and the correction back at 1.0. *)
Theorem xtal_valid_outlives_reference (st : Valid.state) :
  Valid.observable st ->
  (Valid.reachable st ->
   0 <= Valid.init_cpt st <= 129
   /\ (Valid.xtal_correct_ok st = true <-> Valid.init_cpt st = 129)
   /\ (Valid.xtal_correct_ok st = true -> Valid.gps_ref_valid st = true)
   /\ (Valid.gps_ref_valid st = false -> Valid.init_cpt st = 0))
  /\ (Valid.xtal_correct_ok st = true ->
      Valid.gps_ref_valid st = true
      \/ exists now r st0,
           Valid.reachable st0
           /\ st = Valid.mid now r st0
           /\ ~ fresh_turn (now, r)
           /\ Valid.gps_ref_valid st0 = true
           /\ Valid.xtal_correct_ok st0 = true
           /\ Valid.step now r st0 = Valid.finish (xtal_err r) st
           /\ Valid.gps_ref_valid (Valid.step now r st0) = false
           /\ Valid.xtal_correct_ok (Valid.step now r st0) = false
           /\ Valid.xtal_correct (Valid.step now r st0) = 1.0%float).
Proof.
  intros Hobs. split; [intros Hreach; by apply warm_inv_reachable|].
  destruct Hobs as [st Hreach|now r st0 Hreach].
  { intros Hok. left. by apply (warm_inv_reachable _ Hreach). }
  cbn [Valid.mid Valid.xtal_correct_ok Valid.gps_ref_valid]. intros Hok.
  destruct (Z.geb_spec (now - systime r) 0) as [Hge|Hlt]; cbn [andb].
  - destruct (Z.leb_spec (now - systime r) GPS_REF_MAX_AGE) as [Hle|Hgt];
      [by left|right].
    exists now, r, st0.
    assert (~ fresh_turn (now, r)) as Hstale
      by (unfold fresh_turn; cbn [fst snd]; lia).
    split; [done|]. split.
    { unfold Valid.mid. cbv zeta.
      destruct (Z.geb_spec (now - systime r) 0); [|lia].
      by destruct (Z.leb_spec (now - systime r) GPS_REF_MAX_AGE); [lia|]. }
    split; [done|].
    split; [by apply (warm_inv_reachable _ Hreach)|].
    split; [done|]. split; [apply valid_step_sections|].
    unfold Valid.step. cbv zeta.
    destruct (Z.geb_spec (now - systime r) 0); [|lia].
    by destruct (Z.leb_spec (now - systime r) GPS_REF_MAX_AGE); [lia|].
  - right. exists now, r, st0.
    assert (~ fresh_turn (now, r)) as Hstale
      by (unfold fresh_turn; cbn [fst snd]; lia).
    split; [done|]. split.
    { unfold Valid.mid. cbv zeta.
      by destruct (Z.geb_spec (now - systime r) 0); [lia|]. }
    split; [done|].
    split; [by apply (warm_inv_reachable _ Hreach)|].
    split; [done|]. split; [apply valid_step_sections|].
    unfold Valid.step. cbv zeta.
    by destruct (Z.geb_spec (now - systime r) 0); [lia|].
Qed.

Lemma xtal_valid_outlives_reference_witness :
  Valid.observable stale_mid_state
  /\ Valid.xtal_correct_ok stale_mid_state = true
  /\ Valid.gps_ref_valid stale_mid_state = false
  /\ exists now r st0,
       Valid.reachable st0
       /\ stale_mid_state = Valid.mid now r st0
       /\ Valid.gps_ref_valid st0 = true
       /\ Valid.xtal_correct_ok (Valid.step now r st0) = false.
Proof.
  assert (Valid.observable stale_mid_state) as Hobs.
  { apply Valid.obs_mid, valid_run_reachable, Valid.reach_start. }
  assert (Valid.xtal_correct_ok stale_mid_state = true) as Hok
    by (vm_compute; reflexivity).
  assert (Valid.gps_ref_valid stale_mid_state = false) as Hinv
    by (vm_compute; reflexivity).
  split; [exact Hobs|]. split; [exact Hok|]. split; [exact Hinv|].
  destruct (proj2 (xtal_valid_outlives_reference stale_mid_state Hobs) Hok)
    as [Hval|(now & r & st0 & Hreach & Hmid & _ & Href & _ & _ & _ & Hend & _)].
  { rewrite Hinv in Hval. discriminate. }
  exists now, r, st0. split; [exact Hreach|]. split; [exact Hmid|].
  split; [exact Href|exact Hend].
Defined.

(** ** The downstream thread: what a PULL_DATA counts *)

Section PullCounters.
Context `{HalConsts} `{Parson} `{Extern}.

Lemma datagram_step_meas ev a m :
  let m' := (datagram_step ev a m).1.2 in
  meas_dw_pull_sent m' = meas_dw_pull_sent m
  /\ meas_dw_ack_rcv m' =
       (if negb (req_ack a) && matching_pull_ack (token_h a) (token_l a) ev
        then u32 (meas_dw_ack_rcv m + 1) else meas_dw_ack_rcv m).
Proof.
  cbv zeta. unfold datagram_step, matching_pull_ack.
  destruct (ev_recv ev) as [b|]; [|by rewrite andb_false_r].
  unfold PROTOCOL_VERSION, PKT_PULL_RESP, PKT_PULL_ACK.
  destruct (Z.ltb_spec (Z.of_nat (length b)) 4) as [Hlen|Hlen];
    destruct (Z.leb_spec 4 (Z.of_nat (length b))) as [Hlen'|Hlen']; try lia;
    cbn [orb andb negb].
  { by rewrite andb_false_r. }
  destruct (Z.eqb_spec (byte_at b 0) 1) as [Hb0|Hb0]; cbn [orb andb negb];
    [|by rewrite andb_false_r].
  destruct (Z.eqb_spec (byte_at b 3) 4) as [Hb3|Hb3]; cbn [orb andb negb].
  - rewrite andb_false_r. cbn [fst snd]. unfold pull_ack_step.
    destruct (byte_at b 1 =? token_h a), (byte_at b 2 =? token_l a);
      cbn [andb]; destruct (req_ack a) eqn:Hr; cbn; rewrite ?Hr; done.
  - destruct (byte_at b 3 =? 3); cbn [andb negb fst snd];
      [|by rewrite andb_false_r].
    unfold pull_resp_step.
    destruct (parse_pull_resp (ev_globals ev) b); cbn;
      by rewrite andb_false_r.
Qed.

Lemma down_iter_meas st ev :
  meas (down_iter st ev) = (datagram_step ev (ack st) (meas st)).1.2.
Proof.
  unfold down_iter.
  destruct (beacon_step ev (beacon_pkt st)) as [[pkt armed] out1].
  destruct (datagram_step ev (ack st) (meas st)) as [[a m] out2]. done.
Qed.

(** The listening loop counts the first matching PULL_ACK and no other. *)
Lemma down_listen_meas evs st :
  let th := token_h (ack st) in
  let tl := token_l (ack st) in
  let st' := fold_left down_iter evs st in
  token_h (ack st') = th /\ token_l (ack st') = tl
  /\ req_ack (ack st')
     = req_ack (ack st) || existsb (matching_pull_ack th tl) evs
  /\ meas_dw_pull_sent (meas st') = meas_dw_pull_sent (meas st)
  /\ meas_dw_ack_rcv (meas st') =
       (if negb (req_ack (ack st)) && existsb (matching_pull_ack th tl) evs
        then u32 (meas_dw_ack_rcv (meas st) + 1)
        else meas_dw_ack_rcv (meas st)).
Proof.
  cbv zeta. revert st. induction evs as [|ev evs IH]; intros st.
  { cbn. by rewrite orb_false_r, andb_false_r. }
  cbn [fold_left existsb].
  destruct (down_iter_ack st ev) as [Hack _].
  pose proof (down_iter_meas st ev) as Hmeas.
  destruct (datagram_step_ack ev (ack st) (meas st)) as (Hth & Htl & Hreq & _).
  destruct (datagram_step_meas ev (ack st) (meas st)) as (Hsent & Hrcv).
  cbv zeta in *. rewrite <- Hack in Hth, Htl, Hreq.
  rewrite <- Hmeas in Hsent, Hrcv.
  destruct (IH (down_iter st ev)) as (IHth & IHtl & IHreq & IHsent & IHrcv).
  rewrite IHth, IHtl, IHreq, IHsent, IHrcv, Hth, Htl, Hreq, Hsent, Hrcv.
  repeat split.
  - by rewrite orb_assoc.
  - destruct (req_ack (ack st)); cbn; [done|].
    by destruct (matching_pull_ack _ _ ev).
Qed.

Lemma down_session_meas cfg s st :
  let st' := down_session cfg s st in
  req_ack (ack st') = session_acked cfg s
  /\ meas_dw_pull_sent (meas st') = u32 (meas_dw_pull_sent (meas st) + 1)
  /\ meas_dw_ack_rcv (meas st') =
       (if session_acked cfg s then u32 (meas_dw_ack_rcv (meas st) + 1)
        else meas_dw_ack_rcv (meas st)).
Proof.
  cbv zeta. unfold down_session, session_acked. cbv zeta.
  match goal with |- context [fold_left down_iter ?evs ?st1] =>
    destruct (down_listen_meas evs st1) as (_ & _ & Hreq & Hsent & Hrcv)
  end.
  cbv zeta in *. by rewrite Hreq, Hsent, Hrcv.
Qed.

(** X10: what the turns of the downstream loop add to the two counters
    of the PULL_DATA handshake. Over turns made one after the other, each
    turn adds one to [dw_pull_sent], and one to [dw_ack_rcv] exactly when
    a matching PULL_ACK was received in it, however many PULL_ACK,
    duplicates or out-of-sync replies that turn received (both modulo
    2^32), from whatever values the counters have at the start. Both are
    globals that [main] puts back to zero at every statistics interval:
    nothing is said across such a reset, nor of one counter against the
    other. *)
Theorem pull_data_and_acks_counted (cfg : down_config) (ss : list session)
    (st : down_state) :
  0 <= meas_dw_pull_sent (meas st) < 2 ^ 32 ->
  0 <= meas_dw_ack_rcv (meas st) < 2 ^ 32 ->
  let st' := sessions_run cfg ss st in
  let acked := List.filter (session_acked cfg) ss in
  meas_dw_pull_sent (meas st')
  = u32 (meas_dw_pull_sent (meas st) + Z.of_nat (length ss))
  /\ meas_dw_ack_rcv (meas st')
     = u32 (meas_dw_ack_rcv (meas st) + Z.of_nat (length acked)).
Proof.
  intros Hsent Hrcv. cbv zeta.
  revert st Hsent Hrcv. unfold sessions_run.
  induction ss as [|s ss IH]; intros st Hsent Hrcv.
  { cbn. unfold u32. rewrite !Z.add_0_r, !Z.mod_small by lia. done. }
  cbn [fold_left List.filter].
  destruct (down_session_meas cfg s st) as (_ & Hs1 & Hr1). cbv zeta in *.
  destruct (IH (down_session cfg s st)) as [IHs IHr].
  { rewrite Hs1. apply Z.mod_pos_bound. lia. }
  { rewrite Hr1. destruct (session_acked cfg s); [|done].
    apply Z.mod_pos_bound. lia. }
  rewrite IHs, IHr, Hs1, Hr1. unfold u32. split.
  - rewrite Zplus_mod_idemp_l. f_equal. cbn [length]. lia.
  - destruct (session_acked cfg s); [|done].
    rewrite Zplus_mod_idemp_l. f_equal. cbn [length]. lia.
Qed.

End PullCounters.

Lemma pull_data_and_acks_counted_witness :
  0 <= meas_dw_pull_sent (meas down_state_zero) < 2 ^ 32
  /\ meas_dw_pull_sent
       (meas (@sessions_run semtech_hal scenario_parson scenario_extern
                autoquit_config [acked_session; silent_session]
                down_state_zero)) = 2
  /\ meas_dw_ack_rcv
       (meas (@sessions_run semtech_hal scenario_parson scenario_extern
                autoquit_config [acked_session; silent_session]
                down_state_zero)) = 1.
Proof.
  assert (0 <= meas_dw_pull_sent (meas down_state_zero) < 2 ^ 32) as Hsent
    by (vm_compute; split; [discriminate|reflexivity]).
  assert (0 <= meas_dw_ack_rcv (meas down_state_zero) < 2 ^ 32) as Hrcv
    by (vm_compute; split; [discriminate|reflexivity]).
  split; [exact Hsent|].
  pose proof (@pull_data_and_acks_counted semtech_hal scenario_parson
                scenario_extern autoquit_config
                [acked_session; silent_session] down_state_zero Hsent Hrcv)
    as (Hs & Hr).
  split; [exact Hs|exact Hr].
Defined.

(** ** The downstream thread: a keepalive time that is not positive *)

Section Keepalive.
Context `{HalConsts} `{Parson} `{Extern}.

Lemma down_heard_none cfg evs :
  keepalive_time cfg <= 0 -> down_heard (keepalive_time cfg) 0 evs = [].
Proof.
  intros Hk. destruct evs as [|ev evs]; [done|]. cbn.
  by destruct (Z.ltb_spec 0 (keepalive_time cfg)); [lia|].
Qed.

(** X11: with [keepalive_time] at zero or below, a turn of the downstream
    loop sends its PULL_DATA and comes back without calling [recv]: no
    beacon is sent, no PULL_ACK or PULL_RESP is ever read, and the turn
    counts as not acknowledged. So with [autoquit_threshold] > 0 the
    thread asks for the shutdown as soon as it has made
    [autoquit_threshold] turns, whatever the server sends. *)
Theorem zero_keepalive_never_listens (cfg : down_config) :
  keepalive_time cfg <= 0 ->
  (forall s st,
      session_acked cfg s = false
      /\ trace (down_session cfg s st)
         = trace st
           ++ [Udp_send (pull_data cfg (u8 (ses_token s).1)
                           (u8 (ses_token s).2))]
      /\ beacon_pkt (down_session cfg s st) = beacon_pkt st
      /\ meas_dw_ack_rcv (meas (down_session cfg s st))
         = meas_dw_ack_rcv (meas st))
  /\ (forall ss st,
         0 < autoquit_threshold cfg < 2 ^ 32 ->
         Forall (fun s => ses_signal s = false) ss ->
         exit_sig st = false -> autoquit_cnt (ack st) = 0 ->
         autoquit_threshold cfg < Z.of_nat (length ss) ->
         exit_sig (thread_down_loop cfg ss st) = true).
Proof.
  intros Hk.
  assert (forall s, session_acked cfg s = false) as Hquiet.
  { intros s. unfold session_acked. by rewrite down_heard_none. }
  split.
  - intros s st. split; [apply Hquiet|].
    unfold down_session. cbv zeta. by rewrite down_heard_none.
  - intros ss st [Hpos Hu32] Hsig Hexit Hcnt Hlen.
    apply (thread_down_loop_reaches cfg Hpos Hu32); [done|done|lia|].
    exists (Z.to_nat (autoquit_threshold cfg)). split; [lia|].
    rewrite quiet_after_unacked by (apply Forall_forall; intros; apply Hquiet).
    rewrite length_take. lia.
Qed.

End Keepalive.

Lemma zero_keepalive_never_listens_witness :
  keepalive_time hasty_config <= 0
  /\ session_acked hasty_config acked_session = false
  /\ exit_sig
       (@thread_down_loop semtech_hal scenario_parson scenario_extern
          hasty_config [acked_session; acked_session; acked_session]
          down_state_zero) = true.
Proof.
  assert (keepalive_time hasty_config <= 0) as Hk by (vm_compute; discriminate).
  split; [exact Hk|].
  pose proof (@zero_keepalive_never_listens semtech_hal scenario_parson
                scenario_extern hasty_config Hk) as [Hturn Hloop].
  split; [exact (proj1 (Hturn acked_session down_state_zero))|].
  apply Hloop.
  - vm_compute. split; reflexivity.
  - repeat constructor.
  - reflexivity.
  - reflexivity.
  - vm_compute. reflexivity.
Defined.

(** ** The downstream thread: which PULL_RESP reach the radio *)

Section Accepted.
Context `{HalConsts} `{Parson} `{Extern}.

Lemma parse_timing_ok g o l t :
  parse_timing g o = Ok l t -> timing_ok g o = true.
Proof.
  unfold parse_timing, timing_ok.
  destruct (json_object_get_boolean o "imme" =? 1); [done|].
  destruct (json_object_get_value o "tmst") as [val|].
  { intros _. apply orb_true_iff. left. apply orb_true_iff. right.
    by apply bool_decide_eq_true_2. }
  cbn [orb]. rewrite bool_decide_eq_false_2 by (by intros [? ?]). cbn [orb].
  intros Hp.
  apply bind_Ok_inv in Hp as (? & str & ? & Hstr & Hp & _).
  apply mandatory_Ok_inv in Hstr as [-> _].
  apply bind_Ok_inv in Hp as (? & local_ref & ? & Href & Hp & _).
  destruct (gps_active g); [|done]. destruct (gps_ref_valid g); [|done].
  injection Href as _ <-.
  apply bind_Ok_inv in Hp as (? & six & ? & Hscan & Hp & _).
  apply mandatory_Ok_inv in Hscan as [-> _].
  destruct six as [[[[[y0 y1] y2] y3] y4] y5].
  apply bind_Ok_inv in Hp as (? & count_us & ? & Hcnt & _).
  apply mandatory_Ok_inv in Hcnt as [-> _].
  cbn [andb]. by apply bool_decide_eq_true_2.
Qed.

Lemma parse_modu_ok o l mf :
  parse_modu o = Ok l mf ->
  modu_ok o = true
  /\ match json_object_get_string o "modu" with
     | Some modu =>
         if String.eqb modu "LORA" then
           m_modulation mf = MOD_LORA
           /\ m_preamble mf = parse_prea o MIN_LORA_PREAMB STD_LORA_PREAMB
         else
           m_modulation mf = MOD_FSK
           /\ m_preamble mf = parse_prea o MIN_FSK_PREAMB STD_FSK_PREAMB
     | None => False
     end.
Proof.
  unfold parse_modu, modu_ok. intros Hp.
  apply bind_Ok_inv in Hp as (? & modu & ? & Hmodu & Hp & _).
  apply mandatory_Ok_inv in Hmodu as [-> _].
  destruct (String.eqb modu "LORA").
  - unfold parse_lora in Hp. unfold lora_ok.
    apply bind_Ok_inv in Hp as (? & datr & ? & Hdatr & Hp & _).
    apply mandatory_Ok_inv in Hdatr as [-> _].
    apply bind_Ok_inv in Hp as (? & [sf bw] & ? & Hscan & Hp & _).
    apply mandatory_Ok_inv in Hscan as [-> _].
    apply bind_Ok_inv in Hp as (? & dr & ? & Hdr & Hp & _).
    apply bind_Ok_inv in Hp as (? & b & ? & Hb & Hp & _).
    apply bind_Ok_inv in Hp as (? & codr & ? & Hcodr & Hp & _).
    apply mandatory_Ok_inv in Hcodr as [-> _].
    apply bind_Ok_inv in Hp as (? & cr & ? & Hcr & Hp & _).
    injection Hp as _ <-. cbn [fst snd] in *. split; [|done].
    assert (existsb (Z.eqb sf) [7; 8; 9; 10; 11; 12] = true) as ->.
    { unfold lora_datarate in Hdr. cbn.
      repeat (destruct (sf =? _); [done|]). done. }
    assert (existsb (Z.eqb bw) [125; 250; 500] = true) as ->.
    { unfold lora_bandwidth in Hb. cbn.
      repeat (destruct (bw =? _); [done|]). done. }
    unfold lora_coderate in Hcr. cbn.
    repeat (destruct (String.eqb codr _); [done|]). done.
  - destruct (String.eqb modu "FSK"); [|done].
    unfold parse_fsk in Hp. unfold fsk_ok.
    apply bind_Ok_inv in Hp as (? & vd & ? & Hd & Hp & _).
    apply mandatory_Ok_inv in Hd as [-> _].
    apply bind_Ok_inv in Hp as (? & vf & ? & Hf & Hp & _).
    apply mandatory_Ok_inv in Hf as [-> _].
    injection Hp as _ <-. split; [|done].
    by rewrite !bool_decide_eq_true_2.
Qed.

(** What an accepted [txpk] object went through. *)
Lemma parse_txpk_parts g o l pkt :
  parse_txpk g o = Ok l pkt ->
  exists lm mf str,
    txpk_wellformed g o = true
    /\ parse_modu o = Ok lm mf
    /\ json_object_get_string o "data" = Some str
    /\ tx_modulation pkt = m_modulation mf
    /\ tx_preamble pkt = m_preamble mf
    /\ tx_payload pkt = decoded_payload str.
Proof.
  unfold parse_txpk. intros Hp.
  apply bind_Ok_inv in Hp as (? & [imm cnt] & ? & Htim & Hp & _).
  apply bind_Ok_inv in Hp as (? & vf & ? & Hvf & Hp & _).
  apply mandatory_Ok_inv in Hvf as [Hvf _].
  apply bind_Ok_inv in Hp as (? & vr & ? & Hvr & Hp & _).
  apply mandatory_Ok_inv in Hvr as [Hvr _].
  apply bind_Ok_inv in Hp as (lm & mf & ? & Hmf & Hp & _).
  apply bind_Ok_inv in Hp as (? & vs & ? & Hvs & Hp & _).
  apply mandatory_Ok_inv in Hvs as [Hvs _].
  apply bind_Ok_inv in Hp as (? & payload & ? & Hdata & Hp & _).
  injection Hp as _ <-.
  destruct (json_object_get_string o "data") as [str|] eqn:Hstr;
    [|unfold parse_data in Hdata; by rewrite Hstr in Hdata].
  rewrite (parse_data_accepts o _ str Hstr) in Hdata. injection Hdata as _ <-.
  exists lm, mf, str. repeat split; try done.
  unfold txpk_wellformed, txpk_fields_ok.
  rewrite (parse_timing_ok _ _ _ _ Htim), Hvf, Hvr, Hvs, Hstr.
  rewrite (proj1 (parse_modu_ok _ _ _ Hmf)).
  by rewrite !bool_decide_eq_true_2.
Qed.

Lemma parse_pull_resp_accepted g buff_down :
  if pull_resp_accepted g buff_down
  then exists l pkt, parse_pull_resp g buff_down = Ok l pkt
  else exists l, parse_pull_resp g buff_down = Abort l.
Proof.
  unfold pull_resp_accepted, parse_pull_resp.
  destruct (json_parse_string_with_comments _) as [root_val|];
    [|by eexists].
  cbn [mandatory]. rewrite ret_bind.
  destruct (json_object_get_object _ _) as [o|]; [|by eexists].
  cbn [mandatory]. rewrite ret_bind.
  destruct (txpk_wellformed g o) eqn:Hwf.
  - apply parse_txpk_accepts in Hwf as (l1 & t & vs & str & pkt & _ & _ & _ & Hp).
    by eexists _, _.
  - destruct (parse_txpk g o) as [l pkt|l] eqn:Hp; [|by eexists].
    apply parse_txpk_parts in Hp as (? & ? & ? & Hwf' & _). congruence.
Qed.

Lemma radio_sends_print l : radio_sends (map print l) = [].
Proof. by induction l. Qed.

(** X12: which PULL_RESP reach the radio. When the body is a JSON text
    whose [txpk] object is well formed (one usable timing mode, the
    members freq, rfch, modu, size and data, and the members of the
    modulation), exactly one packet is given to the radio, the datagram is
    counted in [dw_dgram_rcv], and one of [nb_tx_ok] and [nb_tx_fail] grows
    by one according to what [lgw_send] returns. In every other case
    nothing is given to the radio and no counter moves. *)
Theorem pull_resp_sent_iff_wellformed (ev : down_event) (buff_down : list Z)
    (m : meas_dw) :
  let r := pull_resp_step ev buff_down m in
  if pull_resp_accepted (ev_globals ev) buff_down then
    length (radio_sends r.2) = 1%nat
    /\ meas_dw_dgram_rcv r.1 = u32 (meas_dw_dgram_rcv m + 1)
    /\ (if ev_lgw_send ev =? LGW_HAL_ERROR
        then meas_nb_tx_fail r.1 = u32 (meas_nb_tx_fail m + 1)
             /\ meas_nb_tx_ok r.1 = meas_nb_tx_ok m
        else meas_nb_tx_ok r.1 = u32 (meas_nb_tx_ok m + 1)
             /\ meas_nb_tx_fail r.1 = meas_nb_tx_fail m)
  else radio_sends r.2 = [] /\ r.1 = m.
Proof.
  cbv zeta. pose proof (parse_pull_resp_accepted (ev_globals ev) buff_down) as Hp.
  unfold pull_resp_step.
  destruct (pull_resp_accepted (ev_globals ev) buff_down).
  - destruct Hp as (l & pkt & ->). cbn [fst snd].
    rewrite !radio_sends_app, radio_sends_print.
    destruct (ev_lgw_send ev =? LGW_HAL_ERROR); done.
  - destruct Hp as (l & ->). cbn [fst snd].
    by rewrite radio_sends_app, radio_sends_print.
Qed.

End Accepted.

Section AcceptedShape.
Context `{HalConsts} `{Parson} `{Extern}.

Lemma parse_prea_max o min std :
  parse_prea o min std =
    match json_object_get_value o "prea" with
    | Some val => u16 (Z.max min (double_to_i32 (json_value_get_number val)))
    | None => u16 std
    end.
Proof.
  unfold parse_prea. destruct (json_object_get_value o "prea") as [val|]; [|done].
  cbv zeta. destruct (Z.geb_spec (double_to_i32 (json_value_get_number val)) min).
  - by rewrite Z.max_r by lia.
  - by rewrite Z.max_l by lia.
Qed.

Lemma decoded_payload_length str : length (decoded_payload str) = 256%nat.
Proof.
  unfold decoded_payload. pose proof (b64_to_bin_fits str 256) as Hfit.
  rewrite length_app, length_drop. cbn [tx_payload txpkt_zero].
  rewrite length_replicate. lia.
Qed.

(** X13: the preamble and the payload array of a packet that the parser
    of a PULL_RESP accepts. Without a [prea] member the preamble is the
    standard one (8 for LoRa, 4 for FSK). With one, it is the larger of
    the minimum (6 for LoRa, 3 for FSK) and the value read as an [int],
    stored on 16 bits: the minimum is enforced for every value below
    65536, and a larger value wraps around. The payload array always has
    its 256 bytes. *)
Theorem accepted_frame_preamble (g : down_globals) (o : JSON_Object)
    (l : list log_line) (pkt : lgw_pkt_tx_s) :
  parse_txpk g o = Ok l pkt ->
  let lora := tx_modulation pkt =? MOD_LORA in
  let min := if lora then 6 else 3 in
  let std := if lora then 8 else 4 in
  match json_object_get_value o "prea" with
  | None => tx_preamble pkt = std
  | Some val =>
      let i := double_to_i32 (json_value_get_number val) in
      tx_preamble pkt = u16 (Z.max min i)
      /\ (i < 65536 -> tx_preamble pkt = Z.max min i)
  end
  /\ length (tx_payload pkt) = 256%nat.
Proof.
  intros Hp. cbv zeta.
  apply parse_txpk_parts in Hp
    as (lm & mf & str & _ & Hmf & _ & Hmod & Hprea & Hpay).
  rewrite Hpay, Hprea, Hmod. split; [|apply decoded_payload_length].
  apply parse_modu_ok in Hmf as [_ Hmf].
  destruct (json_object_get_string o "modu") as [modu|]; [|done].
  assert (forall min, 0 <= min < 65536 ->
            forall z, z < 65536 -> u16 (Z.max min z) = Z.max min z) as Hfit.
  { intros min Hmin z Hz. unfold u16. apply Z.mod_small. lia. }
  destruct (String.eqb modu "LORA"); destruct Hmf as [-> ->];
    rewrite parse_prea_max.
  - rewrite Z.eqb_refl.
    destruct (json_object_get_value o "prea") as [val|]; [|done].
    split; [done|]. apply Hfit. unfold MIN_LORA_PREAMB. lia.
  - destruct (Z.eqb_spec MOD_FSK MOD_LORA) as [Heq|_];
      [by destruct hal_mod_distinct|].
    destruct (json_object_get_value o "prea") as [val|]; [|done].
    split; [done|]. apply Hfit. unfold MIN_FSK_PREAMB. lia.
Qed.

End AcceptedShape.

Lemma accepted_frame_preamble_witness :
  exists l pkt,
    @parse_txpk semtech_hal scenario_parson scenario_extern quiet_globals
      short_preamble_members = Ok l pkt
    /\ tx_preamble pkt = 6
    /\ length (tx_payload pkt) = 256%nat.
Proof.
  eexists _, _.
  match goal with
  | |- ?lhs = ?rhs /\ _ =>
      assert (lhs = rhs) as Hp by (vm_compute; reflexivity)
  end.
  split; [exact Hp|].
  pose proof (@accepted_frame_preamble semtech_hal scenario_parson
                scenario_extern _ _ _ _ Hp) as [Hprea Hlen].
  split; [exact (proj1 Hprea)|exact Hlen].
Defined.

(** ** The upstream thread: a batch of packets *)

Lemma u32_range z : 0 <= u32 z < 2 ^ 32.
Proof. unfold u32. apply Z.mod_pos_bound. lia. Qed.

Lemma u32_fits z : 0 <= z < 2 ^ 32 -> u32 z = z.
Proof. apply Z.mod_small. Qed.

Lemma u32_add_l a b : u32 (u32 a + b) = u32 (a + b).
Proof. unfold u32. apply Zplus_mod_idemp_l. Qed.

Section UpBatch.
Context `{HalConsts} `{Extern}.

Lemma up_filter_meas cfg p m :
  let m' := (up_filter cfg p m).1.1 in
  let pass := forwarding_flag cfg (classify p) in
  (up_filter cfg p m).1.2 = pass
  /\ meas_nb_rx_rcv m' = u32 (meas_nb_rx_rcv m + 1)
  /\ meas_nb_rx_ok m' =
       (if bool_decide (classify p = Crc_ok)
        then u32 (meas_nb_rx_ok m + 1) else meas_nb_rx_ok m)
  /\ meas_nb_rx_bad m' =
       (if bool_decide (classify p = Crc_bad)
        then u32 (meas_nb_rx_bad m + 1) else meas_nb_rx_bad m)
  /\ meas_nb_rx_nocrc m' =
       (if bool_decide (classify p = No_crc)
        then u32 (meas_nb_rx_nocrc m + 1) else meas_nb_rx_nocrc m)
  /\ meas_up_pkt_fwd m' =
       (if pass then u32 (meas_up_pkt_fwd m + 1) else meas_up_pkt_fwd m)
  /\ meas_up_payload_byte m' =
       (if pass then u32 (meas_up_payload_byte m + rx_size p)
        else meas_up_payload_byte m)
  /\ meas_up_network_byte m' = meas_up_network_byte m
  /\ meas_up_dgram_sent m' = meas_up_dgram_sent m
  /\ meas_up_ack_rcv m' = meas_up_ack_rcv m.
Proof.
  cbv zeta. unfold up_filter, classify.
  destruct (Z.eqb_spec (rx_status p) STAT_CRC_OK) as [Hs|Hs1].
  { destruct cfg as [[] ? ?]; cbn; repeat split. }
  destruct (Z.eqb_spec (rx_status p) STAT_CRC_BAD) as [Hs|Hs2].
  { destruct cfg as [? [] ?]; cbn; repeat split. }
  destruct (Z.eqb_spec (rx_status p) STAT_NO_CRC) as [Hs|Hs3].
  { destruct cfg as [? ? []]; cbn; repeat split. }
  cbn. repeat split.
Qed.




Lemma up_filter_fits cfg p m :
  meas_up_fits m -> meas_up_fits (up_filter cfg p m).1.1.
Proof.
  intros (H1 & H2 & H3 & H4 & H5 & H6 & H7 & H8 & H9).
  destruct (up_filter_meas cfg p m)
    as (_ & E1 & E2 & E3 & E4 & E5 & E6 & E7 & E8 & E9).
  cbv zeta in *. unfold meas_up_fits.
  rewrite E1, E2, E3, E4, E5, E6, E7, E8, E9.
  repeat split;
    repeat match goal with |- context [if ?b then _ else _] => destruct b end;
    try apply u32_range; lia.
Qed.

Lemma count_step (b : bool) x n :
  0 <= x < 2 ^ 32 ->
  u32 ((if b then u32 (x + 1) else x) + Z.of_nat n)
  = u32 (x + Z.of_nat (if b then S n else n)).
Proof.
  intros Hx. destruct b; [|done]. rewrite u32_add_l. f_equal. lia.
Qed.

(** X14: a batch of received packets that the upstream loop goes through
    without ending the process. The objects written in the datagram are
    the serialisations of the packets that the filter lets through, in
    the order of the batch, after those already there; [rx_rcv] grows by
    the size of the batch, [rx_ok], [rx_bad] and [rx_nocrc] by the number
    of packets of each status, [up_pkt_fwd] by the number of packets let
    through and [up_payload_byte] by the sum of their sizes (all modulo
    2^32). *)
Theorem up_batch_counters (cfg : up_config) (ctx : up_context)
    (rxpkt : list lgw_pkt_rx_s) (m m' : meas_up)
    (objs objs' : list rx_object) (printed : list out_event) :
  meas_up_fits m ->
  up_packets cfg ctx rxpkt m objs = (printed, m', Done objs') ->
  (exists new,
      objs' = objs ++ new
      /\ Forall2 (fun p o => serialize_rxpk ctx p = Done o)
           (forwarded cfg rxpkt) new)
  /\ meas_nb_rx_rcv m' = u32 (meas_nb_rx_rcv m + Z.of_nat (length rxpkt))
  /\ meas_nb_rx_ok m'
     = u32 (meas_nb_rx_ok m + Z.of_nat (length (with_status Crc_ok rxpkt)))
  /\ meas_nb_rx_bad m'
     = u32 (meas_nb_rx_bad m + Z.of_nat (length (with_status Crc_bad rxpkt)))
  /\ meas_nb_rx_nocrc m'
     = u32 (meas_nb_rx_nocrc m + Z.of_nat (length (with_status No_crc rxpkt)))
  /\ meas_up_pkt_fwd m'
     = u32 (meas_up_pkt_fwd m + Z.of_nat (length (forwarded cfg rxpkt)))
  /\ meas_up_payload_byte m'
     = u32 (meas_up_payload_byte m + payload_bytes (forwarded cfg rxpkt)).
Proof.
  revert m objs printed.
  induction rxpkt as [|p rest IH]; intros m objs printed Hfit Hrun.
  { cbn in Hrun. injection Hrun as <- <- <-.
    destruct Hfit as (H1 & H2 & H3 & H4 & H5 & H6 & _).
    cbn. rewrite !Z.add_0_r, !u32_fits by done.
    split; [|done]. exists []. by rewrite app_nil_r. }
  cbn [up_packets] in Hrun.
  pose proof (up_filter_fits cfg p m Hfit) as Hfit1.
  destruct (up_filter_meas cfg p m)
    as (Hpass & E1 & E2 & E3 & E4 & E5 & E6 & _).
  destruct Hfit as (H1 & H2 & H3 & H4 & H5 & H6 & _).
  destruct (up_filter cfg p m) as [[m1 pass] pr]. cbn [fst snd] in *.
  cbv zeta in *. subst pass.
  unfold forwarded, with_status. cbn [List.filter length].
  fold (forwarded cfg rest). fold (with_status Crc_ok rest).
  fold (with_status Crc_bad rest). fold (with_status No_crc rest).
  assert (forall printed' objs1,
            up_packets cfg ctx rest m1 objs1 = (printed', m', Done objs') ->
            (exists new, objs' = objs1 ++ new
               /\ Forall2 (fun p o => serialize_rxpk ctx p = Done o)
                    (forwarded cfg rest) new)
            /\ meas_nb_rx_rcv m'
               = u32 (meas_nb_rx_rcv m + Z.of_nat (S (length rest)))
            /\ meas_nb_rx_ok m'
               = u32 (meas_nb_rx_ok m + Z.of_nat
                   (if bool_decide (classify p = Crc_ok)
                    then S (length (with_status Crc_ok rest))
                    else length (with_status Crc_ok rest)))
            /\ meas_nb_rx_bad m'
               = u32 (meas_nb_rx_bad m + Z.of_nat
                   (if bool_decide (classify p = Crc_bad)
                    then S (length (with_status Crc_bad rest))
                    else length (with_status Crc_bad rest)))
            /\ meas_nb_rx_nocrc m'
               = u32 (meas_nb_rx_nocrc m + Z.of_nat
                   (if bool_decide (classify p = No_crc)
                    then S (length (with_status No_crc rest))
                    else length (with_status No_crc rest)))
            /\ meas_up_pkt_fwd m'
               = u32 (meas_up_pkt_fwd m + Z.of_nat
                   (if forwarding_flag cfg (classify p)
                    then S (length (forwarded cfg rest))
                    else length (forwarded cfg rest)))
            /\ meas_up_payload_byte m'
               = u32 (meas_up_payload_byte m
                      + ((if forwarding_flag cfg (classify p)
                          then rx_size p else 0)
                         + payload_bytes (forwarded cfg rest)))) as Hrest.
  { intros printed' objs1 Hrun'.
    destruct (IH m1 objs1 printed' Hfit1 Hrun')
      as (Hnew & R1 & R2 & R3 & R4 & R5 & R6).
    split; [done|].
    rewrite R1, R2, R3, R4, R5, R6, E1, E2, E3, E4, E5, E6.
    rewrite !count_step by done. rewrite u32_add_l.
    repeat split; try (f_equal; lia).
    destruct (forwarding_flag cfg (classify p)); [|done].
    rewrite u32_add_l. f_equal. lia. }
  destruct (forwarding_flag cfg (classify p)) eqn:Hflag.
  - destruct (serialize_rxpk ctx p) as [o|l] eqn:Hser; [|done].
    destruct (up_packets cfg ctx rest m1 (objs ++ [o]))
      as [[printed' m2] r] eqn:Hrun'.
    injection Hrun as _ -> ->.
    destruct (Hrest _ _ Hrun')
      as ((new & Hobjs & Hall) & R1 & R2 & R3 & R4 & R5 & R6).
    split.
    { exists (o :: new). split; [by rewrite Hobjs, <- app_assoc|].
      by constructor. }
    rewrite R1, R2, R3, R4, R5, R6. repeat split.
    all: match goal with
         | |- context [bool_decide ?P] => by destruct (bool_decide P)
         | _ => done
         end.
  - destruct (up_packets cfg ctx rest m1 objs) as [[printed' m2] r] eqn:Hrun'.
    injection Hrun as _ -> ->.
    destruct (Hrest _ _ Hrun')
      as (Hnew & R1 & R2 & R3 & R4 & R5 & R6).
    split; [done|].
    rewrite R1, R2, R3, R4, R5, R6. repeat split.
    all: match goal with
         | |- context [bool_decide ?P] => by destruct (bool_decide P)
         | _ => done
         end.
Qed.

End UpBatch.

Lemma up_batch_counters_witness :
  meas_up_fits meas_up_zero
  /\ exists printed m' objs',
       @up_packets semtech_hal scenario_extern default_filter no_gps_context
         [rx_packet 0x10; bad_crc_packet; rx_packet 0x10] meas_up_zero []
       = (printed, m', Done objs')
       /\ meas_nb_rx_rcv m' = 3 /\ meas_nb_rx_bad m' = 1
       /\ meas_up_pkt_fwd m' = 2 /\ meas_up_payload_byte m' = 8.
Proof.
  assert (meas_up_fits meas_up_zero) as Hfit
    by (vm_compute; repeat split; (discriminate || reflexivity)).
  split; [exact Hfit|]. eexists _, _, _.
  match goal with
  | |- ?lhs = ?rhs /\ _ =>
      assert (lhs = rhs) as Hrun by (vm_compute; reflexivity)
  end.
  split; [exact Hrun|].
  pose proof (@up_batch_counters semtech_hal scenario_extern _ _ _ _ _ _ _ _
                Hfit Hrun) as (_ & R1 & _ & R3 & _ & R5 & R6).
  split; [exact R1|]. split; [exact R3|]. split; [exact R5|exact R6].
Defined.

(** ** The upstream thread: the members of an [rxpk] object *)

Section RxpkObject.
Context `{HalConsts} `{Extern}.

Lemma serialize_modu_spec p :
  if modu_known p then
    exists o, serialize_modu p = Done o
              /\ map fst o =
                   (if rx_modulation p =? MOD_LORA
                    then ["modu"; "datr"; "codr"; "lsnr"]%string
                    else ["modu"; "datr"]%string)
  else exists text, serialize_modu p = Exit [Msg ERROR text].
Proof.
  unfold modu_known, serialize_modu.
  destruct (rx_modulation p =? MOD_LORA).
  - cbn [existsb].
    repeat (match goal with
            | |- context [rx_datarate _ =? ?b] => destruct (rx_datarate p =? b)
            end; cbn [orb andb]).
    all: try (by eexists).
    all: repeat (match goal with
            | |- context [rx_bandwidth _ =? ?b] => destruct (rx_bandwidth p =? b)
            end; cbn [orb andb]).
    all: try (by eexists).
    all: repeat (match goal with
            | |- context [rx_coderate _ =? ?b] => destruct (rx_coderate p =? b)
            end; cbn [orb andb]).
    all: by eexists.
  - destruct (rx_modulation p =? MOD_FSK); by eexists.
Qed.

(** The serialisation alone: the object of a packet that can be
    serialised, the error line of another. *)
Lemma serialize_rxpk_members (ctx : up_context) (p : lgw_pkt_rx_s) :
  if rx_serialisable p then
    exists o, serialize_rxpk ctx p = Done o /\ map fst o = rxpk_keys ctx p
  else exists text, serialize_rxpk ctx p = Exit [Msg ERROR text].
Proof.
  unfold rx_serialisable, serialize_rxpk, rxpk_keys, time_written, classify.
  cbv zeta. pose proof (serialize_modu_spec p) as Hmodu.
  assert (forall k : list (string * jval) -> run rx_object,
            (if rx_status p =? STAT_CRC_OK then
               mret [member "stat" (J_int 1)]
             else if rx_status p =? STAT_CRC_BAD then
               mret [member "stat" (J_int (-1))]
             else if rx_status p =? STAT_NO_CRC then
               mret [member "stat" (J_int 0)]
             else exit_failure "[up] received packet with unknown status")
            ≫= k
            = if negb (bool_decide
                   ((if rx_status p =? STAT_CRC_OK then Crc_ok
                     else if rx_status p =? STAT_CRC_BAD then Crc_bad
                     else if rx_status p =? STAT_NO_CRC then No_crc
                     else Unknown_status) = Unknown_status))
              then k [member "stat"
                        (J_int (if rx_status p =? STAT_CRC_OK then 1
                                else if rx_status p =? STAT_CRC_BAD then -1
                                else 0))]
              else Exit [Msg ERROR "[up] received packet with unknown status"])
    as Hstat.
  { intros k. destruct (rx_status p =? STAT_CRC_OK); [done|].
    destruct (rx_status p =? STAT_CRC_BAD); [done|].
    by destruct (rx_status p =? STAT_NO_CRC). }
  rewrite Hstat. clear Hstat.
  destruct (negb _); [|by eexists]. cbn [andb].
  destruct (modu_known p); [|destruct Hmodu as [text ->]; by eexists].
  destruct Hmodu as (modu & -> & Hkeys). cbn [andb].
  change (Done modu ≫= ?k) with (k modu). cbv beta.
  destruct (bin_to_b64 (rx_payload p) (rx_size p) 341) as [data|].
  - rewrite bool_decide_eq_true_2 by done.
    eexists. split; [reflexivity|].
    rewrite !map_app, Hkeys. f_equal.
    f_equal.
    destruct (up_gps_active ctx); [|done].
    destruct (ref_ok ctx); [|done]. cbn [andb].
    destruct (lgw_cnt2utc (local_ref ctx) (rx_count_us p)).
    + by rewrite bool_decide_eq_true_2.
    + by rewrite bool_decide_eq_false_2 by (by intros [? ?]).
  - rewrite bool_decide_eq_false_2 by (by intros [? ?]). by eexists.
Qed.

(** X15: what the upstream loop does with a received packet, and the
    object that it writes for it (the failure of [snprintf] left aside).
    The CRC filter comes first. A packet whose forwarding flag is not
    set is dropped and the loop goes on with the next packet, the
    objects so far unchanged; that is also so for a status that is none
    of CRC OK, CRC BAD and NO CRC, for which only a warning is printed.
    A packet whose flag is set is serialised when its modulation is LoRa
    with a datarate SF7..SF12, a bandwidth of 125, 250 or 500 kHz and a
    coding rate 4/5..4/8 or 0, or FSK, and [bin_to_b64] succeeds: its
    object is written after the objects so far and the loop goes on.
    The members are tmst, time, chan, rfch, freq, stat, modu, datr, then
    codr and lsnr for LoRa, then rssi, size and data, in that order;
    [time] is left out when GPS is enabled and the time reference is not
    valid or the conversion of the counter fails. Any other packet whose
    flag is set ends the process with an error line, after the filter
    counted it. *)
Theorem rxpk_object_members (cfg : up_config) (ctx : up_context)
    (p : lgw_pkt_rx_s) (rest : list lgw_pkt_rx_s) (m : meas_up)
    (objs : list rx_object) :
  let m1 := (up_filter cfg p m).1.1 in
  let printed := (up_filter cfg p m).2 in
  if negb (forwarding_flag cfg (classify p)) then
    printed =
      (if bool_decide (classify p = Unknown_status)
       then [Msg WARNING "[up] received packet with unknown status"]
       else [])
    /\ up_packets cfg ctx (p :: rest) m objs =
         (let '(printed', m2, r) := up_packets cfg ctx rest m1 objs in
          (printed ++ printed', m2, r))
  else if rx_serialisable p then
    exists o,
      serialize_rxpk ctx p = Done o
      /\ map fst o = rxpk_keys ctx p
      /\ printed = []
      /\ up_packets cfg ctx (p :: rest) m objs =
           (let '(printed', m2, r) :=
              up_packets cfg ctx rest m1 (objs ++ [o]) in
            (printed', m2, r))
  else
    exists text,
      up_packets cfg ctx (p :: rest) m objs =
        ([Msg ERROR text], m1, Exit [Msg ERROR text]).
Proof.
  cbv zeta. pose proof (up_filter_pass cfg p m) as Hpass.
  pose proof (serialize_rxpk_members ctx p) as Hser.
  assert ((up_filter cfg p m).2 =
            if bool_decide (classify p = Unknown_status)
            then [Msg WARNING "[up] received packet with unknown status"]
            else []) as Hprinted.
  { unfold up_filter, classify.
    destruct (rx_status p =? STAT_CRC_OK);
      [by destruct (fwd_valid_pkt cfg)|].
    destruct (rx_status p =? STAT_CRC_BAD);
      [by destruct (fwd_error_pkt cfg)|].
    destruct (rx_status p =? STAT_NO_CRC);
      [by destruct (fwd_nocrc_pkt cfg)|].
    done. }
  cbn [up_packets].
  destruct (up_filter cfg p m) as [[m1 pass] printed]. cbn [fst snd] in *.
  subst pass.
  destruct (forwarding_flag cfg (classify p)) eqn:Hflag; cbn [negb];
    [|done].
  assert (printed = []) as ->.
  { rewrite Hprinted. rewrite bool_decide_eq_false_2; [done|].
    intros Hu. by rewrite Hu in Hflag. }
  destruct (rx_serialisable p).
  - destruct Hser as (o & -> & Hkeys). exists o.
    split; [done|]. split; [done|]. split; [done|].
    by destruct (up_packets cfg ctx rest m1 (objs ++ [o])) as [[? ?] ?].
  - destruct Hser as (text & ->). by exists text.
Qed.

End RxpkObject.

(** ** The upstream thread: the datagram goes to every live server *)

Section BroadcastFacts.
Context `{HalConsts} `{Extern}.

Lemma push_to_server_spec datagram buff_index answers th tl m :
  let r := push_to_server datagram buff_index answers th tl m in
  r.1.1 = (if acked_in_two th tl answers
           then count_ack (count_dgram buff_index m)
           else count_dgram buff_index m)
  /\ udp_sends r.2 = [datagram].
Proof.
  cbv zeta. unfold push_to_server, acked_in_two.
  rewrite !push_ack_wait_step. cbn [push_ack_wait].
  assert (forall r, acknowledges th tl r = true -> passed_over th tl r = false)
    as Hexcl.
  { intros [| |b]; cbn; try done. by intros ->. }
  destruct (acknowledges th tl (answers 0%nat)) eqn:Ha0; [done|].
  destruct (passed_over th tl (answers 0%nat)); [|done].
  destruct (acknowledges th tl (answers 1%nat)); [done|].
  by destruct (passed_over th tl (answers 1%nat)).
Qed.

Lemma udp_sends_app l1 l2 : udp_sends (l1 ++ l2) = udp_sends l1 ++ udp_sends l2.
Proof. apply omap_app. Qed.

Lemma push_to_servers_counts
    (servers : list (bool * (nat -> recv_result))) (datagram : list Z)
    (buff_index th tl : Z) (m : meas_up) :
  meas_up_fits m ->
  let r := push_to_servers servers datagram buff_index th tl m in
  let live := List.filter fst servers in
  let acked := List.filter (fun s => acked_in_two th tl s.2) live in
  meas_up_dgram_sent r.1
  = u32 (meas_up_dgram_sent m + Z.of_nat (length live))
  /\ meas_up_network_byte r.1
     = u32 (meas_up_network_byte m + Z.of_nat (length live) * buff_index)
  /\ meas_up_ack_rcv r.1
     = u32 (meas_up_ack_rcv m + Z.of_nat (length acked))
  /\ meas_nb_rx_rcv r.1 = meas_nb_rx_rcv m
  /\ meas_up_pkt_fwd r.1 = meas_up_pkt_fwd m
  /\ meas_up_payload_byte r.1 = meas_up_payload_byte m.
Proof.
  intros (_ & _ & _ & _ & _ & _ & Hnb & Hsent & Hack). cbv zeta.
  revert m Hnb Hsent Hack.
  induction servers as [|[serv_live answers] rest IH]; intros m Hnb Hsent Hack.
  { cbn. rewrite !Z.add_0_r, !u32_fits by done. done. }
  cbn [push_to_servers List.filter fst].
  destruct serv_live; [|by apply IH].
  destruct (push_to_server_spec datagram buff_index answers th tl m)
    as [Hm1 Hout1]. cbv zeta in *.
  destruct (push_to_server datagram buff_index answers th tl m)
    as [[m1 k] l1]. cbn [fst snd] in *.
  specialize (IH m1).
  destruct (push_to_servers rest datagram buff_index th tl m1) as [m2 l2].
  cbn [fst snd List.filter length] in *.
  destruct IH as (IHsent & IHnb & IHack & IHrcv & IHfwd & IHpay).
  { subst m1. destruct (acked_in_two th tl answers); apply u32_range. }
  { subst m1. destruct (acked_in_two th tl answers); apply u32_range. }
  { subst m1. destruct (acked_in_two th tl answers);
      [apply u32_range|done]. }
  rewrite IHsent, IHnb, IHack, IHrcv, IHfwd, IHpay.
  subst m1. repeat split.
  - destruct (acked_in_two th tl answers); cbn;
      rewrite u32_add_l; f_equal; lia.
  - destruct (acked_in_two th tl answers); cbn;
      rewrite u32_add_l; f_equal; lia.
  - destruct (acked_in_two th tl answers); cbn [count_ack count_dgram
      meas_up_ack_rcv length]; [rewrite u32_add_l|]; f_equal; lia.
  - by destruct (acked_in_two th tl answers).
  - by destruct (acked_in_two th tl answers).
  - by destruct (acked_in_two th tl answers).
Qed.

Lemma udp_sends_on_app l1 l2 :
  udp_sends_on (l1 ++ l2) = udp_sends_on l1 ++ udp_sends_on l2.
Proof. apply omap_app. Qed.

Lemma udp_sends_on_pair ic l :
  udp_sends_on (map (pair ic) l) = map (pair ic) (udp_sends l).
Proof.
  induction l as [|e l IH]; [done|].
  cbn [map]. unfold udp_sends_on, udp_sends in *. cbn [omap list_omap].
  cbn [fst snd]. destruct e; cbn; by rewrite ?IH.
Qed.

(** The loop with the indices does what the loop does, and sends on the
    sockets of the live servers. *)
Lemma push_to_servers_on_spec ic servers datagram buff_index th tl m :
  let r := push_to_servers_on ic servers datagram buff_index th tl m in
  (r.1, map snd r.2) = push_to_servers servers datagram buff_index th tl m
  /\ udp_sends_on r.2
     = map (fun ic => (ic, datagram)) (live_sockets ic servers).
Proof.
  cbv zeta. revert ic m.
  induction servers as [|[serv_live answers] rest IH]; intros ic m; [done|].
  cbn [push_to_servers_on push_to_servers live_sockets fst].
  destruct serv_live; [|apply IH].
  destruct (push_to_server_spec datagram buff_index answers th tl m)
    as [_ Hout1]. cbv zeta in Hout1.
  destruct (push_to_server datagram buff_index answers th tl m)
    as [[m1 k] l1]. cbn [fst snd] in *.
  destruct (IH (S ic) m1) as [IHrun IHout].
  destruct (push_to_servers_on (S ic) rest datagram buff_index th tl m1)
    as [m2 l2]. cbn [fst snd] in *.
  rewrite <- IHrun. split.
  - f_equal. rewrite map_app, map_map. cbn [snd]. by rewrite map_id.
  - by rewrite udp_sends_on_app, udp_sends_on_pair, Hout1, IHout.
Qed.

Lemma live_sockets_spec ic servers k :
  In k (live_sockets ic servers)
  <-> (ic <= k)%nat
      /\ exists answers, servers !! (k - ic)%nat = Some (true, answers).
Proof.
  revert ic. induction servers as [|[serv_live answers] rest IH]; intros ic.
  { cbn. split; [done|]. by intros (_ & ? & ?). }
  cbn [live_sockets fst].
  assert (In k (live_sockets (S ic) rest)
          <-> (ic < k)%nat
              /\ exists answers',
                   ((serv_live, answers) :: rest) !! (k - ic)%nat
                   = Some (true, answers')) as Hrest.
  { rewrite IH. split.
    - intros (Hle & a & Ha). split; [lia|]. exists a.
      by replace (k - ic)%nat with (S (k - S ic)) by lia.
    - intros (Hlt & a & Ha). split; [lia|]. exists a.
      by replace (k - ic)%nat with (S (k - S ic)) in Ha by lia. }
  destruct serv_live.
  - cbn [In]. rewrite Hrest. split.
    + intros [<-|(Hlt & Ha)]; [|split; [lia|done]].
      split; [lia|]. exists answers. by rewrite Nat.sub_diag.
    + intros (Hle & Ha).
      destruct (decide (ic = k)) as [->|Hne]; [by left|right].
      split; [lia|done].
  - rewrite Hrest. split.
    + intros (Hlt & Ha). split; [lia|done].
    + intros (Hle & a & Ha).
      destruct (decide (ic = k)) as [->|Hne].
      * rewrite Nat.sub_diag in Ha. cbn in Ha. congruence.
      * split; [lia|by exists a].
Qed.

Lemma live_sockets_increasing ic servers i j a b :
  live_sockets ic servers !! i = Some a ->
  live_sockets ic servers !! j = Some b ->
  (i < j)%nat -> (a < b)%nat.
Proof.
  revert ic i j.
  induction servers as [|[serv_live answers] rest IH]; intros ic i j;
    [done|].
  cbn [live_sockets fst]. destruct serv_live; [|apply IH].
  intros Hi Hj Hlt. destruct j as [|j]; [lia|]. cbn in Hj.
  destruct i as [|i].
  - cbn in Hi. injection Hi as <-.
    assert (In b (live_sockets (S ic) rest)) as Hin
      by (eapply list_elem_of_In, list_elem_of_lookup_2, Hj).
    apply live_sockets_spec in Hin. lia.
  - cbn in Hi. apply (IH (S ic) i j); [done|done|lia].
Qed.

(** X16: the sending of an upstream datagram. It is sent once on the
    socket [sock_up[ic]] of every server marked live, in the order of the
    configuration, and on no other socket; [up_dgram_sent] grows by the
    number of live servers, [up_network_byte] by that number of times
    the length of the datagram, and [up_ack_rcv] by the number of live
    servers whose PUSH_ACK comes within the two receives (all modulo
    2^32); the packet counters do not move. The loop with the indices
    of the sockets does what the loop of the upstream turn does. *)
Theorem push_to_all_live_servers
    (servers : list (bool * (nat -> recv_result))) (datagram : list Z)
    (buff_index th tl : Z) (m : meas_up) :
  meas_up_fits m ->
  let r := push_to_servers_on 0 servers datagram buff_index th tl m in
  let sockets := live_sockets 0 servers in
  let live := List.filter fst servers in
  let acked := List.filter (fun s => acked_in_two th tl s.2) live in
  (r.1, map snd r.2) = push_to_servers servers datagram buff_index th tl m
  /\ udp_sends_on r.2 = map (fun ic => (ic, datagram)) sockets
  /\ (forall ic,
        In ic sockets
        <-> exists answers, servers !! ic = Some (true, answers))
  /\ (forall i j a b,
        sockets !! i = Some a -> sockets !! j = Some b ->
        (i < j)%nat -> (a < b)%nat)
  /\ length sockets = length live
  /\ meas_up_dgram_sent r.1
     = u32 (meas_up_dgram_sent m + Z.of_nat (length live))
  /\ meas_up_network_byte r.1
     = u32 (meas_up_network_byte m + Z.of_nat (length live) * buff_index)
  /\ meas_up_ack_rcv r.1
     = u32 (meas_up_ack_rcv m + Z.of_nat (length acked))
  /\ meas_nb_rx_rcv r.1 = meas_nb_rx_rcv m
  /\ meas_up_pkt_fwd r.1 = meas_up_pkt_fwd m
  /\ meas_up_payload_byte r.1 = meas_up_payload_byte m.
Proof.
  intros Hfit. cbv zeta.
  destruct (push_to_servers_on_spec 0 servers datagram buff_index th tl m)
    as [Hrun Hout]. cbv zeta in *.
  split; [done|]. split; [done|]. split.
  { intros ic. rewrite live_sockets_spec, Nat.sub_0_r.
    split; [by intros [_ ?]|]. intros ?. split; [lia|done]. }
  split; [apply live_sockets_increasing|]. split.
  { generalize 0%nat. clear.
    induction servers as [|[[] ?] rest IH]; intros ic; [done| |];
      cbn [live_sockets List.filter fst length]; by rewrite ?IH. }
  replace (push_to_servers_on 0 servers datagram buff_index th tl m).1
    with (push_to_servers servers datagram buff_index th tl m).1
    by (by rewrite <- Hrun).
  by apply push_to_servers_counts.
Qed.

End BroadcastFacts.

Lemma push_to_all_live_servers_witness :
  meas_up_fits meas_up_zero
  /\ udp_sends_on
       (push_to_servers_on 0
          [(true, fun _ => Recv_timeout);
           (false, fun _ => Recv_timeout);
           (true, fun i => match i with
                           | O => Recv_timeout
                           | _ => Recv_data [PROTOCOL_VERSION; 0xAB; 0xCD;
                                             PKT_PUSH_ACK]
                           end)]
          hello 5 0xAB 0xCD meas_up_zero).2
     = [(0%nat, hello); (2%nat, hello)]
  /\ meas_up_ack_rcv
       (push_to_servers_on 0
          [(true, fun _ => Recv_timeout);
           (false, fun _ => Recv_timeout);
           (true, fun i => match i with
                           | O => Recv_timeout
                           | _ => Recv_data [PROTOCOL_VERSION; 0xAB; 0xCD;
                                             PKT_PUSH_ACK]
                           end)]
          hello 5 0xAB 0xCD meas_up_zero).1
     = 1.
Proof.
  assert (meas_up_fits meas_up_zero) as Hfit
    by (vm_compute; repeat split; (discriminate || reflexivity)).
  split; [exact Hfit|].
  pose proof (push_to_all_live_servers
                [(true, fun _ => Recv_timeout);
                 (false, fun _ => Recv_timeout);
                 (true, fun i => match i with
                                 | O => Recv_timeout
                                 | _ => Recv_data [PROTOCOL_VERSION; 0xAB; 0xCD;
                                                   PKT_PUSH_ACK]
                                 end)]
                hello 5 0xAB 0xCD meas_up_zero Hfit)
    as (_ & Hout & _ & _ & _ & _ & _ & Hack & _).
  split; [exact Hout|exact Hack].
Defined.

(** ** The servers of the gateway configuration *)

Lemma strncpy_take dst src n :
  take n (strncpy dst src n) = take n (chars src ++ replicate n 0).
Proof.
  unfold strncpy.
  assert (length (take n (chars src ++ replicate n 0)) = n) as Hlen.
  { rewrite length_take, length_app, length_replicate. lia. }
  rewrite take_app_le by lia. rewrite take_ge by lia. done.
Qed.

Lemma store_entry_holds e s0 :
  entry_valid e = true -> slot_holds e (set_live false (store_entry e s0)).
Proof.
  unfold entry_valid, slot_holds, store_entry.
  destruct e as [[str|] en [up|] [down|]]; cbn; try done.
  intros _. split; [|done]. exists str, up, down.
  repeat split. apply strncpy_take.
Qed.

Lemma read_servers_spec entries ic slots :
  (ic <= 4)%nat -> length slots = 4%nat ->
  let r := read_servers entries ic slots in
  r.1.1 = Nat.min 4 (ic + length (List.filter entry_valid entries))
  /\ length r.1.2 = 4%nat
  /\ (forall j, (j < ic)%nat -> r.1.2 !! j = slots !! j)
  /\ (forall k e,
        (ic + k < 4)%nat ->
        List.filter entry_valid entries !! k = Some e ->
        exists s, r.1.2 !! (ic + k)%nat = Some s /\ slot_holds e s).
Proof.
  cbv zeta. revert ic slots.
  induction entries as [|e rest IH]; intros ic slots Hic Hlen.
  { cbn [read_servers fst snd List.filter length].
    repeat split; try done. lia. }
  cbn [read_servers]. unfold MAX_SERVERS. case_bool_decide as Hroom.
  2: { cbn [fst snd]. repeat split; try done; [lia|]. intros; lia. }
  set (slots1 := alter (store_entry e) ic slots).
  assert (length slots1 = 4%nat) as Hlen1
    by (subst slots1; by rewrite length_alter).
  assert (forall j, (j < ic)%nat -> slots1 !! j = slots !! j) as Hbelow.
  { intros j Hj. subst slots1. apply list_lookup_alter_ne. lia. }
  assert (entry_valid e = false ->
          let r := read_servers rest ic slots1 in
          r.1.1 = Nat.min 4 (ic + length (List.filter entry_valid (e :: rest)))
          /\ length r.1.2 = 4%nat
          /\ (forall j, (j < ic)%nat -> r.1.2 !! j = slots !! j)
          /\ (forall k e0,
                (ic + k < 4)%nat ->
                List.filter entry_valid (e :: rest) !! k = Some e0 ->
                exists s, r.1.2 !! (ic + k)%nat = Some s /\ slot_holds e0 s))
    as Hskip.
  { intros Hinv. cbv zeta. cbn [List.filter]. rewrite Hinv.
    destruct (IH ic slots1 Hic Hlen1) as (Hn & Hl & Hj & Hk).
    repeat split; try done. intros j Hlt. rewrite Hj by done. by apply Hbelow. }
  assert (entry_valid e = true ->
          let r := read_servers rest (S ic) (alter (set_live false) ic slots1) in
          r.1.1 = Nat.min 4 (ic + length (List.filter entry_valid (e :: rest)))
          /\ length r.1.2 = 4%nat
          /\ (forall j, (j < ic)%nat -> r.1.2 !! j = slots !! j)
          /\ (forall k e0,
                (ic + k < 4)%nat ->
                List.filter entry_valid (e :: rest) !! k = Some e0 ->
                exists s, r.1.2 !! (ic + k)%nat = Some s /\ slot_holds e0 s))
    as Hkeep.
  { intros Hval. cbv zeta. cbn [List.filter]. rewrite Hval.
    destruct (IH (S ic) (alter (set_live false) ic slots1))
      as (Hn & Hl & Hj & Hk); [lia|by rewrite length_alter|].
    split; [rewrite Hn; cbn [length]; lia|]. split; [done|]. split.
    { intros j Hlt. rewrite Hj by lia.
      rewrite list_lookup_alter_ne by lia. by apply Hbelow. }
    intros [|k] e0 Hroom' Hlook.
    - cbn in Hlook. injection Hlook as <-.
      rewrite Nat.add_0_r, Hj by lia.
      destruct (lookup_lt_is_Some_2 slots ic ltac:(lia)) as [s0 Hs0].
      subst slots1. rewrite !list_lookup_alter_eq, Hs0. cbn.
      eexists. split; [done|]. by apply store_entry_holds.
    - cbn in Hlook. rewrite Nat.add_succ_r. apply Hk; [lia|done]. }
  destruct e as [[str|] en [up|] [down|]];
    cbn [entry_address entry_port_up entry_port_down entry_enabled].
  - destruct en as [| |[]].
    + specialize (Hkeep eq_refl). cbv zeta in Hkeep.
      by destruct (read_servers rest (S ic) _) as [[n t] l].
    + specialize (Hkeep eq_refl). cbv zeta in Hkeep.
      by destruct (read_servers rest (S ic) _) as [[n t] l].
    + specialize (Hkeep eq_refl). cbv zeta in Hkeep.
      by destruct (read_servers rest (S ic) _) as [[n t] l].
    + specialize (Hskip eq_refl). cbv zeta in Hskip.
      by destruct (read_servers rest ic slots1) as [[n t] l].
  - specialize (Hskip ltac:(by destruct en as [| |[]])). cbv zeta in Hskip.
    by destruct (read_servers rest ic slots1) as [[n t] l].
  - specialize (Hskip ltac:(by destruct en as [| |[]])). cbv zeta in Hskip.
    by destruct (read_servers rest ic slots1) as [[n t] l].
  - specialize (Hskip ltac:(by destruct en as [| |[]])). cbv zeta in Hskip.
    by destruct (read_servers rest ic slots1) as [[n t] l].
  - by apply Hskip.
  - by apply Hskip.
  - by apply Hskip.
  - by apply Hskip.
Qed.

(** X17: the servers that [parse_gateway_configuration] keeps from the
    [servers] array. Among the elements that the loop can reach (their
    number is held on 8 bits), those with an address and both ports that
    are not disabled by a boolean [serv_enabled] are kept in the order of
    the array, at most MAX_SERVERS = 4 of them: [serv_count] is their
    number, row k of the tables holds the k-th of them (address cut at 64
    bytes, ports on 16 bits) and none is live yet. When none is kept,
    [serv_count] is 1 and row 0 holds the default server 127.0.0.1 with
    the ports 1780 and 1782. The old single-server members are not looked
    at. *)
Theorem servers_array_kept (entries : list server_entry)
    (legacy : server_entry) (t : server_table) :
  length (serv_slots t) = 4%nat ->
  let t' := (parse_servers (Some entries) legacy t).1 in
  let kept := take 4 (List.filter entry_valid (entries_read entries)) in
  serv_count t' = Z.max 1 (Z.of_nat (length kept))
  /\ length (serv_slots t') = 4%nat
  /\ (forall k e,
        kept !! k = Some e ->
        exists s, serv_slots t' !! k = Some s /\ slot_holds e s)
  /\ (kept = [] ->
      exists s,
        serv_slots t' !! 0%nat = Some s
        /\ take 10 (serv_addr s) = chars "127.0.0.1" ++ [0]
        /\ serv_port_up s = 1780 /\ serv_port_down s = 1782
        /\ serv_live s = false).
Proof.
  intros Hlen. cbv zeta. unfold parse_servers.
  fold (entries_read entries).
  destruct (read_servers_spec (entries_read entries) 0 (serv_slots t))
    as (Hn & Hl & _ & Hk); [lia|done|]. cbv zeta in *.
  destruct (read_servers (entries_read entries) 0 (serv_slots t))
    as [[ic slots] l]. cbn [fst snd] in *.
  set (valid := List.filter entry_valid (entries_read entries)) in *.
  assert (length (take 4 valid) = ic) as Hkept
    by (rewrite length_take; lia).
  rewrite Hkept. cbn [serv_count].
  destruct (Z.eqb_spec (Z.of_nat ic) 0) as [Hzero|Hsome]; cbn [fst].
  - cbn [serv_count serv_slots]. split; [lia|].
    split; [by rewrite length_alter|]. split.
    + intros k e Hlook. apply lookup_lt_Some in Hlook. lia.
    + intros _.
      destruct (lookup_lt_is_Some_2 slots 0 ltac:(lia)) as [s0 Hs0].
      rewrite list_lookup_alter_eq, Hs0. eexists. split; [reflexivity|].
      cbn [serv_addr serv_port_up serv_port_down serv_live set_live
           set_port_down set_port_up set_addr].
      split; [by rewrite strncpy_take|done].
  - cbn [serv_count serv_slots]. split; [lia|]. split; [done|]. split.
    + intros k e Hlook. apply lookup_take_Some in Hlook as [Hlook Hlt].
      apply (Hk k e); [lia|done].
    + intros Hnil. rewrite Hnil in Hkept. cbn in Hkept. lia.
Qed.

Lemma servers_array_kept_witness :
  length (serv_slots server_table_zero) = 4%nat
  /\ serv_count (parse_servers (Some server_entries)
                   {| entry_address := None; entry_enabled := Enabled_missing;
                      entry_port_up := None; entry_port_down := None |}
                   server_table_zero).1 = 2.
Proof.
  assert (length (serv_slots server_table_zero) = 4%nat) as Hlen
    by reflexivity.
  split; [exact Hlen|].
  exact (proj1 (servers_array_kept server_entries
                  {| entry_address := None; entry_enabled := Enabled_missing;
                     entry_port_up := None; entry_port_down := None |}
                  server_table_zero Hlen)).
Defined.

(** ** The bandwidth of the FSK channel *)

Section FskChannel.
Context `{HalConsts} `{HalBandwidths}.

Lemma fsk_select_bw_covers bw :
  0 < bw <= 500000 ->
  exists hz,
    In (fsk_select_bw bw, hz) fsk_bandwidths
    /\ bw <= hz
    /\ forall c' hz', In (c', hz') fsk_bandwidths -> bw <= hz' -> hz <= hz'.
Proof.
  intros Hbw. unfold fsk_select_bw, fsk_bandwidths.
  destruct (Z.eqb_spec bw 0); [lia|].
  repeat (match goal with
          | |- context [bw <=? ?k] => destruct (Z.leb_spec bw k)
          end;
          [eexists; split; [cbn; eauto 10|]; split; [lia|];
           intros c' hz' Hin Hle; cbn in Hin;
           repeat (destruct Hin as [[= _ <-]|Hin]; [lia|]); done|]).
  lia.
Qed.

(** X18: the bandwidth given to the FSK channel. The request is
    [chan_FSK.bandwidth], or, when that is 0 and [chan_FSK.freq_deviation]
    is not, twice the deviation plus the datarate (modulo 2^32). A request
    between 1 Hz and 500 kHz selects the narrowest bandwidth of the HAL
    that covers it, from 7.8 kHz to 500 kHz; a request of 0 or above
    500 kHz selects BW_UNDEFINED. *)
Theorem fsk_bandwidth_is_narrowest_cover
    (radio if_ bandwidth freq_deviation datarate : double) :
  let conf := fsk_ifconf radio if_ bandwidth freq_deviation datarate in
  let request :=
    fsk_requested_bw (double_to_u32 bandwidth)
      (double_to_u32 freq_deviation) (if_datarate conf) in
  if (0 <? request) && (request <=? 500000) then
    exists hz,
      In (if_bandwidth conf, hz) fsk_bandwidths
      /\ request <= hz
      /\ forall c' hz', In (c', hz') fsk_bandwidths -> request <= hz' ->
                        hz <= hz'
  else if_bandwidth conf = BW_UNDEFINED.
Proof.
  cbv zeta. unfold fsk_ifconf. cbn [if_bandwidth if_datarate].
  set (request := fsk_requested_bw _ _ _).
  assert (0 <= request) as Hnn.
  { subst request. unfold fsk_requested_bw.
    destruct (_ && _); apply u32_range. }
  destruct (Z.ltb_spec 0 request) as [Hpos|Hzero]; cbn [andb].
  - destruct (Z.leb_spec request 500000) as [Hle|Hgt].
    + apply fsk_select_bw_covers. lia.
    + unfold fsk_select_bw. destruct (Z.eqb_spec request 0); [done|].
      repeat (match goal with
              | |- context [request <=? ?k] =>
                  destruct (Z.leb_spec request k); [lia|]
              end).
      done.
  - assert (request = 0) as -> by lia. done.
Qed.

End FskChannel.

(** ** The downstream thread: the datagrams it sends *)

Section PullData.
Context `{HalConsts} `{Parson} `{Extern}.

Lemma udp_sends_print l : udp_sends (map print l) = [].
Proof. by induction l. Qed.

Lemma beacon_poll_no_udp n i s status :
  udp_sends (beacon_poll n i s status).2 = [].
Proof.
  revert i s. induction n as [|n IH]; intros i s; [done|].
  cbn [beacon_poll]. destruct (s =? TX_FREE); [done|].
  specialize (IH (S i) (u8 (status i))).
  by destruct (beacon_poll n (S i) (u8 (status i)) status).
Qed.

Lemma beacon_step_no_udp ev b : udp_sends (beacon_step ev b).2 = [].
Proof.
  unfold beacon_step. destruct (_ && _); [|done]. destruct (_ && _); [|done].
  destruct (ev_beacon_send ev =? LGW_HAL_ERROR); [done|].
  pose proof (beacon_poll_no_udp (Z.to_nat (1500 / BEACON_POLL_MS)) 0
                TX_STATUS_UNKNOWN (ev_tx_status ev)) as Hpoll.
  destruct (beacon_poll _ _ _ _) as [s waits]. cbn [fst snd] in *.
  rewrite !udp_sends_app, Hpoll. by destruct (s =? TX_FREE).
Qed.

Lemma datagram_step_no_udp ev a m : udp_sends (datagram_step ev a m).2 = [].
Proof.
  unfold datagram_step. destruct (ev_recv ev) as [buff_down|]; [|done].
  destruct (_ || _); [done|].
  destruct (byte_at buff_down 3 =? PKT_PULL_ACK).
  - unfold pull_ack_step. destruct (_ && _); [|done]. by destruct (req_ack a).
  - unfold pull_resp_step.
    destruct (parse_pull_resp (ev_globals ev) buff_down); cbn [fst snd].
    + rewrite !udp_sends_app, udp_sends_print.
      by destruct (ev_lgw_send ev =? LGW_HAL_ERROR).
    + by rewrite udp_sends_app, udp_sends_print.
Qed.

Lemma pull_inv_iter cfg n0 st ev :
  pull_inv cfg n0 st -> pull_inv cfg n0 (down_iter st ev).
Proof.
  intros [Hall Hcount]. unfold pull_inv.
  pose proof (down_iter_meas st ev) as Hmeas.
  destruct (datagram_step_meas ev (ack st) (meas st)) as [Hsent _].
  cbv zeta in Hsent. rewrite <- Hmeas in Hsent. rewrite Hsent. clear Hmeas Hsent.
  unfold down_iter.
  pose proof (beacon_step_no_udp ev (beacon_pkt st)) as Hb.
  pose proof (datagram_step_no_udp ev (ack st) (meas st)) as Hd.
  destruct (beacon_step ev (beacon_pkt st)) as [[pkt armed] out1].
  destruct (datagram_step ev (ack st) (meas st)) as [[a m] out2].
  cbn [fst snd trace] in *.
  by rewrite !udp_sends_app, Hb, Hd, !app_nil_r.
Qed.

Lemma udp_sends_one d : udp_sends [Udp_send d] = [d].
Proof. reflexivity. Qed.

Lemma pull_inv_listen cfg n0 evs st :
  pull_inv cfg n0 st -> pull_inv cfg n0 (fold_left down_iter evs st).
Proof.
  revert st. induction evs as [|ev evs IH]; intros st Hst; [done|].
  cbn [fold_left]. by apply IH, pull_inv_iter.
Qed.

Lemma pull_inv_session cfg n0 s st :
  pull_inv cfg n0 st -> pull_inv cfg n0 (down_session cfg s st).
Proof.
  intros [Hall Hcount]. unfold down_session. cbv zeta.
  apply pull_inv_listen.
  unfold pull_inv. cbn [trace meas meas_dw_pull_sent].
  rewrite udp_sends_app, length_app, udp_sends_one. cbn [length]. split.
  - apply Forall_app. split; [done|]. apply Forall_singleton.
    exists (u8 (ses_token s).1), (u8 (ses_token s).2).
    split; [apply Z.mod_pos_bound; lia|].
    split; [apply Z.mod_pos_bound; lia|done].
  - rewrite Hcount, u32_add_l. f_equal. lia.
Qed.

Lemma pull_inv_loop cfg n0 ss st :
  pull_inv cfg n0 st -> pull_inv cfg n0 (thread_down_loop cfg ss st).
Proof.
  revert st. induction ss as [|s ss IH]; intros st Hst; [done|].
  cbn [thread_down_loop]. destruct (_ || _); [done|].
  destruct (autoquit_due cfg st); [|by apply IH, pull_inv_session].
  destruct Hst as [Hall Hcount]. unfold pull_inv, request_exit.
  cbn [trace meas]. rewrite udp_sends_app. cbn. by rewrite app_nil_r.
Qed.

(** X19: every datagram that [thread_down] sends is a PULL_DATA: the
    protocol version, two token bytes, the type PULL_DATA and the gateway
    address; and [dw_pull_sent] has grown by the number of datagrams sent
    (modulo 2^32). *)
Theorem thread_down_sends_pull_data (cfg : down_config) (ss : list session)
    (c : coord_s) (stack : lgw_pkt_tx_s) (m : meas_dw) :
  0 <= meas_dw_pull_sent m < 2 ^ 32 ->
  let st := thread_down_loop cfg ss (down_start c stack m) in
  Forall (is_pull_data cfg) (udp_sends (trace st))
  /\ meas_dw_pull_sent (meas st)
     = u32 (meas_dw_pull_sent m + Z.of_nat (length (udp_sends (trace st)))).
Proof.
  intros Hm. cbv zeta. apply pull_inv_loop. split; [constructor|].
  cbn. by rewrite Z.add_0_r, u32_fits.
Qed.

End PullData.

Lemma thread_down_sends_pull_data_witness :
  0 <= meas_dw_pull_sent meas_dw_zero < 2 ^ 32
  /\ udp_sends
       (trace (@thread_down_loop semtech_hal scenario_parson scenario_extern
                 autoquit_config [acked_session; silent_session]
                 down_state_zero))
     = [pull_data autoquit_config 0xAB 0xCD;
        pull_data autoquit_config 0xAB 0xCD]
  /\ meas_dw_pull_sent
       (meas (@thread_down_loop semtech_hal scenario_parson scenario_extern
                autoquit_config [acked_session; silent_session]
                down_state_zero))
     = 2.
Proof.
  assert (0 <= meas_dw_pull_sent meas_dw_zero < 2 ^ 32) as Hm
    by (vm_compute; split; [discriminate|reflexivity]).
  split; [exact Hm|]. split; [vm_compute; reflexivity|].
  exact (proj2 (@thread_down_sends_pull_data semtech_hal scenario_parson
                  scenario_extern autoquit_config
                  [acked_session; silent_session] scenario_coord txpkt_zero
                  meas_dw_zero Hm)).
Defined.

(** ** The upstream thread: when a datagram is sent *)

Section UpTurnFacts.
Context `{HalConsts} `{Extern}.
Variable json_text : list rx_object -> option string -> list Z.

Lemma up_filter_prints cfg p m : udp_sends (up_filter cfg p m).2 = [].
Proof.
  unfold up_filter.
  destruct (rx_status p =? STAT_CRC_OK); [by destruct (negb _)|].
  destruct (rx_status p =? STAT_CRC_BAD); [by destruct (negb _)|].
  destruct (rx_status p =? STAT_NO_CRC); [by destruct (negb _)|]. done.
Qed.

(** A batch gone through without ending the process: nothing is sent, the
    datagram counter does not move, and the objects are those of the
    packets let through. *)
Lemma up_packets_done cfg ctx rxpkt m objs printed m' objs' :
  up_packets cfg ctx rxpkt m objs = (printed, m', Done objs') ->
  udp_sends printed = []
  /\ meas_up_dgram_sent m' = meas_up_dgram_sent m
  /\ exists new,
       objs' = objs ++ new
       /\ Forall2 (fun p o => serialize_rxpk ctx p = Done o)
            (forwarded cfg rxpkt) new.
Proof.
  revert m objs printed.
  induction rxpkt as [|p rest IH]; intros m objs printed Hrun.
  { cbn in Hrun. injection Hrun as <- <- <-. repeat split.
    exists []. by rewrite app_nil_r. }
  cbn [up_packets] in Hrun.
  pose proof (up_filter_prints cfg p m) as Hpr.
  destruct (up_filter_meas cfg p m) as (Hpass & _ & _ & _ & _ & _ & _ & _ & Hsent & _).
  destruct (up_filter cfg p m) as [[m1 pass] pr]. cbn [fst snd] in *.
  cbv zeta in *. subst pass. unfold forwarded. cbn [List.filter].
  fold (forwarded cfg rest).
  destruct (forwarding_flag cfg (classify p)).
  - destruct (serialize_rxpk ctx p) as [o|l] eqn:Hser; [|done].
    destruct (up_packets cfg ctx rest m1 (objs ++ [o]))
      as [[printed' m2] r] eqn:Hrun'.
    injection Hrun as <- -> ->.
    destruct (IH _ _ _ Hrun') as (Hp & Hs & new & Hobjs & Hall).
    rewrite udp_sends_app, Hpr, Hp, Hs, Hsent. repeat split.
    exists (o :: new). split; [by rewrite Hobjs, <- app_assoc|by constructor].
  - destruct (up_packets cfg ctx rest m1 objs) as [[printed' m2] r] eqn:Hrun'.
    injection Hrun as <- -> ->.
    destruct (IH _ _ _ Hrun') as (Hp & Hs & Hnew).
    rewrite udp_sends_app, Hpr, Hp, Hs, Hsent. done.
Qed.

Lemma push_to_servers_sends servers datagram buff_index th tl m :
  udp_sends (push_to_servers servers datagram buff_index th tl m).2
  = replicate (length (List.filter fst servers)) datagram.
Proof.
  revert m. induction servers as [|[serv_live answers] rest IH]; intros m;
    [done|].
  cbn [push_to_servers List.filter fst]. destruct serv_live; [|apply IH].
  destruct (push_to_server_spec datagram buff_index answers th tl m)
    as [_ Hout1]. cbv zeta in *.
  destruct (push_to_server datagram buff_index answers th tl m)
    as [[m1 k] l1]. cbn [fst snd] in *.
  specialize (IH m1).
  destruct (push_to_servers rest datagram buff_index th tl m1) as [m2 l2].
  cbn [fst snd] in *. by rewrite udp_sends_app, Hout1, IH.
Qed.

(** X20: when a turn of the upstream loop sends a datagram. In a turn
    that does not end the process, nothing is sent when no fetched packet
    passes the filter and no status report is ready: the datagram counter
    is unchanged and an empty [rxpk] array never goes out. Otherwise one
    PUSH_DATA is sent to each live server: the protocol version, the two
    token bytes, the type, the gateway address, then the JSON text of the
    objects of the packets let through, in their order, and of the
    status report when one is ready, which is then marked as sent. *)
Theorem up_turn_sends_when_needed (net_mac : list Z) (cfg : up_config)
    (ev : up_event) (m : meas_up) :
  let r := up_turn json_text net_mac cfg ev m in
  let batch := take (Z.to_nat (turn_nb_pkt ev)) (turn_rxpkt ev) in
  let passed := forwarded cfg batch in
  turn_exit r = false ->
  if Nat.eqb (length passed) 0 && negb (turn_report_ready ev) then
    udp_sends (turn_out r) = []
    /\ meas_up_dgram_sent (turn_meas r) = meas_up_dgram_sent m
    /\ turn_report_left r = false
  else
    exists objs,
      Forall2 (fun p o => serialize_rxpk (turn_context ev) p = Done o)
        passed objs
      /\ udp_sends (turn_out r)
         = replicate (length (List.filter fst (turn_servers ev)))
             ([PROTOCOL_VERSION; u8 (turn_token ev).1; u8 (turn_token ev).2;
               PKT_PUSH_DATA] ++ net_mac
              ++ json_text objs
                   (if turn_report_ready ev
                    then Some (turn_status_report ev) else None))
      /\ turn_report_left r = false.
Proof.
  cbv zeta. unfold up_turn.
  destruct (turn_nb_pkt ev =? LGW_HAL_ERROR); [done|].
  destruct ((turn_nb_pkt ev =? 0) && negb (turn_report_ready ev)) eqn:Hwait.
  { apply andb_true_iff in Hwait as [Hnone Hrep].
    apply Z.eqb_eq in Hnone. rewrite Hnone.
    destruct (turn_report_ready ev); [done|].
    change (Z.to_nat 0) with 0%nat. intros _. by cbn. }
  destruct (up_packets cfg (turn_context ev)
              (take (Z.to_nat (turn_nb_pkt ev)) (turn_rxpkt ev)) m [])
    as [[printed m1] run] eqn:Hrun.
  destruct run as [objs|l]; [|done].
  apply up_packets_done in Hrun as (Hprinted & Hsent & new & Hobjs & Hall).
  cbn [app] in Hobjs. subst new.
  rewrite <- (Forall2_length _ _ _ Hall).
  destruct (Nat.eqb (length (forwarded cfg _)) 0 && negb (turn_report_ready ev))
    eqn:Hidle.
  { intros _. cbn [turn_out turn_meas turn_report_left].
    apply andb_true_iff in Hidle as [_ Hrep].
    by destruct (turn_report_ready ev). }
  destruct (turn_report_ready ev && String.eqb _ _); [done|].
  intros _. exists objs. split; [done|].
  pose proof (push_to_servers_sends (turn_servers ev)) as Hsend.
  match goal with |- context [push_to_servers ?s ?d ?b ?h ?l ?mm] =>
    specialize (Hsend d b h l mm);
    destruct (push_to_servers s d b h l mm) as [m2 out]
  end.
  cbn [fst snd turn_out turn_report_left] in *.
  rewrite udp_sends_app, Hprinted, Hsend. split; [done|].
  by destruct (turn_report_ready ev).
Qed.

End UpTurnFacts.

Lemma up_turn_sends_when_needed_witness :
  turn_exit
    (@up_turn semtech_hal scenario_extern tally_text
       (net_mac autoquit_config) default_filter up_turn_event meas_up_zero)
  = false
  /\ exists objs,
       Forall2
         (fun p o =>
            @serialize_rxpk semtech_hal scenario_extern
              (turn_context up_turn_event) p = Done o)
         (@forwarded semtech_hal default_filter
            (take (Z.to_nat (turn_nb_pkt up_turn_event))
               (turn_rxpkt up_turn_event)))
         objs
       /\ udp_sends
            (turn_out
               (@up_turn semtech_hal scenario_extern tally_text
                  (net_mac autoquit_config) default_filter up_turn_event
                  meas_up_zero))
          = replicate
              (length (List.filter fst (turn_servers up_turn_event)))
              ([PROTOCOL_VERSION; u8 (turn_token up_turn_event).1;
                u8 (turn_token up_turn_event).2; PKT_PUSH_DATA]
               ++ net_mac autoquit_config
               ++ tally_text objs
                    (if turn_report_ready up_turn_event
                     then Some (turn_status_report up_turn_event) else None))
       /\ turn_report_left
            (@up_turn semtech_hal scenario_extern tally_text
               (net_mac autoquit_config) default_filter up_turn_event
               meas_up_zero)
          = false.
Proof.
  assert (turn_exit
            (@up_turn semtech_hal scenario_extern tally_text
               (net_mac autoquit_config) default_filter up_turn_event
               meas_up_zero) = false) as Hrun
    by (vm_compute; reflexivity).
  split; [exact Hrun|].
  exact (@up_turn_sends_when_needed semtech_hal scenario_extern tally_text
           (net_mac autoquit_config) default_filter up_turn_event
           meas_up_zero Hrun).
Defined.

(** ** The downstream thread: the packets handed to the radio are counted *)

Section TxBalance.
Context `{HalConsts} `{Parson} `{Extern}.

Lemma u32_add_r a b : u32 (a + u32 b) = u32 (a + b).
Proof. unfold u32. apply Zplus_mod_idemp_r. Qed.

Lemma u32_idem a : u32 (u32 a) = u32 a.
Proof. unfold u32. apply Z.mod_mod. lia. Qed.

Lemma tx_balance_datagram ev a m :
  tx_balance m -> tx_balance (datagram_step ev a m).1.2.
Proof.
  unfold tx_balance. intros Hm. unfold datagram_step.
  destruct (ev_recv ev) as [buff_down|]; [|done].
  destruct (_ || _); [done|].
  destruct (byte_at buff_down 3 =? PKT_PULL_ACK).
  - unfold pull_ack_step. destruct (_ && _); [|done].
    by destruct (req_ack a).
  - unfold pull_resp_step.
    destruct (parse_pull_resp (ev_globals ev) buff_down); [|done].
    cbn [fst snd meas_nb_tx_ok meas_nb_tx_fail meas_dw_dgram_rcv].
    rewrite u32_idem.
    destruct (ev_lgw_send ev =? LGW_HAL_ERROR).
    + rewrite u32_add_r, Z.add_assoc, <- u32_add_l, Hm, u32_add_l. done.
    + rewrite u32_add_l.
      replace (meas_nb_tx_ok m + 1 + meas_nb_tx_fail m)
        with (meas_nb_tx_ok m + meas_nb_tx_fail m + 1) by lia.
      rewrite <- u32_add_l, Hm, u32_add_l. done.
Qed.

Lemma tx_balance_listen evs st :
  tx_balance (meas st) -> tx_balance (meas (fold_left down_iter evs st)).
Proof.
  revert st. induction evs as [|ev evs IH]; intros st Hst; [done|].
  cbn [fold_left]. apply IH. rewrite down_iter_meas.
  by apply tx_balance_datagram.
Qed.

(** X21: the downstream counters stay balanced. Over any run of
    [thread_down], a PULL_RESP that adds one to [dw_dgram_rcv] adds one to
    [nb_tx_ok] or to [nb_tx_fail], according to what [lgw_send] returned,
    and nothing else moves these counters (a beacon does not): when the
    three counters start balanced, as they do at zero,
    nb_tx_ok + nb_tx_fail equals dw_dgram_rcv modulo 2^32 at the end. *)
Theorem pull_resp_counted_once (cfg : down_config) (ss : list session)
    (st : down_state) :
  tx_balance (meas st) -> tx_balance (meas (thread_down_loop cfg ss st)).
Proof.
  revert st. induction ss as [|s ss IH]; intros st Hst; [done|].
  cbn [thread_down_loop]. destruct (_ || _); [done|].
  destruct (autoquit_due cfg st); [done|].
  apply IH. unfold down_session. cbv zeta. by apply tx_balance_listen.
Qed.

End TxBalance.

Lemma pull_resp_counted_once_witness :
  tx_balance (meas down_state_zero)
  /\ meas_nb_tx_ok
       (meas (@thread_down_loop semtech_hal scenario_parson scenario_extern
                autoquit_config [beacon_session] down_state_zero)) = 1
  /\ tx_balance
       (meas (@thread_down_loop semtech_hal scenario_parson scenario_extern
                autoquit_config [beacon_session] down_state_zero)).
Proof.
  assert (tx_balance (meas down_state_zero)) as Hzero by reflexivity.
  split; [exact Hzero|]. split; [vm_compute; reflexivity|].
  exact (@pull_resp_counted_once semtech_hal scenario_parson scenario_extern
           autoquit_config [beacon_session] down_state_zero Hzero).
Defined.

(** ** What the gateway reports upstream, it accepts downstream *)

Section DatrRoundTrip.
Context `{HalConsts} `{Extern}.

(** X22: the datarate and coding rate texts of the two directions agree.
    For a LoRa packet that the upstream thread serialises, the [datr] text
    that it writes, read back with the format of the downstream thread,
    selects the datarate and the bandwidth of the packet, and the [codr]
    text selects its coding rate; only the text OFF, written for a coding
    rate of 0, is refused in a PULL_RESP. *)
Theorem lora_texts_round_trip (p : lgw_pkt_rx_s) (o : rx_object) :
  sscanf_reads_datr ->
  rx_modulation p = MOD_LORA ->
  serialize_modu p = Done o ->
  exists datr codr x,
    In ("datr"%string, J_text datr) o /\ In ("codr"%string, J_text codr) o
    /\ sscanf_datr datr = Some x
    /\ lora_datarate x.1 = Ok [] (rx_datarate p)
    /\ lora_bandwidth x.2 = Ok [] (rx_bandwidth p)
    /\ if String.eqb codr "OFF"
       then exists l, lora_coderate codr = Abort l
       else lora_coderate codr = Ok [] (rx_coderate p).
Proof.
  unfold sscanf_reads_datr, datr_texts. intros Hscan Hmod.
  repeat (apply Forall_cons in Hscan as [? Hscan]). cbn [fst snd] in *.
  unfold serialize_modu. rewrite Hmod, Z.eqb_refl.
  repeat (match goal with
          | |- context [rx_datarate _ =? ?b] =>
              destruct (Z.eqb_spec (rx_datarate p) b)
          end; cbn [mbind run_bind text mret run_ret]).
  all: try done.
  all: repeat (match goal with
          | |- context [rx_bandwidth _ =? ?b] =>
              destruct (Z.eqb_spec (rx_bandwidth p) b)
          end; cbn [mbind run_bind text mret run_ret]).
  all: try done.
  all: repeat (match goal with
          | |- context [rx_coderate _ =? ?b] =>
              destruct (Z.eqb_spec (rx_coderate p) b)
          end; cbn [mbind run_bind text mret run_ret]).
  all: try done.
  all: intros [= <-]; cbn [String.append member].
  all: eexists _, _, _.
  all: (split; [right; left; reflexivity|]).
  all: (split; [right; right; left; reflexivity|]).
  all: (split; [eassumption|]).
  all: cbn; unfold mret, result_ret; repeat split; try congruence;
    by eexists.
Qed.

End DatrRoundTrip.

Lemma lora_texts_round_trip_witness :
  @sscanf_reads_datr datr_extern
  /\ exists o datr,
       @serialize_modu semtech_hal (rx_packet 0x10) = Done o
       /\ In ("datr"%string, J_text datr) o
       /\ @sscanf_datr datr_extern datr = Some (7, 125).
Proof.
  assert (@sscanf_reads_datr datr_extern) as Hscan
    by (repeat constructor).
  split; [exact Hscan|].
  destruct (@serialize_modu semtech_hal (rx_packet 0x10)) as [o|l] eqn:Hser;
    [|vm_compute in Hser; discriminate].
  destruct (@lora_texts_round_trip semtech_hal datr_extern (rx_packet 0x10) o
              Hscan eq_refl Hser)
    as (datr & codr & x & Hdatr & _ & Hx & Hdr & Hbw & _).
  exists o, datr. split; [reflexivity|]. split; [exact Hdatr|].
  rewrite Hx. f_equal. destruct x as [sf bw]. cbn [fst snd] in *.
  vm_compute in Hser. injection Hser as <-.
  destruct Hdatr as [[=]|[[= <-]|[[=]|[[=]|[]]]]].
  vm_compute in Hx. by injection Hx as <- <-.
Defined.

(** ** A beacon needs a warmed-up XTAL correction *)

Section WarmBeacon.
Context `{HalConsts} `{Parson} `{Extern}.

(** X23: the validation thread and the downstream thread together. When
    the downstream thread gives a beacon to the radio on the flags that
    [thread_valid] left, the time reference is marked valid and the
    initial averaging of the XTAL error is over (the counter is at 129);
    the frequency of the beacon is [beacon_freq_hz] times the correction
    of that state, cut to 32 bits. *)
Theorem beacon_needs_warm_xtal (st : Valid.state) (ev : down_event)
    (b sent : lgw_pkt_tx_s) :
  Valid.reachable st ->
  gps_ref_valid (ev_globals ev) = Valid.gps_ref_valid st ->
  xtal_correct_ok (ev_globals ev) = Valid.xtal_correct_ok st ->
  xtal_correct (ev_globals ev) = Valid.xtal_correct st ->
  beacon_sent ev b = Some sent ->
  Valid.gps_ref_valid st = true
  /\ Valid.init_cpt st = 129
  /\ tx_freq_hz sent
     = double_to_u32
         (Valid.xtal_correct st
          * double_of_Z (beacon_freq_hz (ev_globals ev)))%float.
Proof.
  intros Hreach Href Hok Hx Hsent.
  apply beacon_sent_inv in Hsent as [Hready ->]. cbv zeta in Hready.
  unfold beacon_ready in Hready.
  apply andb_true_iff in Hready as [Hready Hxok].
  apply andb_true_iff in Hready as [_ Hrefok].
  destruct (warm_inv_reachable st Hreach) as (_ & Hcpt & _ & _).
  rewrite Hok in Hxok. rewrite Href in Hrefok.
  split; [done|]. split; [by apply Hcpt|]. by rewrite <- Hx.
Qed.

End WarmBeacon.

Lemma beacon_needs_warm_xtal_witness :
  Valid.reachable (Valid.run (replicate 129 (10, scenario_tref)) Valid.start)
  /\ @beacon_sent semtech_hal scenario_beacon_event
       down_state_zero.(beacon_pkt)
     = Some (beacon_load scenario_tref 1%float 869525000
               down_state_zero.(beacon_pkt))
  /\ Valid.init_cpt
       (Valid.run (replicate 129 (10, scenario_tref)) Valid.start) = 129.
Proof.
  assert (Valid.reachable
            (Valid.run (replicate 129 (10, scenario_tref)) Valid.start))
    as Hreach by (apply valid_run_reachable; constructor).
  assert (@beacon_sent semtech_hal scenario_beacon_event
            down_state_zero.(beacon_pkt)
          = Some (beacon_load scenario_tref 1%float 869525000
                    down_state_zero.(beacon_pkt))) as Hsent
    by (vm_compute; reflexivity).
  split; [exact Hreach|]. split; [exact Hsent|].
  exact (proj1 (proj2
    (@beacon_needs_warm_xtal semtech_hal _ scenario_beacon_event _ _ Hreach
       ltac:(vm_compute; reflexivity) ltac:(vm_compute; reflexivity)
       ltac:(vm_compute; reflexivity) Hsent))).
Defined.

